(** * Episode identity and state tracking of the podcast toolkit

    Shallow embedding of the episode ID generator
    ([lib/generators/id.py], [id_generator.py]), of the two episode entry
    stores ([lib/models/podcast.py], the current one, and
    [podcast_list.py], the older one) and of the processing-state trackers
    ([save_state] in [lib/models/podcast.py] and in [main.py]).

    Python [str] values are modelled as lists of characters; a character
    is an [ascii] read as a code point U+0000..U+00FF (Latin-1), and the
    character classes of [re] and [str.lower] are given for that range.
    Python exceptions are the [Err] branch of [result]. *)

From Stdlib Require Import List Ascii String ZArith Bool Lia.
Import ListNotations.
Open Scope Z_scope.

(** ** Python-level primitives *)
Module Py.

Definition str := list ascii.

(** Literal strings of the source, written as Rocq strings. *)
Definition s_ (s : string) : str := list_ascii_of_string s.

Definition code (c : ascii) : Z := Z.of_nat (nat_of_ascii c).
Definition chr (n : Z) : ascii := ascii_of_nat (Z.to_nat n).

Definition in_range (lo hi : Z) (c : ascii) : bool :=
  (lo <=? code c) && (code c <=? hi).

Definition underscore : ascii := "_"%char.
Definition space : ascii := " "%char.
Definition hyphen : ascii := "-"%char.
Definition newline : ascii := chr 10.

(** [\w] of a [str] pattern: [str.isalnum()] or the underscore. *)
Definition is_word (c : ascii) : bool :=
  in_range 48 57 c || in_range 65 90 c || in_range 97 122 c
  || Ascii.eqb c underscore
  || Z.eqb (code c) 170 || Z.eqb (code c) 178 || Z.eqb (code c) 179
  || Z.eqb (code c) 181 || Z.eqb (code c) 185 || Z.eqb (code c) 186
  || in_range 188 190 c || in_range 192 214 c || in_range 216 246 c
  || in_range 248 255 c.

(** [\s] of a [str] pattern ([str.isspace()]). *)
Definition is_space (c : ascii) : bool :=
  in_range 9 13 c || in_range 28 32 c
  || Z.eqb (code c) 133 || Z.eqb (code c) 160.

(** [\d] of a [str] pattern: in this range only the ASCII digits. *)
Definition is_digit (c : ascii) : bool := in_range 48 57 c.

Definition digit_value (c : ascii) : Z := code c - 48.
Definition digit_char (n : Z) : ascii := chr (48 + n).

(** [str.lower()] on one character: upper-case ASCII and Latin-1 letters
    (except U+00D7) move down by 32; no Latin-1 character expands. *)
Definition lower_char (c : ascii) : ascii :=
  if in_range 65 90 c || in_range 192 214 c || in_range 216 222 c
  then chr (code c + 32) else c.

Definition lower (s : str) : str := map lower_char s.

(** [str.replace(old, new)] with a one-character [old], as used here. *)
Definition replace_char (old new : ascii) (s : str) : str :=
  map (fun c => if Ascii.eqb c old then new else c) s.

(** Python exceptions raised by the modelled code. *)
Inductive error : Type :=
| ValueError (msg : str)
| TypeError (msg : str)
| KeyError (key : str)
| AttributeError (msg : str)
| JSONDecodeError
| OSError
(** not an exception: the input lies outside what the model represents *)
| OutsideModel.

Inductive result (A : Type) : Type :=
| Ok (a : A)
| Err (e : error).
Arguments Ok {A} a.
Arguments Err {A} e.

Definition bind {A B} (m : result A) (f : A -> result B) : result B :=
  match m with Ok a => f a | Err e => Err e end.

Notation "x <- m ;; k" := (bind m (fun x => k)) (at level 61, m at next level, right associativity).

(** A [for] loop over a list whose body may raise. *)
Fixpoint fold_result {A B} (f : A -> B -> result A) (l : list B) (acc : A) : result A :=
  match l with
  | [] => Ok acc
  | x :: r => a <- f acc x ;; fold_result f r a
  end.

(** [str.strip()] with no argument. *)
Definition strip (s : str) : str :=
  let drop := fix drop (l : str) :=
    match l with c :: r => if is_space c then drop r else l | [] => [] end in
  rev (drop (rev (drop s))).

(** Digits of [int()] in base 10: single underscores may separate digits. *)
Fixpoint digits_acc (acc : Z) (prev_us : bool) (s : str) : option Z :=
  match s with
  | [] => if prev_us then None else Some acc
  | c :: r =>
      if is_digit c then digits_acc (10 * acc + digit_value c) false r
      else if Ascii.eqb c underscore && negb prev_us then digits_acc acc true r
      else None
  end.

Definition parse_digits (s : str) : option Z :=
  match s with
  | c :: r => if is_digit c then digits_acc (digit_value c) false r else None
  | [] => None
  end.

(** [int(s)] for a [str]: surrounding whitespace, an optional sign, then
    decimal digits; [None] is the [ValueError]. *)
Definition py_int (s : str) : option Z :=
  match strip s with
  | c :: r =>
      if Ascii.eqb c "-"%char then option_map Z.opp (parse_digits r)
      else if Ascii.eqb c "+"%char then parse_digits r
      else parse_digits (c :: r)
  | [] => None
  end.

(** Decimal representation of a non-negative integer; the fuel bounds the
    number of digits by the number of bits. *)
Fixpoint dec_aux (fuel : nat) (n : Z) (acc : str) : str :=
  match fuel with
  | O => acc
  | S f =>
      let acc' := digit_char (n mod 10) :: acc in
      if n <? 10 then acc' else dec_aux f (n / 10) acc'
  end.

Definition dec_digits (n : Z) : str := dec_aux (S (Z.to_nat (Z.log2 n))) n [].

(** [str(n)] for an [int]. *)
Definition int_str (n : Z) : str :=
  if n <? 0 then "-"%char :: dec_digits (- n) else dec_digits n.

(** Zero padding to width 2 of a non-negative integer ([%02d], [%m]). *)
Definition pad2 (n : Z) : str :=
  let d := dec_digits n in
  if (List.length d <? 2)%nat then "0"%char :: d else d.

(** [format(n, '02d')]: the sign counts in the width. *)
Definition fmt_02d (n : Z) : str :=
  if n <? 0 then "-"%char :: dec_digits (- n) else pad2 n.

Local Set Warnings "-register-all".

(** Python values the store handles: the JSON types, and instances of
    dataclasses as a class name with the instance [__dict__] in insertion
    order.  Floats are outside the model. *)
Inductive pyval : Type :=
| PNone
| PBool (b : bool)
| PInt (z : Z)
| PStr (s : str)
| PList (l : list pyval)
| PDict (kv : list (str * pyval))
| PObj (cls : str) (attrs : list (str * pyval)).

(** A Python [dict] with string keys, in insertion order. *)
Definition dict (A : Type) := list (str * A).

Definition str_eqb (a b : str) : bool := if list_eq_dec ascii_dec a b then true else false.

Fixpoint dict_get {A} (d : dict A) (k : str) : option A :=
  match d with
  | [] => None
  | (k', v) :: r => if str_eqb k k' then Some v else dict_get r k
  end.

(** [d[k] = v]: an existing key keeps its position. *)
Fixpoint dict_set {A} (d : dict A) (k : str) (v : A) : dict A :=
  match d with
  | [] => [(k, v)]
  | (k', v') :: r => if str_eqb k k' then (k', v) :: r else (k', v') :: dict_set r k v
  end.

(** [{**d, **e}] and [d.update(e)]. *)
Definition dict_update {A} (d e : dict A) : dict A :=
  fold_left (fun acc kv => dict_set acc (fst kv) (snd kv)) e d.

(** [v[k]] with a string key. *)
Definition getitem (v : pyval) (k : str) : result pyval :=
  match v with
  | PDict kv => match dict_get kv k with Some x => Ok x | None => Err (KeyError k) end
  | _ => Err (TypeError (s_ "indices must be integers"))
  end.

(** Truth value of an object. *)
Definition truthy (v : pyval) : bool :=
  match v with
  | PNone => false
  | PBool b => b
  | PInt z => negb (z =? 0)
  | PStr s => negb (List.length s =? 0)%nat
  | PList l => negb (List.length l =? 0)%nat
  | PDict kv => negb (List.length kv =? 0)%nat
  | PObj _ _ => true
  end.

(** [str.split(sep)] with a one-character separator. *)
Fixpoint split_on (sep : ascii) (s : str) : list str :=
  match s with
  | [] => [[]]
  | c :: r =>
      if Ascii.eqb c sep then [] :: split_on sep r
      else match split_on sep r with
           | x :: xs => (c :: x) :: xs
           | [] => [[c]]
           end
  end.

Fixpoint is_prefix (p s : str) : bool :=
  match p, s with
  | [], _ => true
  | a :: p', b :: s' => Ascii.eqb a b && is_prefix p' s'
  | _ :: _, [] => false
  end.

Fixpoint replace_fuel (fuel : nat) (old new s : str) : str :=
  match fuel with
  | O => s
  | S f =>
      match s with
      | [] => []
      | c :: r =>
          if is_prefix old s then new ++ replace_fuel f old new (skipn (List.length old) s)
          else c :: replace_fuel f old new r
      end
  end.

(** [s.replace(old, new)] for a non-empty [old]: left to right, without
    overlaps. *)
Definition str_replace (old new s : str) : str :=
  replace_fuel (S (List.length s)) old new s.

End Py.
Import Py.

(** ** [str()], [repr()] and the [json] module on the modelled values *)
Module PyText.

Definition bs : ascii := chr 92.
Definition dq : ascii := chr 34.
Definition sq : ascii := chr 39.

Definition hex_char (n : Z) : ascii := if n <? 10 then digit_char n else chr (87 + n).

Definition hex2 (n : Z) : str := [hex_char (n / 16 mod 16); hex_char (n mod 16)].
Definition hex4 (n : Z) : str :=
  [hex_char (n / 4096 mod 16); hex_char (n / 256 mod 16)] ++ hex2 n.

Definition hex_val (c : ascii) : option Z :=
  if is_digit c then Some (digit_value c)
  else if in_range 97 102 c then Some (code c - 87)
  else if in_range 65 70 c then Some (code c - 55)
  else None.

Fixpoint join (sep : str) (l : list str) : str :=
  match l with
  | [] => []
  | [x] => x
  | x :: r => x ++ sep ++ join sep r
  end.

(** [repr()] of a [str]: single quotes unless the text has a single quote
    and no double quote; non-printable characters as [\xNN]. *)
Definition repr_str (s : str) : str :=
  let q := if existsb (Ascii.eqb sq) s && negb (existsb (Ascii.eqb dq) s) then dq else sq in
  let esc (c : ascii) : str :=
    let n := code c in
    if Ascii.eqb c q || Ascii.eqb c bs then [bs; c]
    else if n =? 9 then [bs; "t"%char]
    else if n =? 10 then [bs; "n"%char]
    else if n =? 13 then [bs; "r"%char]
    else if (n <? 32) || ((127 <=? n) && (n <=? 160)) || (n =? 173)
    then [bs; "x"%char] ++ hex2 n
    else [c] in
  q :: flat_map esc s ++ [q].

Fixpoint repr (v : pyval) : str :=
  match v with
  | PNone => s_ "None"
  | PBool b => if b then s_ "True" else s_ "False"
  | PInt z => int_str z
  | PStr s => repr_str s
  | PList l =>
      let fix reprs (l : list pyval) : list str :=
        match l with [] => [] | x :: r => repr x :: reprs r end in
      s_ "[" ++ join (s_ ", ") (reprs l) ++ s_ "]"
  | PDict kv =>
      let fix reprs (kv : list (str * pyval)) : list str :=
        match kv with [] => [] | (k, x) :: r => (repr_str k ++ s_ ": " ++ repr x) :: reprs r end in
      s_ "{" ++ join (s_ ", ") (reprs kv) ++ s_ "}"
  | PObj cls attrs =>
      let fix reprs (kv : list (str * pyval)) : list str :=
        match kv with [] => [] | (k, x) :: r => (k ++ s_ "=" ++ repr x) :: reprs r end in
      cls ++ s_ "(" ++ join (s_ ", ") (reprs attrs) ++ s_ ")"
  end.

(** [str(v)], which is what an f-string inserts. *)
Definition py_str (v : pyval) : str :=
  match v with PStr s => s | _ => repr v end.

(** String escaping of [json.dumps] with [ensure_ascii=True]. *)
Definition json_escape_char (c : ascii) : str :=
  let n := code c in
  if Ascii.eqb c dq || Ascii.eqb c bs then [bs; c]
  else if n =? 10 then [bs; "n"%char]
  else if n =? 13 then [bs; "r"%char]
  else if n =? 9 then [bs; "t"%char]
  else if n =? 8 then [bs; "b"%char]
  else if n =? 12 then [bs; "f"%char]
  else if (n <? 32) || (126 <? n) then [bs; "u"%char] ++ hex4 n
  else [c].

Definition json_str (s : str) : str := dq :: flat_map json_escape_char s ++ [dq].

Definition nl_indent (lvl : nat) : str := newline :: repeat " "%char (2 * lvl).

(** [json.dump(v, f, indent=2)] as the chunks it writes: the text written
    and whether the encoding completed.  A value that is not JSON
    serializable raises a [TypeError] after everything before it, including
    the separator in front of it, has been written. *)
Fixpoint json_w (lvl : nat) (v : pyval) : str * bool :=
  match v with
  | PNone => (s_ "null", true)
  | PBool b => (if b then s_ "true" else s_ "false", true)
  | PInt z => (int_str z, true)
  | PStr s => (json_str s, true)
  | PList [] => (s_ "[]", true)
  | PList l =>
      let sep := s_ "," ++ nl_indent (S lvl) in
      let fix items (first : bool) (l : list pyval) : str * bool :=
        match l with
        | [] => ([], true)
        | x :: r =>
            let buf := if first then [] else sep in
            let (t, ok) := json_w (S lvl) x in
            if ok then let (t', ok') := items false r in (buf ++ t ++ t', ok')
            else (buf ++ t, false)
        end in
      let (t, ok) := items true l in
      if ok then (s_ "[" ++ nl_indent (S lvl) ++ t ++ nl_indent lvl ++ s_ "]", true)
      else (s_ "[" ++ nl_indent (S lvl) ++ t, false)
  | PDict [] => (s_ "{}", true)
  | PDict kv =>
      let sep := s_ "," ++ nl_indent (S lvl) in
      let fix items (first : bool) (kv : list (str * pyval)) : str * bool :=
        match kv with
        | [] => ([], true)
        | (k, x) :: r =>
            let buf := (if first then [] else sep) ++ json_str k ++ s_ ": " in
            let (t, ok) := json_w (S lvl) x in
            if ok then let (t', ok') := items false r in (buf ++ t ++ t', ok')
            else (buf ++ t, false)
        end in
      let (t, ok) := items true kv in
      if ok then (s_ "{" ++ nl_indent (S lvl) ++ t ++ nl_indent lvl ++ s_ "}", true)
      else (s_ "{" ++ nl_indent (S lvl) ++ t, false)
  | PObj _ _ => ([], false)
  end.

(** [json.dumps(v, indent=2)]; [None] is the [TypeError]. *)
Definition json_dumps (v : pyval) : option str :=
  let (t, ok) := json_w 0 v in if ok then Some t else None.

(** The decoder of [json.loads].  Besides a value and the rest of the
    text ([JOk]) and a malformed document ([JBad], the [JSONDecodeError]),
    the outcome [JOutside] marks a document that uses a construct the model
    does not represent: floats, [NaN], [Infinity] and [\u] escapes above
    U+00FF, and arrays and objects nested more than 100 deep, where the
    recursion limit of the scanner comes into play.  Nothing is assumed
    about those documents. *)
Inductive jres (A : Type) : Type := JOk (a : A) | JBad | JOutside.
Arguments JOk {A} a.
Arguments JBad {A}.
Arguments JOutside {A}.

Definition is_json_ws (c : ascii) : bool :=
  let n := code c in (n =? 32) || (n =? 9) || (n =? 10) || (n =? 13).

Fixpoint skip_ws (s : str) : str :=
  match s with c :: r => if is_json_ws c then skip_ws r else s | [] => [] end.

Fixpoint str_body (s acc : str) : jres (str * str) :=
  match s with
  | [] => JBad
  | c :: r =>
      if Ascii.eqb c dq then JOk (rev acc, r)
      else if Ascii.eqb c bs then
        match r with
        | e :: r' =>
            let n := code e in
            if Ascii.eqb e dq || Ascii.eqb e bs || (n =? 47) then str_body r' (e :: acc)
            else if n =? 98 then str_body r' (chr 8 :: acc)
            else if n =? 102 then str_body r' (chr 12 :: acc)
            else if n =? 110 then str_body r' (chr 10 :: acc)
            else if n =? 114 then str_body r' (chr 13 :: acc)
            else if n =? 116 then str_body r' (chr 9 :: acc)
            else if n =? 117 then
              match r' with
              | h1 :: h2 :: h3 :: h4 :: r'' =>
                  match hex_val h1, hex_val h2, hex_val h3, hex_val h4 with
                  | Some a, Some b, Some c', Some d =>
                      let v := 4096 * a + 256 * b + 16 * c' + d in
                      if v <? 256 then str_body r'' (chr v :: acc) else JOutside
                  | _, _, _, _ => JBad
                  end
              | _ => JBad
              end
            else JBad
        | [] => JBad
        end
      else if code c <? 32 then JBad
      else str_body r (c :: acc)
  end.

Fixpoint digits_run (s : str) : str * str :=
  match s with
  | c :: r => if is_digit c then let (d, t) := digits_run r in (c :: d, t) else ([], s)
  | [] => ([], [])
  end.

(** An optional minus sign, then [0] or digits not starting with [0];
    a fraction or an exponent after it makes a float. *)
Definition json_int (s : str) : jres (pyval * str) :=
  let (neg, s1) := match s with c :: r => if Ascii.eqb c "-"%char then (true, r) else (false, s) | [] => (false, s) end in
  let (ds, rest) := digits_run s1 in
  let int_of ds := match parse_digits ds with
                   | Some z => JOk (PInt (if neg then - z else z), rest)
                   | None => JBad
                   end in
  match ds with
  | [] => match s1 with "I"%char :: _ => JOutside | _ => JBad end
  | d0 :: more =>
      if Ascii.eqb d0 "0"%char && negb (List.length more =? 0)%nat then JBad
      else
        match rest with
        | c :: _ => if Ascii.eqb c "."%char || Ascii.eqb c "e"%char || Ascii.eqb c "E"%char then JOutside
                    else int_of ds
        | [] => int_of ds
        end
  end.

Fixpoint json_value (fuel depth : nat) (s : str) : jres (pyval * str) :=
  match fuel with
  | O => JOutside
  | S f =>
      match s with
      | [] => JBad
      | c :: r =>
          if Ascii.eqb c dq then
            match str_body r [] with
            | JOk (t, r') => JOk (PStr t, r')
            | JBad => JBad
            | JOutside => JOutside
            end
          else if (Ascii.eqb c "["%char || Ascii.eqb c "{"%char) && (100 <=? depth)%nat then JOutside
          else if Ascii.eqb c "["%char then
            match skip_ws r with
            | c' :: r' => if Ascii.eqb c' "]"%char then JOk (PList [], r') else json_items f (S depth) (c' :: r') []
            | [] => JBad
            end
          else if Ascii.eqb c "{"%char then
            match skip_ws r with
            | c' :: r' => if Ascii.eqb c' "}"%char then JOk (PDict [], r') else json_members f (S depth) (c' :: r') []
            | [] => JBad
            end
          else match s with
          | "n"%char :: "u"%char :: "l"%char :: "l"%char :: r' => JOk (PNone, r')
          | "t"%char :: "r"%char :: "u"%char :: "e"%char :: r' => JOk (PBool true, r')
          | "f"%char :: "a"%char :: "l"%char :: "s"%char :: "e"%char :: r' => JOk (PBool false, r')
          | "N"%char :: "a"%char :: "N"%char :: _ => JOutside
          | _ => json_int s
          end
      end
  end
with json_items (fuel depth : nat) (s : str) (acc : list pyval) : jres (pyval * str) :=
  match fuel with
  | O => JOutside
  | S f =>
      match json_value f depth s with
      | JOk (v, r) =>
          match skip_ws r with
          | c :: r' =>
              if Ascii.eqb c ","%char then json_items f depth (skip_ws r') (v :: acc)
              else if Ascii.eqb c "]"%char then JOk (PList (rev (v :: acc)), r')
              else JBad
          | [] => JBad
          end
      | JBad => JBad
      | JOutside => JOutside
      end
  end
with json_members (fuel depth : nat) (s : str) (acc : list (str * pyval)) : jres (pyval * str) :=
  match fuel with
  | O => JOutside
  | S f =>
      match s with
      | c :: r =>
          if Ascii.eqb c dq then
            match str_body r [] with
            | JOk (k, r1) =>
                match skip_ws r1 with
                | c1 :: r2 =>
                    if Ascii.eqb c1 ":"%char then
                      match json_value f depth (skip_ws r2) with
                      | JOk (v, r3) =>
                          let acc' := dict_set acc k v in
                          match skip_ws r3 with
                          | c2 :: r4 =>
                              if Ascii.eqb c2 ","%char then json_members f depth (skip_ws r4) acc'
                              else if Ascii.eqb c2 "}"%char then JOk (PDict acc', r4)
                              else JBad
                          | [] => JBad
                          end
                      | JBad => JBad
                      | JOutside => JOutside
                      end
                    else JBad
                | [] => JBad
                end
            | JBad => JBad
            | JOutside => JOutside
            end
          else JBad
      | [] => JBad
      end
  end.

(** [json.loads(text)]: no data may follow the document. *)
Definition json_loads (text : str) : jres pyval :=
  match json_value (2 * List.length text + 2) 0 (skip_ws text) with
  | JOk (v, rest) => if (List.length (skip_ws rest) =? 0)%nat then JOk v else JBad
  | JBad => JBad
  | JOutside => JOutside
  end.

End PyText.
Import PyText.

(** ** [PodcastID._sanitize_name] *)
Module Sanitize.

(** [re.sub(r'[^\w\s-]', '', _)]: keep word, space and hyphen characters. *)
Definition keep (c : ascii) : bool :=
  is_word c || is_space c || Ascii.eqb c hyphen.

(** [re.sub(r'_+', '_', _)]: [prev] records that the previous character
    emitted was an underscore of the current run. *)
Fixpoint collapse_us (prev : bool) (s : str) : str :=
  match s with
  | [] => []
  | c :: r =>
      if Ascii.eqb c underscore
      then if prev then collapse_us true r else c :: collapse_us true r
      else c :: collapse_us false r
  end.

Definition _sanitize_name (name : str) : str :=
  let clean := filter keep (lower name) in
  collapse_us false (replace_char space underscore clean).

End Sanitize.

(** ** [PodcastID]: formatting and parsing of episode IDs
    ([lib/generators/id.py] and [id_generator.py] share this class). *)
Module PodcastIDM.
Import Sanitize.

(** [datetime.datetime] without time zone. *)
Record datetime : Type := mk_datetime {
  year : Z; month : Z; day : Z;
  hour : Z; minute : Z; second : Z; microsecond : Z }.

Definition is_leap (y : Z) : bool :=
  (y mod 4 =? 0) && (negb (y mod 100 =? 0) || (y mod 400 =? 0)).

Definition days_in_month (y m : Z) : Z :=
  if m =? 2 then (if is_leap y then 29 else 28)
  else if (m =? 4) || (m =? 6) || (m =? 9) || (m =? 11) then 30 else 31.

(** The invariant every [datetime] object satisfies. *)
Definition valid_datetime (d : datetime) : Prop :=
  1 <= year d <= 9999 /\ 1 <= month d <= 12 /\
  1 <= day d <= days_in_month (year d) (month d) /\
  0 <= hour d < 24 /\ 0 <= minute d < 60 /\ 0 <= second d < 60 /\
  0 <= microsecond d < 1000000.

(** [date.strftime('%y_%m_%d')]. *)
Definition strftime_yymmdd (d : datetime) : str :=
  pad2 (year d mod 100) ++ [underscore] ++ pad2 (month d) ++ [underscore]
  ++ pad2 (day d).

Definition two_digits (a b : ascii) : Z := 10 * digit_value a + digit_value b.

(** [datetime.strptime(s, "%y_%m_%d")] on the eight characters the ID
    pattern captures: [%y] is [\d\d] (00..68 in the 2000s, 69..99 in the
    1900s), [%m] accepts 01..12 and [%d] 01..31 when followed by two
    digits, and the [datetime] constructor rejects a day past the end of
    the month.  [None] is the [ValueError]. *)
Definition strptime_yymmdd (s : str) : option datetime :=
  match s with
  | [y1; y2; u1; m1; m2; u2; d1; d2] =>
      if is_digit y1 && is_digit y2 && Ascii.eqb u1 underscore
         && is_digit m1 && is_digit m2 && Ascii.eqb u2 underscore
         && is_digit d1 && is_digit d2
      then
        let yy := two_digits y1 y2 in
        let y := if yy <=? 68 then yy + 2000 else yy + 1900 in
        let m := two_digits m1 m2 in
        let d := two_digits d1 d2 in
        if (1 <=? m) && (m <=? 12) && (1 <=? d) && (d <=? 31)
           && (d <=? days_in_month y m)
        then Some (mk_datetime y m d 0 0 0 0)
        else None
      else None
  | _ => None
  end.

Record PodcastID : Type := mk_pid {
  pid_date : datetime;
  pid_podcast_name : str;
  pid_interviewee_name : str;
  pid_platform : str;
  pid_count : Z }.

(** [PodcastID.__init__]. *)
Definition new_PodcastID (date : datetime) (podcast_name interviewee_name platform : str)
    (count : Z) : PodcastID :=
  mk_pid date (_sanitize_name podcast_name) (_sanitize_name interviewee_name)
    (lower platform) count.

(** [PodcastID.base_id]. *)
Definition base_id (p : PodcastID) : str :=
  strftime_yymmdd (pid_date p) ++ [underscore] ++ pid_podcast_name p
  ++ [underscore] ++ pid_interviewee_name p ++ [underscore] ++ pid_platform p
  ++ [underscore] ++ fmt_02d (pid_count p).

(** The lazy group [(.+?)] of [re], in continuation-passing style: the
    continuation [k] is tried with the shortest group first, then the
    group grows by one character; [.] does not match a newline. *)
Fixpoint lazy_from {A} (acc s : str) (k : str -> str -> option A) : option A :=
  match k acc s with
  | Some r => Some r
  | None =>
      match s with
      | [] => None
      | c :: s' => if Ascii.eqb c newline then None else lazy_from (acc ++ [c]) s' k
      end
  end.

Definition dot_plus_lazy {A} (s : str) (k : str -> str -> option A) : option A :=
  match s with
  | [] => None
  | c :: s' => if Ascii.eqb c newline then None else lazy_from [c] s' k
  end.

(** [$] without MULTILINE: end of the string or before a final newline. *)
Definition end_anchor (s : str) : bool :=
  match s with
  | [] => true
  | [c] => Ascii.eqb c newline
  | _ => false
  end.

Definition after_us {A} (s : str) (k : str -> option A) : option A :=
  match s with
  | c :: r => if Ascii.eqb c underscore then k r else None
  | [] => None
  end.

(** [re.match(r"(\d{2}_\d{2}_\d{2})_(.+?)_(.+?)_(.+?)_(\d{2})$", s)],
    returning the five groups. *)
Definition id_match (s : str) : option (str * str * str * str * str) :=
  match s with
  | y1 :: y2 :: u1 :: m1 :: m2 :: u2 :: d1 :: d2 :: u3 :: rest =>
      if is_digit y1 && is_digit y2 && Ascii.eqb u1 underscore
         && is_digit m1 && is_digit m2 && Ascii.eqb u2 underscore
         && is_digit d1 && is_digit d2 && Ascii.eqb u3 underscore
      then
        dot_plus_lazy rest (fun g2 r2 => after_us r2 (fun r2' =>
        dot_plus_lazy r2' (fun g3 r3 => after_us r3 (fun r3' =>
        dot_plus_lazy r3' (fun g4 r4 => after_us r4 (fun r4' =>
          match r4' with
          | c1 :: c2 :: tl =>
              if is_digit c1 && is_digit c2 && end_anchor tl
              then Some ([y1; y2; u1; m1; m2; u2; d1; d2], g2, g3, g4, [c1; c2])
              else None
          | _ => None
          end))))))
      else None
  | _ => None
  end.

(** [PodcastID.from_string]. *)
Definition from_string (id_string : str) : result PodcastID :=
  match id_match id_string with
  | None => Err (ValueError (s_ "Invalid ID format: " ++ id_string))
  | Some (date_str, podcast, interviewee, platform, count) =>
      match strptime_yymmdd date_str with
      | None => Err (ValueError (s_ "time data does not match format '%y_%m_%d'"))
      | Some date =>
          match py_int count with
          | Some n => Ok (new_PodcastID date podcast interviewee platform n)
          | None => Err (ValueError (s_ "invalid literal for int()"))
          end
      end
  end.

End PodcastIDM.

(** ** [IDGenerator] of [lib/generators/id.py] *)
Module IDGen.
Import PodcastIDM.

Record IDGenerator : Type := mk_gen { id_cache : dict Z }.

Definition cache_get (cache : dict Z) (key : str) : Z :=
  match dict_get cache key with Some n => n | None => 0 end.

(** [for entry in data]: lists give their items, dicts their keys and
    strings their characters. *)
Definition iter_items (v : pyval) : result (list pyval) :=
  match v with
  | PList l => Ok l
  | PDict kv => Ok (map (fun p => PStr (fst p)) kv)
  | PStr s => Ok (map (fun c => PStr [c]) s)
  | _ => Err (TypeError (s_ "object is not iterable"))
  end.

(** One iteration of the loop of [_load_cache]. *)
Definition load_cache_step (cache : dict Z) (entry : pyval) : result (dict Z) :=
  pn <- getitem entry (s_ "podcast_name") ;;
  iv <- getitem entry (s_ "interviewee") ;;
  nm <- getitem iv (s_ "name") ;;
  let key := py_str pn ++ [underscore] ++ py_str nm in
  eid <- getitem entry (s_ "episode_id") ;;
  match eid with
  | PStr e =>
      let seg := last (split_on underscore e) [] in
      let seg' := str_replace (s_ "youtube_") [] (str_replace (s_ "vimeo_") [] seg) in
      match py_int seg' with
      | Some count => Ok (dict_set cache key (Z.max (cache_get cache key) count))
      | None => Err (ValueError (s_ "invalid literal for int() with base 10"))
      end
  | _ => Err (AttributeError (s_ "object has no attribute 'split'"))
  end.

(** [_load_cache]: [podcasts_json] is the content of [Config.PODCAST_LIST],
    [None] when the file does not exist. *)
Definition _load_cache (podcasts_json : option str) : result (dict Z) :=
  match podcasts_json with
  | None => Ok []
  | Some text =>
      match json_loads text with
      | JBad => Err JSONDecodeError
      | JOutside => Err OutsideModel
      | JOk data =>
          entries <- iter_items data ;;
          fold_result load_cache_step entries []
      end
  end.

(** [IDGenerator()]. *)
Definition IDGenerator_init (podcasts_json : option str) : result IDGenerator :=
  cache <- _load_cache podcasts_json ;; Ok (mk_gen cache).

Definition reset_cache (g : IDGenerator) : IDGenerator := mk_gen [].

(** [generate_id]: the grouping key is the unsanitized
    [f"{podcast_name}_{interviewee_name}"]. *)
Definition generate_id (g : IDGenerator) (date : datetime)
    (podcast_name interviewee_name platform : str) : IDGenerator * PodcastID :=
  let key := podcast_name ++ [underscore] ++ interviewee_name in
  let count := cache_get (id_cache g) key + 1 in
  (mk_gen (dict_set (id_cache g) key count),
   new_PodcastID date podcast_name interviewee_name platform count).

(** [k] successive calls with the same arguments. *)
Fixpoint generate_ids (g : IDGenerator) (date : datetime)
    (podcast_name interviewee_name platform : str) (k : nat)
    : IDGenerator * list PodcastID :=
  match k with
  | O => (g, [])
  | S k' =>
      let (g1, p) := generate_id g date podcast_name interviewee_name platform in
      let (g2, ps) := generate_ids g1 date podcast_name interviewee_name platform k' in
      (g2, p :: ps)
  end.

(** Successive calls, each with its own [(date, podcast_name,
    interviewee_name, platform)]. *)
Fixpoint generate_id_calls (g : IDGenerator) (calls : list (datetime * str * str * str))
    : IDGenerator * list PodcastID :=
  match calls with
  | [] => (g, [])
  | (date, podcast_name, interviewee_name, platform) :: r =>
      let (g1, p) := generate_id g date podcast_name interviewee_name platform in
      let (g2, ps) := generate_id_calls g1 r in
      (g2, p :: ps)
  end.

End IDGen.

(** ** Dataclass instances

    The generated [__init__], [dataclasses.asdict] and attribute access,
    for a table [cf] giving the fields (with their defaults, in declaration
    order) of each dataclass of the module. *)
Module Dataclass.

Definition fields := list (str * option pyval).

Definition has_key {A} (d : dict A) (k : str) : bool :=
  match dict_get d k with Some _ => true | None => false end.

(** A list comprehension whose element expression may raise. *)
Fixpoint map_result {A B} (f : A -> result B) (l : list A) : result (list B) :=
  match l with
  | [] => Ok []
  | x :: r => y <- f x ;; ys <- map_result f r ;; Ok (y :: ys)
  end.

(** [cls( **kwargs)]: unknown keywords and missing required fields raise
    [TypeError]; the instance [__dict__] follows the field order. *)
Definition construct (cls : str) (fs : fields) (kwargs : dict pyval) : result pyval :=
  if existsb (fun kv => negb (has_key fs (fst kv))) kwargs
  then Err (TypeError (s_ "unexpected keyword argument"))
  else
    attrs <- fold_result (fun acc f =>
               match dict_get kwargs (fst f), snd f with
               | Some v, _ => Ok (acc ++ [(fst f, v)])
               | None, Some v => Ok (acc ++ [(fst f, v)])
               | None, None => Err (TypeError (s_ "missing required argument"))
               end) fs [] ;;
    Ok (PObj cls attrs).

(** [getattr(obj, name)] for an instance attribute. *)
Definition getattr (v : pyval) (name : str) : option pyval :=
  match v with PObj _ attrs => dict_get attrs name | _ => None end.

(** [setattr(obj, name, x)]: sets the instance attribute, also when it
    shadows a method. *)
Definition setattr (v : pyval) (name : str) (x : pyval) : pyval :=
  match v with PObj cls attrs => PObj cls (dict_set attrs name x) | _ => v end.

(** A dunder name [__x__].  Every instance has many such attributes
    ([__class__], [__dict__], [__doc__], [__init__], ...), and [setattr]
    on them raises or changes the instance's machinery. *)
Definition is_dunder (name : str) : bool :=
  match name, rev name with
  | "_"%char :: "_"%char :: _ :: _ :: _, "_"%char :: "_"%char :: _ => true
  | _, _ => false
  end.

(** Whether an instance of a class with methods [methods] has the
    attribute [name], for a name that is not a dunder name: its instance
    attributes and the methods of its class. *)
Definition has_attribute (methods : list str) (v : pyval) (name : str) : bool :=
  match v with
  | PObj _ attrs => has_key attrs name || existsb (str_eqb name) methods
  | _ => false
  end.

(** [hasattr(obj, name)]; dunder names are outside the model. *)
Definition hasattr (methods : list str) (v : pyval) (name : str) : result bool :=
  if is_dunder name then Err OutsideModel else Ok (has_attribute methods v name).

(** [dataclasses._asdict_inner]: dataclass instances become dicts of
    their fields, lists and dicts are rebuilt, anything else is copied. *)
Fixpoint asdict_inner (cf : str -> option fields) (v : pyval) : result pyval :=
  match v with
  | PObj cls attrs =>
      match cf cls with
      | Some fs =>
          let inner := (fix go (l : list (str * pyval)) : list (str * result pyval) :=
                          match l with
                          | [] => []
                          | (k, x) :: r => (k, asdict_inner cf x) :: go r
                          end) attrs in
          kv <- fold_result (fun acc f =>
                  match dict_get inner (fst f) with
                  | Some (Ok x) => Ok (acc ++ [(fst f, x)])
                  | Some (Err e) => Err e
                  | None => Err (AttributeError (fst f))
                  end) fs [] ;;
          Ok (PDict kv)
      | None => Ok v
      end
  | PList l =>
      items <- (fix go (l : list pyval) : result (list pyval) :=
                  match l with
                  | [] => Ok []
                  | x :: r => y <- asdict_inner cf x ;; ys <- go r ;; Ok (y :: ys)
                  end) l ;;
      Ok (PList items)
  | PDict kv =>
      items <- (fix go (l : list (str * pyval)) : result (list (str * pyval)) :=
                  match l with
                  | [] => Ok []
                  | (k, x) :: r => y <- asdict_inner cf x ;; ys <- go r ;; Ok ((k, y) :: ys)
                  end) kv ;;
      Ok (PDict items)
  | _ => Ok v
  end.

(** [entry.to_dict()], i.e. [asdict(self)]; an instance attribute named
    [to_dict] shadows the method and is not callable. *)
Definition to_dict (cf : str -> option fields) (e : pyval) : result pyval :=
  match e with
  | PObj cls attrs =>
      if has_key attrs (s_ "to_dict") then Err (TypeError (s_ "object is not callable"))
      else match cf cls with
           | Some _ => asdict_inner cf e
           | None => Err (TypeError (s_ "asdict() should be called on dataclass instances"))
           end
  | _ => Err (AttributeError (s_ "to_dict"))
  end.

(** [v.get(k, default)]. *)
Definition py_get (v : pyval) (k : str) (default : pyval) : result pyval :=
  match v with
  | PDict kv => Ok (match dict_get kv k with Some x => x | None => default end)
  | _ => Err (AttributeError (s_ "object has no attribute 'get'"))
  end.

(** [{**v}] and [f( **v)]. *)
Definition as_mapping (v : pyval) : result (dict pyval) :=
  match v with
  | PDict kv => Ok kv
  | _ => Err (TypeError (s_ "argument after ** must be a mapping"))
  end.

End Dataclass.

(** ** Files and the store object

    The files the stores touch, the [entries] of the [PodcastList] object
    and the environment: the value [datetime.utcnow().isoformat()] returns
    and a write fault.  A file is [None] when it does not exist.  The
    directories are assumed to exist or to be creatable. *)
Module World.
Import Dataclass.

Record State : Type := mk_state {
  podcast_list_file : option str;   (* Config.PODCAST_LIST *)
  current_state_file : option str;  (* Config.CURRENT_STATE *)
  database_file : option str;       (* Config.DATABASE, older code only *)
  entries : list pyval;             (* PodcastList.entries *)
  clock : str;                      (* datetime.utcnow().isoformat() *)
  write_fault : option nat          (* a write stops after n characters *)
}.

Definition set_podcast_list_file (f : option str) (st : State) : State :=
  mk_state f (current_state_file st) (database_file st) (entries st) (clock st) (write_fault st).
Definition set_current_state_file (f : option str) (st : State) : State :=
  mk_state (podcast_list_file st) f (database_file st) (entries st) (clock st) (write_fault st).
Definition set_entries (es : list pyval) (st : State) : State :=
  mk_state (podcast_list_file st) (current_state_file st) (database_file st) es (clock st) (write_fault st).

(** A method call: the state afterwards, also when it raised. *)
Definition M (A : Type) := State -> State * result A.

(** [json.load(f)] of a file's contents. *)
Definition decode_file (text : str) : result pyval :=
  match json_loads text with
  | JOk v => Ok v
  | JBad => Err JSONDecodeError
  | JOutside => Err OutsideModel
  end.

(** [json.dump(v, f, indent=2)] into a file just opened with ['w'] (and
    so truncated): the chunks are written in order, a write fault after
    [n] characters keeps those and raises [OSError], and a value that is
    not serializable raises [TypeError] after the text before it. *)
Definition dump_to_file (fault : option nat) (v : pyval) : str * result unit :=
  let (text, complete) := json_w 0 v in
  let outcome := if complete then Ok tt
                 else Err (TypeError (s_ "Object is not JSON serializable")) in
  match fault with
  | Some n => if (n <? List.length text)%nat then (firstn n text, Err OSError)
              else (text, outcome)
  | None => (text, outcome)
  end.

(** [l[i] = x]. *)
Fixpoint replace_nth {A} (i : nat) (x : A) (l : list A) : list A :=
  match l, i with
  | [], _ => []
  | _ :: r, O => x :: r
  | y :: r, S i' => y :: replace_nth i' x r
  end.

Fixpoint find_index {A} (p : A -> bool) (l : list A) : option nat :=
  match l with
  | [] => None
  | x :: r => if p x then Some O else option_map S (find_index p r)
  end.

(** [entry.episode_id == episode_id] *)
Definition has_episode_id (episode_id : str) (e : pyval) : bool :=
  match getattr e (s_ "episode_id") with
  | Some (PStr s) => str_eqb s episode_id
  | _ => false
  end.

(** [PodcastList._save]: [open(file_path, 'w')] truncates the file, the
    list comprehension calls [to_dict] on every entry, then [json.dump]
    writes. *)
Definition save_entries (cf : str -> option fields) : M unit := fun st =>
  match map_result (to_dict cf) (entries st) with
  | Err e => (set_podcast_list_file (Some []) st, Err e)
  | Ok docs =>
      let (written, r) := dump_to_file (write_fault st) (PList docs) in
      (set_podcast_list_file (Some written) st, r)
  end.

(** One element of the comprehension of [PodcastList._load]:
    [PodcastEntry( **{**entry, "interviewee": Interviewee( **entry["interviewee"])})]. *)
Definition load_entry (entry_fields interviewee_fields : fields) (entry : pyval) : result pyval :=
  kw <- as_mapping entry ;;
  iv <- getitem entry (s_ "interviewee") ;;
  ikw <- as_mapping iv ;;
  interviewee <- construct (s_ "Interviewee") interviewee_fields ikw ;;
  construct (s_ "PodcastEntry") entry_fields (dict_set kw (s_ "interviewee") interviewee).

(** [PodcastList.__init__]: [entries = []], then [_load]. *)
Definition init_entries (entry_fields interviewee_fields : fields) : M unit := fun st =>
  let st0 := set_entries [] st in
  match podcast_list_file st0 with
  | None => (st0, Ok tt)
  | Some text =>
      match (data <- decode_file text ;;
             items <- IDGen.iter_items data ;;
             map_result (load_entry entry_fields interviewee_fields) items) with
      | Ok es => (set_entries es st0, Ok tt)
      | Err e => (st0, Err e)
      end
  end.

End World.

(** ** The entry store of [lib/models/podcast.py] *)
Module Store.
Import PodcastIDM IDGen Dataclass World.

Definition Interviewee_fields : fields :=
  [(s_ "name", None); (s_ "profession", Some (PStr []));
   (s_ "organization", Some (PStr []))].

Definition PodcastEntry_fields : fields :=
  [(s_ "url", None); (s_ "platform", None); (s_ "title", None);
   (s_ "podcast_name", None); (s_ "interviewee", None);
   (s_ "episode_id", None); (s_ "date", None);
   (s_ "status", Some (PStr (s_ "pending")));
   (s_ "episodes_file", Some (PStr [])); (s_ "claims_file", Some (PStr []));
   (s_ "transcripts_file", Some (PStr [])); (s_ "webvtt_link", Some (PStr []));
   (s_ "process_command", Some (PStr [])); (s_ "added_at", Some (PStr []));
   (s_ "updated_at", Some (PStr []))].

Definition PodcastEntry_methods : list str :=
  [s_ "to_dict"; s_ "is_complete"; s_ "update_timestamp"].

Definition classes (cls : str) : option fields :=
  if str_eqb cls (s_ "Interviewee") then Some Interviewee_fields
  else if str_eqb cls (s_ "PodcastEntry") then Some PodcastEntry_fields
  else None.

(** [PodcastList()] *)
Definition PodcastList_init : M unit := init_entries PodcastEntry_fields Interviewee_fields.

(** [PodcastList._save] *)
Definition _save : M unit := save_entries classes.

(** [date.strftime('%Y-%m-%d')], the year padded to four digits. *)
Definition strftime_ymd (d : datetime) : str :=
  let y := dec_digits (year d) in
  repeat "0"%char (4 - List.length y) ++ y ++ "-"%char :: pad2 (month d)
  ++ "-"%char :: pad2 (day d).

Definition get_default (d : dict pyval) (k : str) (default : pyval) : pyval :=
  match dict_get d k with Some v => v | None => default end.

Section AddEntry.

(** [datetime.fromisoformat]; [None] is its [ValueError]. *)
Variable fromisoformat : str -> option datetime.

(** The body of [add_entry] up to the construction of the entry: the
    entry, or the exception raised before [self.entries.append].  The
    generator reads [Config.PODCAST_LIST], [podcasts_json]. *)
Definition new_entry (podcasts_json : option str) (current_time : str)
    (url platform : str) (metadata : dict pyval) (existing_id : pyval) : result pyval :=
  pa <- match dict_get metadata (s_ "published_at") with
        | Some v => Ok v
        | None => Err (ValueError (s_ "Missing required field: published_at"))
        end ;;
  s <- match pa with
       | PStr s => Ok s
       | _ => Err (AttributeError (s_ "object has no attribute 'replace'"))
       end ;;
  date <- match fromisoformat (str_replace (s_ "Z") (s_ "+00:00") s) with
          | Some d => Ok d
          | None => Err (ValueError (s_ "Invalid date format in published_at: " ++ s))
          end ;;
  let interviewee_data := get_default metadata (s_ "interviewee") (PDict []) in
  interviewee <- match interviewee_data with
                 | PStr n => construct (s_ "Interviewee") Interviewee_fields [(s_ "name", PStr n)]
                 | _ =>
                     nm <- py_get interviewee_data (s_ "name") (PStr (s_ "Unknown")) ;;
                     pr <- py_get interviewee_data (s_ "profession") (PStr []) ;;
                     org <- py_get interviewee_data (s_ "organization") (PStr []) ;;
                     construct (s_ "Interviewee") Interviewee_fields
                       [(s_ "name", nm); (s_ "profession", pr); (s_ "organization", org)]
                 end ;;
  let podcast_name := get_default metadata (s_ "podcast_name") (PStr (s_ "Unknown Podcast")) in
  episode_id <- if truthy existing_id then Ok existing_id
                else
                  id_generator <- IDGenerator_init podcasts_json ;;
                  match podcast_name, getattr interviewee (s_ "name") with
                  | PStr pn, Some (PStr nm) =>
                      Ok (PStr (base_id (snd (generate_id id_generator date pn nm platform))))
                  | _, _ => Err (AttributeError (s_ "object has no attribute 'lower'"))
                  end ;;
  construct (s_ "PodcastEntry") PodcastEntry_fields
    [(s_ "url", PStr url); (s_ "platform", PStr platform);
     (s_ "title", get_default metadata (s_ "title") (PStr (s_ "Untitled")));
     (s_ "podcast_name", podcast_name);
     (s_ "interviewee", interviewee); (s_ "episode_id", episode_id);
     (s_ "date", PStr (strftime_ymd date));
     (s_ "webvtt_link", get_default metadata (s_ "webvtt_link") (PStr []));
     (s_ "process_command",
        PStr (s_ "python main.py process-podcast --episode_id " ++ py_str episode_id));
     (s_ "added_at", PStr current_time); (s_ "updated_at", PStr current_time)].

(** [PodcastList.add_entry(url, platform, metadata, existing_id)]. *)
Definition add_entry (url platform : str) (metadata : dict pyval) (existing_id : pyval) : M pyval :=
  fun st =>
  match new_entry (podcast_list_file st) (clock st) url platform metadata existing_id with
  | Err e => (st, Err e)
  | Ok entry =>
      let (st', r) := _save (set_entries (entries st ++ [entry]) st) in
      (st', match r with Ok _ => Ok entry | Err e => Err e end)
  end.

End AddEntry.

(** [PodcastList.get_entry] *)
Definition get_entry (episode_id : str) (st : State) : option pyval :=
  match find_index (has_episode_id episode_id) (entries st) with
  | Some i => nth_error (entries st) i
  | None => None
  end.

(** One iteration of the [for] loop of [update_entry]:
    [if hasattr(entry, key): setattr(entry, key, value)]. *)
Definition update_step (methods : list str) (e : pyval) (kv : str * pyval) : result pyval :=
  b <- hasattr methods e (fst kv) ;;
  Ok (if b then setattr e (fst kv) (snd kv) else e).

(** The [for] loop of [update_entry] applied to one entry. *)
Definition apply_updates (methods : list str) (kwargs : dict pyval) (entry : pyval) : result pyval :=
  fold_result (update_step methods) kwargs entry.

(** [PodcastList.update_entry(episode_id, **kwargs)].  Keyword arguments
    named [self] or [episode_id] are bound twice by the call and raise
    [TypeError] before the body runs.  The entry object is the one in the
    list: it is updated in place.  A dunder keyword name leaves the model
    (the state returned with [OutsideModel] is not the program's). *)
Definition update_entry (episode_id : str) (kwargs : dict pyval) : M unit := fun st =>
  if has_key kwargs (s_ "self") || has_key kwargs (s_ "episode_id")
  then (st, Err (TypeError (s_ "got multiple values for argument")))
  else
  match find_index (has_episode_id episode_id) (entries st) with
  | None => (st, Err (ValueError (s_ "No entry found with episode_id: " ++ episode_id)))
  | Some i =>
      match apply_updates PodcastEntry_methods kwargs (nth i (entries st) PNone) with
      | Err e => (st, Err e)
      | Ok e1 =>
      match e1 with
      | PObj _ attrs =>
          if has_key attrs (s_ "update_timestamp")
          then (set_entries (replace_nth i e1 (entries st)) st,
                Err (TypeError (s_ "object is not callable")))
          else
            let e2 := setattr e1 (s_ "updated_at") (PStr (clock st)) in
            _save (set_entries (replace_nth i e2 (entries st)) st)
      | _ => (st, Err (AttributeError (s_ "update_timestamp")))
      end
      end
  end.

(** [save_state(episode_id, status, **kwargs)] writes
    [{"episode_id": episode_id, "status": status, **kwargs}] to
    [Config.CURRENT_STATE], opened with ['w']. *)
Definition save_state (episode_id status : str) (kwargs : dict pyval) : M unit := fun st =>
  if has_key kwargs (s_ "episode_id") || has_key kwargs (s_ "status")
  then (st, Err (TypeError (s_ "got multiple values for argument")))
  else
    let state := dict_update [(s_ "episode_id", PStr episode_id); (s_ "status", PStr status)] kwargs in
    let (written, r) := dump_to_file (write_fault st) (PDict state) in
    (set_current_state_file (Some written) st, r).

(** [get_state()] *)
Definition get_state (st : State) : result pyval :=
  match current_state_file st with
  | None => Ok (PDict [])
  | Some text => decode_file text
  end.

End Store.

(** ** The older entry store of [podcast_list.py]

    Its [PodcastEntry] stops at [transcripts_file] and has no
    [update_timestamp]; its [IDGenerator] ([id_generator.py]) counts the
    records of [Config.DATABASE]. *)
Module OldStore.
Import PodcastIDM IDGen Dataclass World.

Definition Interviewee_fields : fields := Store.Interviewee_fields.

Definition PodcastEntry_fields : fields :=
  [(s_ "url", None); (s_ "platform", None); (s_ "title", None);
   (s_ "podcast_name", None); (s_ "interviewee", None);
   (s_ "episode_id", None); (s_ "date", None);
   (s_ "status", Some (PStr (s_ "pending")));
   (s_ "episodes_file", Some (PStr [])); (s_ "claims_file", Some (PStr []));
   (s_ "transcripts_file", Some (PStr []))].

Definition PodcastEntry_methods : list str := [s_ "to_dict"; s_ "is_complete"].

Definition classes (cls : str) : option fields :=
  if str_eqb cls (s_ "Interviewee") then Some Interviewee_fields
  else if str_eqb cls (s_ "PodcastEntry") then Some PodcastEntry_fields
  else None.

Definition PodcastList_init : M unit := init_entries PodcastEntry_fields Interviewee_fields.

Definition _save : M unit := save_entries classes.

Fixpoint substr_in (k s : str) : bool :=
  is_prefix k s || match s with [] => false | _ :: r => substr_in k r end.

(** [k in v] *)
Definition py_in (k : str) (v : pyval) : result bool :=
  match v with
  | PDict kv => Ok (has_key kv k)
  | PList l => Ok (existsb (fun x => match x with PStr s => str_eqb s k | _ => false end) l)
  | PStr s => Ok (substr_in k s)
  | _ => Err (TypeError (s_ "argument is not iterable"))
  end.

(** One iteration of the loop of [IDGenerator._load_id_cache]. *)
Definition load_id_cache_step (cache : dict Z) (episode : pyval) : result (dict Z) :=
  a <- py_in (s_ "podcast_name") episode ;;
  b <- (if a then py_in (s_ "interviewee") episode else Ok false) ;;
  if b then
    pn <- getitem episode (s_ "podcast_name") ;;
    iv <- getitem episode (s_ "interviewee") ;;
    nm <- getitem iv (s_ "name") ;;
    let key := py_str pn ++ [underscore] ++ py_str nm in
    Ok (dict_set cache key (cache_get cache key + 1))
  else Ok cache.

(** [IDGenerator()] of [id_generator.py]: [database_json] is the content
    of [Config.DATABASE]. *)
Definition IDGenerator_init (database_json : option str) : result IDGenerator :=
  match database_json with
  | None => Ok (mk_gen [])
  | Some text =>
      episodes <- decode_file text ;;
      items <- iter_items episodes ;;
      cache <- fold_result load_id_cache_step items [] ;;
      Ok (mk_gen cache)
  end.

(** [all([...])] over the entry's file fields, as [is_complete]. *)
Definition files_present (e : pyval) : bool :=
  forallb (fun f => match getattr e f with Some v => truthy v | None => false end)
    [s_ "episodes_file"; s_ "claims_file"; s_ "transcripts_file"].

Section AddEntry.

(** [datetime.strptime(s, '%Y-%m-%d')]; [None] is its [ValueError]. *)
Variable strptime_ymd : str -> option datetime.

Definition new_entry (database_json : option str) (url platform : str)
    (metadata : dict pyval) : result pyval :=
  air_date <- getitem (PDict metadata) (s_ "air_date") ;;
  s <- match air_date with
       | PStr s => Ok s
       | _ => Err (AttributeError (s_ "object has no attribute 'split'"))
       end ;;
  date <- match strptime_ymd (hd [] (split_on "T"%char s)) with
          | Some d => Ok d
          | None => Err (ValueError (s_ "time data does not match format '%Y-%m-%d'"))
          end ;;
  iv <- getitem (PDict metadata) (s_ "interviewee") ;;
  nm <- getitem iv (s_ "name") ;;
  pr <- py_get iv (s_ "profession") (PStr []) ;;
  org <- py_get iv (s_ "organization") (PStr []) ;;
  interviewee <- construct (s_ "Interviewee") Interviewee_fields
                   [(s_ "name", nm); (s_ "profession", pr); (s_ "organization", org)] ;;
  id_generator <- IDGenerator_init database_json ;;
  podcast_name <- getitem (PDict metadata) (s_ "podcast_name") ;;
  episode_id <- match podcast_name, nm with
                | PStr pn, PStr n => Ok (base_id (snd (generate_id id_generator date pn n platform)))
                | _, _ => Err (AttributeError (s_ "object has no attribute 'lower'"))
                end ;;
  title <- getitem (PDict metadata) (s_ "title") ;;
  construct (s_ "PodcastEntry") PodcastEntry_fields
    [(s_ "url", PStr url); (s_ "platform", PStr platform); (s_ "title", title);
     (s_ "podcast_name", podcast_name); (s_ "interviewee", interviewee);
     (s_ "episode_id", PStr episode_id); (s_ "date", PStr (Store.strftime_ymd date))].

(** [entry.url == url] *)
Definition has_url (url : str) (e : pyval) : bool :=
  match getattr e (s_ "url") with Some (PStr u) => str_eqb u url | _ => false end.

(** [PodcastList.add_entry(url, platform, metadata)]. *)
Definition add_entry (url platform : str) (metadata : dict pyval) : M pyval := fun st =>
  if existsb (has_url url) (entries st)
  then (st, Err (ValueError (s_ "URL already exists in podcast list: " ++ url)))
  else
  match new_entry (database_file st) url platform metadata with
  | Err e => (st, Err e)
  | Ok entry =>
      let (st', r) := _save (set_entries (entries st ++ [entry]) st) in
      (st', match r with Ok _ => Ok entry | Err e => Err e end)
  end.

End AddEntry.

(** [PodcastList.update_entry(episode_id, **kwargs)]: returns the entry,
    or [None] when there is none.  As in [Store.update_entry], a dunder
    keyword name leaves the model. *)
Definition update_entry (episode_id : str) (kwargs : dict pyval) : M pyval := fun st =>
  if has_key kwargs (s_ "self") || has_key kwargs (s_ "episode_id")
  then (st, Err (TypeError (s_ "got multiple values for argument")))
  else
  match find_index (has_episode_id episode_id) (entries st) with
  | None => (st, Ok PNone)
  | Some i =>
      match Store.apply_updates PodcastEntry_methods kwargs (nth i (entries st) PNone) with
      | Err e => (st, Err e)
      | Ok e1 =>
      match e1 with
      | PObj _ attrs =>
          if has_key attrs (s_ "is_complete")
          then (set_entries (replace_nth i e1 (entries st)) st,
                Err (TypeError (s_ "object is not callable")))
          else
            let e2 := if files_present e1 then setattr e1 (s_ "status") (PStr (s_ "complete")) else e1 in
            let (st', r) := _save (set_entries (replace_nth i e2 (entries st)) st) in
            (st', match r with Ok _ => Ok e2 | Err e => Err e end)
      | _ => (st, Err (AttributeError (s_ "is_complete")))
      end
      end
  end.

End OldStore.

(** ** Concrete inputs of the examples *)
Module Examples.
Import PodcastIDM World.

(** [datetime.fromisoformat(s)] and [datetime.strptime(s, '%Y-%m-%d')]
    on strings of the form [YYYY-MM-DD]: both give midnight of that day
    when it exists.  This parser accepts exactly those strings. *)
Definition parse_ymd (s : str) : option datetime :=
  match s with
  | [y1; y2; y3; y4; h1; m1; m2; h2; d1; d2] =>
      if forallb is_digit [y1; y2; y3; y4; m1; m2; d1; d2]
         && Ascii.eqb h1 "-"%char && Ascii.eqb h2 "-"%char then
        let y := 100 * two_digits y1 y2 + two_digits y3 y4 in
        let m := two_digits m1 m2 in
        let d := two_digits d1 d2 in
        if (1 <=? y) && (1 <=? m) && (m <=? 12) && (1 <=? d) && (d <=? days_in_month y m)
        then Some (mk_datetime y m d 0 0 0 0) else None
      else None
  | _ => None
  end.

Definition danny_date : datetime := mk_datetime 2024 9 24 0 0 0 0.

Definition danny_url : str := s_ "https://www.youtube.com/watch?v=jk01".

(** Metadata as the YouTube fetcher hands it to [add_entry]. *)
Definition danny_metadata : dict pyval :=
  [(s_ "published_at", PStr (s_ "2024-09-24"));
   (s_ "title", PStr (s_ "Jack Kruse on light"));
   (s_ "podcast_name", PStr (s_ "Danny Jones"));
   (s_ "interviewee", PDict [(s_ "name", PStr (s_ "Jack Kruse"))])].

(** Metadata in the shape the older store reads. *)
Definition danny_metadata_old : dict pyval :=
  [(s_ "air_date", PStr (s_ "2024-09-24T00:00:00Z"));
   (s_ "title", PStr (s_ "Jack Kruse on light"));
   (s_ "podcast_name", PStr (s_ "Danny Jones"));
   (s_ "interviewee", PDict [(s_ "name", PStr (s_ "Jack Kruse"))])].

(** No files yet, an empty list in memory. *)
Definition empty_store : State :=
  mk_state None None None [] (s_ "2024-10-01T12:00:00") None.

(** Adding the episode to the current store. *)
Definition first_add_run : State * result pyval :=
  Store.add_entry parse_ymd danny_url (s_ "youtube") danny_metadata PNone empty_store.

Definition one_entry_store : State := fst first_add_run.

Definition danny_entry : pyval :=
  match snd first_add_run with Ok e => e | Err _ => PNone end.

(** The same episode added a second time, with no [existing_id]. *)
Definition two_entry_run : State * result pyval :=
  Store.add_entry parse_ymd danny_url (s_ "youtube") danny_metadata PNone one_entry_store.

(** The older store after adding the episode once. *)
Definition old_one_entry_store : State :=
  fst (OldStore.add_entry parse_ymd danny_url (s_ "youtube") danny_metadata_old empty_store).

(** The file holds the one-entry store, memory holds two entries, and the
    write stops after 100 characters. *)
Definition faulty_save_store : State :=
  mk_state (podcast_list_file one_entry_store) None None (entries (fst two_entry_run))
    (s_ "2024-10-01T12:00:00") (Some 100%nat).

(** The database file cut after its first 100 characters. *)
Definition truncated_store : State :=
  mk_state (option_map (firstn 100) (podcast_list_file one_entry_store)) None None []
    (s_ "2024-10-01T12:00:00") None.

(** A later moment, for updates. *)
Definition later_store : State :=
  mk_state (podcast_list_file one_entry_store) None None (entries one_entry_store)
    (s_ "2024-10-02T08:00:00") None.

(** What [to_dict] makes of the entries of [faulty_save_store]. *)
Definition faulty_docs : list pyval :=
  match Dataclass.map_result (Dataclass.to_dict Store.classes) (entries faulty_save_store) with
  | Ok d => d
  | Err _ => []
  end.

(** A state file left by an earlier failure, with an [error] key. *)
Definition errored_state_store : State :=
  mk_state None (Some (s_ "{" ++ json_str (s_ "episode_id") ++ s_ ": " ++ json_str (s_ "x") ++ s_ ", "
                       ++ json_str (s_ "error") ++ s_ ": " ++ json_str (s_ "boom") ++ s_ "}"))
    None [] (s_ "2024-10-01T12:00:00") None.

Definition danny_id : str := s_ "24_09_24_danny_jones_jack_kruse_youtube_01".

(** [update_entry(danny_id, status="error", bogus=1)]. *)
Definition update_kwargs : dict pyval :=
  [(s_ "status", PStr (s_ "error")); (s_ "bogus", PInt 1)].

(** [update_entry(danny_id, episodes_file=..., claims_file=..., transcripts_file=...)]. *)
Definition files_kwargs : dict pyval :=
  [(s_ "episodes_file", PStr (s_ "e.md")); (s_ "claims_file", PStr (s_ "c.md"));
   (s_ "transcripts_file", PStr (s_ "t.md"))].

(** [update_entry(danny_id, status="error", episodes_file=..., claims_file=...,
    transcripts_file=...)]. *)
Definition promote_kwargs : dict pyval :=
  [(s_ "status", PStr (s_ "error")); (s_ "episodes_file", PStr (s_ "e.md"));
   (s_ "claims_file", PStr (s_ "c.md")); (s_ "transcripts_file", PStr (s_ "t.md"))].

End Examples.


(** ** What one iteration of each generator's cache loop reads *)
Module CacheKeys.
Import IDGen.

(** The key and counter one iteration of [_load_cache] reads from an
    entry, or the exception it raises. *)
Definition entry_count (entry : pyval) : result (str * Z) :=
  pn <- getitem entry (s_ "podcast_name") ;;
  iv <- getitem entry (s_ "interviewee") ;;
  nm <- getitem iv (s_ "name") ;;
  eid <- getitem entry (s_ "episode_id") ;;
  match eid with
  | PStr e =>
      match py_int (str_replace (s_ "youtube_") [] (str_replace (s_ "vimeo_") []
                      (last (split_on underscore e) []))) with
      | Some count => Ok (py_str pn ++ [underscore] ++ py_str nm, count)
      | None => Err (ValueError (s_ "invalid literal for int() with base 10"))
      end
  | _ => Err (AttributeError (s_ "object has no attribute 'split'"))
  end.

Definition counts_for (key : str) (kcs : list (str * Z)) : list Z :=
  map snd (filter (fun kc => str_eqb (fst kc) key) kcs).

(** Whether one iteration of the older [_load_id_cache] counts an
    episode, and under which key, or the exception it raises. *)
Definition old_episode_key (episode : pyval) : result (option str) :=
  a <- OldStore.py_in (s_ "podcast_name") episode ;;
  b <- (if a then OldStore.py_in (s_ "interviewee") episode else Ok false) ;;
  if b then
    pn <- getitem episode (s_ "podcast_name") ;;
    iv <- getitem episode (s_ "interviewee") ;;
    nm <- getitem iv (s_ "name") ;;
    Ok (Some (py_str pn ++ [underscore] ++ py_str nm))
  else Ok None.

Definition key_count (key : str) (keys : list (option str)) : Z :=
  Z.of_nat (List.length (filter (fun ko => match ko with Some k => str_eqb k key | None => false end) keys)).

End CacheKeys.

(** ** More concrete inputs *)
Module MoreExamples.
Import PodcastIDM IDGen World Examples.

(** The file the one-entry store holds, its items and the generator
    loaded from it. *)
Definition one_entry_text : str :=
  match podcast_list_file one_entry_store with Some t => t | None => [] end.
Definition one_entry_items : list pyval :=
  match json_loads one_entry_text with JOk (PList l) => l | _ => [] end.
Definition one_entry_gen : IDGenerator :=
  match IDGenerator_init (Some one_entry_text) with Ok g => g | Err _ => mk_gen [] end.

(** A [Config.DATABASE] with the Danny Jones episode. *)
Definition danny_record : pyval :=
  PDict [(s_ "podcast_name", PStr (s_ "Danny Jones"));
         (s_ "interviewee", PDict [(s_ "name", PStr (s_ "Jack Kruse"))]);
         (s_ "episode_id", PStr danny_id)].
Definition danny_database : str :=
  match json_dumps (PList [danny_record]) with Some t => t | None => [] end.
Definition danny_database_gen : IDGenerator :=
  match OldStore.IDGenerator_init (Some danny_database) with Ok g => g | Err _ => mk_gen [] end.

(** Two episodes of the same interview added to the older store. *)
Definition other_url : str := s_ "https://www.youtube.com/watch?v=jk02".
Definition old_first_run : State * result pyval :=
  OldStore.add_entry parse_ymd danny_url (s_ "youtube") danny_metadata_old empty_store.
Definition old_second_run : State * result pyval :=
  OldStore.add_entry parse_ymd other_url (s_ "youtube") danny_metadata_old (fst old_first_run).

Definition result_value (r : result pyval) : pyval := match r with Ok v => v | Err _ => PNone end.

End MoreExamples.

(** ** [cmd_add_podcast] of [lib/commands.py] *)
Module Commands.
Import PodcastIDM Dataclass World.

(** [obj.name] *)
Definition attr (v : pyval) (name : str) : result pyval :=
  match getattr v name with Some x => Ok x | None => Err (AttributeError name) end.

(** [list.remove(x)] where [x] is the element at index [i] and no
    earlier element compares equal to it. *)
Fixpoint remove_nth {A} (i : nat) (l : list A) : list A :=
  match l, i with
  | [], _ => []
  | _ :: r, O => r
  | y :: r, S i' => y :: remove_nth i' r
  end.

(** The attributes read by the [print] calls for an entry found by URL. *)
Definition show_existing (e : pyval) : result unit :=
  _ <- attr e (s_ "episode_id") ;;
  _ <- attr e (s_ "title") ;;
  _ <- attr e (s_ "podcast_name") ;;
  iv <- attr e (s_ "interviewee") ;;
  _ <- attr iv (s_ "name") ;;
  _ <- attr e (s_ "status") ;;
  _ <- attr e (s_ "process_command") ;;
  Ok tt.

(** The attributes read by the [print] calls for the added entry. *)
Definition show_added (e : pyval) : result unit :=
  _ <- attr e (s_ "episode_id") ;;
  _ <- attr e (s_ "title") ;;
  _ <- attr e (s_ "podcast_name") ;;
  iv <- attr e (s_ "interviewee") ;;
  _ <- attr iv (s_ "name") ;;
  _ <- attr e (s_ "process_command") ;;
  Ok tt.

Section AddPodcast.

(** [datetime.fromisoformat], as for [add_entry]. *)
Variable fromisoformat : str -> option datetime.
(** The line read by [input(...)]. *)
Variable answer : str.
(** [YouTubeFetcher(api_key=...).get_video_data(url)] and
    [create_episode_metadata(..., get_vimeo_data_headless(url))]: network
    fetches, which raise or return the metadata dict. *)
Variable youtube_metadata : str -> result (dict pyval).
Variable vimeo_metadata : str -> result (dict pyval).

(** The part of [cmd_add_podcast] after the lookup: fetch the metadata,
    then [podcast_list.add_entry(url, platform, metadata, existing_id)]
    and print the new entry. *)
Definition fetch_and_add (url platform : str) (existing_id : pyval) : M unit := fun st =>
  let metadata :=
    if str_eqb platform (s_ "youtube") then youtube_metadata url
    else if str_eqb platform (s_ "vimeo") then vimeo_metadata url
    else Err (ValueError (s_ "Unsupported platform: " ++ platform)) in
  match metadata with
  | Err e => (st, Err e)
  | Ok md =>
      let (st', r) := Store.add_entry fromisoformat url platform md existing_id st in
      match r with
      | Err e => (st', Err e)
      | Ok entry => (st', show_added entry)
      end
  end.

(** [cmd_add_podcast(url, platform)]: the state is that of the
    [PodcastList()] it creates; exceptions are logged and re-raised. *)
Definition cmd_add_podcast (url platform : str) : M unit := fun st =>
  let (st1, r1) := Store.PodcastList_init st in
  match r1 with
  | Err e => (st1, Err e)
  | Ok _ =>
      let found := find_index (OldStore.has_url url) (entries st1) in
      let existing_entry := match found with
                            | Some i => nth i (entries st1) PNone
                            | None => PNone
                            end in
      if truthy existing_entry then
        match show_existing existing_entry with
        | Err e => (st1, Err e)
        | Ok _ =>
            if negb (str_eqb (lower answer) (s_ "y")) then (st1, Ok tt)
            else
              match attr existing_entry (s_ "episode_id") with
              | Err e => (st1, Err e)
              | Ok existing_id =>
                  let i := match found with Some i => i | None => O end in
                  fetch_and_add url platform existing_id
                    (set_entries (remove_nth i (entries st1)) st1)
              end
        end
      else fetch_and_add url platform PNone st1
  end.

End AddPodcast.

End Commands.

(** Inputs for [cmd_add_podcast]. *)
Module CommandExamples.
Import PodcastIDM World Examples MoreExamples Commands.

(** The YouTube fetch returns [danny_metadata]; the Vimeo fetch fails. *)
Definition youtube_danny (url : str) : result (dict pyval) := Ok danny_metadata.
Definition vimeo_down (url : str) : result (dict pyval) :=
  Err (ValueError (s_ "Failed to get video metadata")).

(** [PodcastList()] on [later_store]. *)
Definition loaded_later : State := fst (Store.PodcastList_init later_store).

(** Adding [danny_url] again and answering [Y]. *)
Definition overwrite_run : State * result unit :=
  cmd_add_podcast parse_ymd (s_ "Y") youtube_danny vimeo_down danny_url (s_ "youtube") later_store.

(** Adding a URL the list does not have. *)
Definition new_url_run : State * result unit :=
  cmd_add_podcast parse_ymd (s_ "n") youtube_danny vimeo_down other_url (s_ "youtube") later_store.

End CommandExamples.

(** ** The command-line script [main.py]

    Files are a map from path to contents; directories ([mkdir] with
    [exist_ok=True]) are not modelled.  [Config] is the class of the
    top-level [config.py], which [main.py] imports. *)
Module MainPy.
Import Dataclass World IDGen.

Record FS : Type := mk_fs {
  files : dict str;          (* path -> contents *)
  fs_fault : option nat      (* a write stops after n characters *)
}.

(** A function of the script: the files afterwards, also when it raised. *)
Definition MM (A : Type) := FS -> FS * result A.

(** [os.path.exists(p)] *)
Definition path_exists (p : str) (fs : FS) : bool := has_key (files fs) p.

(** [json.load(open(p))] *)
Definition read_json (p : str) (fs : FS) : result pyval :=
  match dict_get (files fs) p with
  | Some text => decode_file text
  | None => Err OSError
  end.

(** [with open(p, 'w') as f: json.dump(v, f, indent=2)] *)
Definition write_json (p : str) (v : pyval) : MM unit := fun fs =>
  let (text, r) := dump_to_file (fs_fault fs) v in
  (mk_fs (dict_set (files fs) p text) (fs_fault fs), r).

(** [with open(p, 'w') as f: f.write(text)] *)
Definition write_text (p text : str) : MM unit := fun fs =>
  match fs_fault fs with
  | Some n => if (n <? List.length text)%nat
              then (mk_fs (dict_set (files fs) p (firstn n text)) (fs_fault fs), Err OSError)
              else (mk_fs (dict_set (files fs) p text) (fs_fault fs), Ok tt)
  | None => (mk_fs (dict_set (files fs) p text) (fs_fault fs), Ok tt)
  end.

(** [v == s] for a string literal [s]. *)
Definition eq_str (v : pyval) (s : str) : bool :=
  match v with PStr t => str_eqb t s | _ => false end.

(** [v[k] = x] with a string key. *)
Definition setitem (v : pyval) (k : str) (x : pyval) : result pyval :=
  match v with
  | PDict kv => Ok (PDict (dict_set kv k x))
  | PList _ => Err (TypeError (s_ "list indices must be integers or slices, not str"))
  | _ => Err (TypeError (s_ "object does not support item assignment"))
  end.

(** [v[0]] on a value whose truth value is true. *)
Definition index0 (v : pyval) : result pyval :=
  match v with
  | PList (x :: _) => Ok x
  | PStr (c :: _) => Ok (PStr [c])
  | PDict _ => Err (KeyError (s_ "0"))
  | _ => Err (TypeError (s_ "object is not subscriptable"))
  end.

(** [str.split(sep)] with a non-empty separator. *)
Fixpoint split_fuel (fuel : nat) (sep s cur : str) : list str :=
  match fuel with
  | O => [cur ++ s]
  | S f =>
      match s with
      | [] => [cur]
      | c :: r =>
          if is_prefix sep s then cur :: split_fuel f sep (skipn (List.length sep) s) []
          else split_fuel f sep r (cur ++ [c])
      end
  end.

Definition str_split (sep s : str) : list str := split_fuel (S (List.length s)) sep s [].

(** [v.split]: only strings have it. *)
Definition as_str (v : pyval) : result str :=
  match v with
  | PStr s => Ok s
  | _ => Err (AttributeError (s_ "split"))
  end.

(** [p / name] *)
Definition slash (p name : str) : str := p ++ "/"%char :: name.

Definition config_missing (name : str) : str :=
  s_ "type object 'Config' has no attribute '" ++ name ++ s_ "'".

Section Paths.

(** [Path(__file__).parent] of [config.py] and of [main.py], which lie
    in the same directory; [BASE_DIR.parent]; the [OBSIDIAN_VAULT_PATH]
    setting. *)
Variable base_dir project_root obsidian_vault : str.

(** The class attributes of [Config] that are paths. *)
Definition Config_paths : dict str :=
  let data_dir := slash base_dir (s_ "Podcast Data") in
  let vimeo_dir := slash data_dir (s_ "vimeo") in
  let youtube_dir := slash data_dir (s_ "youtube") in
  [(s_ "BASE_DIR", base_dir); (s_ "PROJECT_ROOT", project_root);
   (s_ "OBSIDIAN_VAULT", obsidian_vault);
   (s_ "PODCAST_LIST", slash base_dir (s_ "podcasts.json"));
   (s_ "DATA_DIR", data_dir); (s_ "VIMEO_DIR", vimeo_dir); (s_ "YOUTUBE_DIR", youtube_dir);
   (s_ "EPISODES_DIR", slash data_dir (s_ "Episodes"));
   (s_ "CLAIMS_DIR", slash data_dir (s_ "Claims"));
   (s_ "TRANSCRIPTS_DIR", slash data_dir (s_ "Transcripts"));
   (s_ "VIMEO_TRANSCRIPTS", slash vimeo_dir (s_ "transcripts"));
   (s_ "YOUTUBE_TRANSCRIPTS", slash youtube_dir (s_ "transcripts"));
   (s_ "CURRENT_STATE", slash data_dir (s_ ".current_episode.json"));
   (s_ "DATABASE", slash data_dir (s_ "podcast_data.json"))].

(** [Config.name] for a path attribute; the class methods are not paths,
    and any other name raises [AttributeError]. *)
Definition Config_attr (name : str) : result str :=
  match dict_get Config_paths name with
  | Some p => Ok p
  | None =>
      if existsb (str_eqb name) [s_ "ensure_dirs"; s_ "get_transcript_dir"; s_ "migrate_to_obsidian"]
      then Err OutsideModel
      else Err (AttributeError (config_missing name))
  end.

(** The module constants of [main.py]. *)
Definition PODCAST_DATA : str := slash base_dir (s_ "Podcast Data").
Definition TRANSCRIPTS_DIR : str := slash PODCAST_DATA (s_ "transcripts").
Definition DEFAULT_DB_FILE : str := slash PODCAST_DATA (s_ "podcast_data.json").

Definition EPISODE_SCHEMA : dict pyval :=
  [(s_ "episode_id", PStr []); (s_ "title", PStr []); (s_ "share_url", PStr []);
   (s_ "podcast_name", PStr []);
   (s_ "interviewee", PDict [(s_ "name", PStr (s_ "<MANUAL>"));
                             (s_ "profession", PStr (s_ "<MANUAL>"));
                             (s_ "organization", PStr (s_ "<MANUAL>"))]);
   (s_ "air_date", PStr []); (s_ "summary", PStr (s_ "<MANUAL>"));
   (s_ "claims", PList []); (s_ "related_topics", PList []); (s_ "tags", PList []);
   (s_ "webvtt_link", PStr []); (s_ "transcript_file", PStr [])].

(** [get_state_file(platform_type)] *)
Definition get_state_file (platform_type : pyval) (fs : FS) : result str :=
  if eq_str platform_type (s_ "youtube") then Config_attr (s_ "YOUTUBE_STATE")
  else if eq_str platform_type (s_ "vimeo") then Config_attr (s_ "VIMEO_STATE")
  else
    y <- Config_attr (s_ "YOUTUBE_STATE") ;;
    if path_exists y fs then Config_attr (s_ "YOUTUBE_STATE")
    else
      v <- Config_attr (s_ "VIMEO_STATE") ;;
      if path_exists v fs then Config_attr (s_ "VIMEO_STATE")
      else Config_attr (s_ "YOUTUBE_STATE").

(** [save_state(platform_type, episode_id, transcript_file, metadata)] *)
Definition save_state (platform_type episode_id transcript_file metadata : pyval) : MM unit :=
  fun fs =>
  match
    state_file <- get_state_file platform_type fs ;;
    state <- (if path_exists state_file fs then read_json state_file fs else Ok (PDict [])) ;;
    s1 <- (if truthy episode_id then setitem state (s_ "episode_id") episode_id else Ok state) ;;
    s2 <- (if truthy transcript_file then setitem s1 (s_ "transcript_file") transcript_file
           else Ok s1) ;;
    s3 <- (if truthy metadata then setitem s2 (s_ "metadata") metadata else Ok s2) ;;
    Ok (state_file, s3)
  with
  | Err e => (fs, Err e)
  | Ok (p, state) => write_json p state fs
  end.

(** [get_state(platform_type)] *)
Definition get_state (platform_type : pyval) (fs : FS) : result pyval :=
  state_file <- get_state_file platform_type fs ;;
  if path_exists state_file fs then read_json state_file fs else Ok (PDict []).

(** The [for] loop of [save_to_database] up to its [break]: the index of
    the first episode whose [episode_id] equals the string [eid]. *)
Fixpoint find_episode (eid : str) (eps : list pyval) (i : nat) : result (option nat) :=
  match eps with
  | [] => Ok None
  | ep :: r =>
      x <- getitem ep (s_ "episode_id") ;;
      if eq_str x eid then Ok (Some i) else find_episode eid r (S i)
  end.

(** [save_to_database(metadata, db_file)].  An [episode_id] that is not
    a string is outside the model (its [==] is not modelled).  When the
    loop breaks at [i], the episodes are a list and [episodes[i]] and
    [metadata] are dicts, as [getitem] succeeded on them. *)
Definition save_to_database (metadata : pyval) (db_file : str) : MM unit := fun fs =>
  match
    episodes <- (if path_exists db_file fs then read_json db_file fs else Ok (PList [])) ;;
    episode_id <- getitem metadata (s_ "episode_id") ;;
    eid <- (match episode_id with PStr s => Ok s | _ => Err OutsideModel end) ;;
    items <- iter_items episodes ;;
    found <- find_episode eid items 0 ;;
    match found, episodes with
    | Some i, PList l =>
        match nth i l PNone, metadata with
        | PDict kv, PDict md => Ok (PList (replace_nth i (PDict (dict_update kv md)) l))
        | _, _ => Err OutsideModel
        end
    | Some _, _ => Err OutsideModel
    | None, PList l => Ok (PList (l ++ [metadata]))
    | None, _ => Err (AttributeError (s_ "append"))
    end
  with
  | Err e => (fs, Err e)
  | Ok episodes => write_json db_file episodes fs
  end.

(** [next((x for x in ld_json_list if x.get("@type") == "VideoObject"), {})] *)
Fixpoint first_video_object (xs : list pyval) : result pyval :=
  match xs with
  | [] => Ok (PDict [])
  | x :: r =>
      t <- py_get x (s_ "@type") PNone ;;
      if eq_str t (s_ "VideoObject") then Ok x else first_video_object r
  end.

(** [create_episode_metadata(video_id, vimeo_data)] *)
Definition create_episode_metadata (video_id vimeo_data : pyval) : result pyval :=
  player_data <- getitem vimeo_data (s_ "playerConfig") ;;
  ld_json_list <- getitem vimeo_data (s_ "ld_json") ;;
  lds <- iter_items ld_json_list ;;
  ld_video <- first_video_object lds ;;
  title <- (pv <- py_get player_data (s_ "video") (PDict []) ;;
            t <- py_get pv (s_ "title") (PStr []) ;;
            py_get ld_video (s_ "name") t) ;;
  share_url <- (pv <- py_get player_data (s_ "video") (PDict []) ;;
                py_get pv (s_ "share_url") (PStr [])) ;;
  podcast_name <- (pv <- py_get player_data (s_ "video") (PDict []) ;;
                   ow <- py_get pv (s_ "owner") (PDict []) ;;
                   py_get ow (s_ "name") (PStr (s_ "<MANUAL>"))) ;;
  air_date <- py_get ld_video (s_ "uploadDate") (PStr []) ;;
  let metadata := dict_update EPISODE_SCHEMA
        [(s_ "episode_id", PStr (py_str video_id)); (s_ "title", title);
         (s_ "share_url", share_url); (s_ "podcast_name", podcast_name);
         (s_ "air_date", air_date)] in
  rq <- py_get player_data (s_ "request") (PDict []) ;;
  text_tracks <- py_get rq (s_ "text_tracks") (PList []) ;;
  if truthy text_tracks then
    t0 <- index0 text_tracks ;;
    url <- py_get t0 (s_ "url") (PStr []) ;;
    has_tt <- OldStore.py_in (s_ "/texttrack/") url ;;
    if has_tt then
      s <- as_str url ;;
      (* the test above gives [split] at least two parts *)
      let texttrack_id := hd [] (str_split (s_ ".") (nth 1 (str_split (s_ "/texttrack/") s) [])) in
      let token := if OldStore.substr_in (s_ "token=") s
                   then PStr (nth 1 (str_split (s_ "token=") s) []) else PNone in
      Ok (PDict (dict_set
        (dict_set metadata (s_ "webvtt_link")
           (PStr (s_ "https://player.vimeo.com/texttrack/" ++ texttrack_id ++ s_ ".vtt?token="
                  ++ py_str token)))
        (s_ "transcript_info") (PDict [(s_ "texttrack_id", PStr texttrack_id); (s_ "token", token)])))
    else Ok (PDict metadata)
  else Ok (PDict metadata).

(** [except Exception as e: print(...)]: every modelled exception is
    caught; a step outside the model stays so. *)
Definition catch_all (r : result unit) : result unit :=
  match r with Err OutsideModel => Err OutsideModel | _ => Ok tt end.

(** The [print] calls after a successful parse: they read these keys. *)
Definition show_metadata (md : pyval) : result unit :=
  _ <- getitem md (s_ "episode_id") ;;
  _ <- getitem md (s_ "title") ;;
  _ <- getitem md (s_ "podcast_name") ;;
  ti <- py_get md (s_ "transcript_info") PNone ;;
  if truthy ti then
    _ <- getitem ti (s_ "texttrack_id") ;; _ <- getitem ti (s_ "token") ;; Ok tt
  else Ok tt.

Section Commands.

(** [get_vimeo_data_headless(url)]: a page fetch, which writes no file. *)
Variable get_vimeo_data_headless : str -> result pyval.
(** [YouTubeFetcher(Config.YOUTUBE_TRANSCRIPTS, api_key=...).get_video_data(url)],
    which may save a transcript file. *)
Variable youtube_get_video_data : str -> MM pyval.
(** [download_vtt_file(link, path)] of [transcript_utils.py]. *)
Variable download_vtt_file : str -> str -> MM unit.
(** [generate_prompt(episode_id, transcript_file, json_file)], which reads files. *)
Variable generate_prompt : pyval -> str -> str -> FS -> result str.

(** [cmd_parse_episode(args)] with [args.vimeo_url]. *)
Definition cmd_parse_episode (vimeo_url : str) : MM unit := fun fs =>
  let (fs', r) :=
    match (data <- get_vimeo_data_headless vimeo_url ;;
           pc <- getitem data (s_ "playerConfig") ;;
           v <- py_get pc (s_ "video") (PDict []) ;;
           vid <- py_get v (s_ "id") (PStr (s_ "unknown")) ;;
           md <- create_episode_metadata (PStr (py_str vid)) data ;;
           md' <- setitem md (s_ "platform_type") (PStr (s_ "vimeo")) ;;
           Ok (py_str vid, md')) with
    | Err e => (fs, Err e)
    | Ok (video_id, metadata) =>
        let (fs1, r1) := save_state (PStr (s_ "vimeo")) (PStr video_id) PNone metadata fs in
        match r1 with
        | Err e => (fs1, Err e)
        | Ok _ =>
            let (fs2, r2) := save_to_database metadata DEFAULT_DB_FILE fs1 in
            match r2 with
            | Err e => (fs2, Err e)
            | Ok _ => (fs2, show_metadata metadata)
            end
        end
    end in
  (fs', catch_all r).

(** [cmd_parse_youtube(args)] with [args.url].  The [raise Exception]
    for empty metadata is caught by the [except] of the same function. *)
Definition cmd_parse_youtube (url : str) : MM unit := fun fs =>
  let (fs', r) :=
    let (fs0, r0) := youtube_get_video_data url fs in
    match r0 with
    | Err e => (fs0, Err e)
    | Ok metadata =>
        if negb (truthy metadata) then (fs0, Ok tt)
        else
          match getitem metadata (s_ "episode_id") with
          | Err e => (fs0, Err e)
          | Ok eid =>
              let (fs1, r1) := save_state (PStr (s_ "youtube")) eid PNone metadata fs0 in
              match r1 with
              | Err e => (fs1, Err e)
              | Ok _ =>
                  let (fs2, r2) := save_to_database metadata DEFAULT_DB_FILE fs1 in
                  match r2 with
                  | Err e => (fs2, Err e)
                  | Ok _ =>
                      (fs2, (_ <- getitem metadata (s_ "episode_id") ;;
                             _ <- py_get metadata (s_ "title") (PStr (s_ "Unknown")) ;;
                             _ <- py_get metadata (s_ "podcast_name") (PStr (s_ "Unknown")) ;;
                             tf <- py_get metadata (s_ "transcript_file") PNone ;;
                             if truthy tf then _ <- getitem metadata (s_ "transcript_file") ;; Ok tt
                             else Ok tt))
                  end
              end
          end
    end in
  (fs', catch_all r).

(** [cmd_get_transcript(args)] with [args.episode_id]; [get_state()] and
    the reads of the state are outside the [try]. *)
Definition cmd_get_transcript (arg_episode_id : pyval) : MM unit := fun fs =>
  match (state <- get_state PNone fs ;;
         episode_id <- (if truthy arg_episode_id then Ok arg_episode_id
                        else py_get state (s_ "episode_id") PNone) ;;
         if negb (truthy episode_id) then Ok None
         else
           metadata <- py_get state (s_ "metadata") (PDict []) ;;
           transcript_info <- py_get metadata (s_ "transcript_info") PNone ;;
           if negb (truthy transcript_info) then Ok None
           else Ok (Some (episode_id, transcript_info))) with
  | Err e => (fs, Err e)
  | Ok None => (fs, Ok tt)
  | Ok (Some (episode_id, transcript_info)) =>
      let out_path := slash TRANSCRIPTS_DIR (py_str episode_id ++ s_ "_transcript.vtt") in
      let (fs', r) :=
        match (tt_id <- getitem transcript_info (s_ "texttrack_id") ;;
               token <- getitem transcript_info (s_ "token") ;;
               Ok (s_ "https://player.vimeo.com/texttrack/" ++ py_str tt_id ++ s_ ".vtt?token="
                   ++ py_str token)) with
        | Err e => (fs, Err e)
        | Ok webvtt_link =>
            let (fs1, r1) := download_vtt_file webvtt_link out_path fs in
            match r1 with
            | Err e => (fs1, Err e)
            | Ok _ => save_state PNone PNone (PStr out_path) PNone fs1
            end
        end in
      (fs', catch_all r)
  end.

(** [get_transcript_path(episode_id, platform_type)] *)
Definition get_transcript_path (episode_id : str) (platform_type : pyval) : result str :=
  d <- Config_attr (if eq_str platform_type (s_ "youtube") then s_ "YOUTUBE_TRANSCRIPTS"
                    else s_ "VIMEO_TRANSCRIPTS") ;;
  Ok (slash d (episode_id ++ s_ "_transcript.vtt")).

(** [get_prompt_file(platform_type)] *)
Definition get_prompt_file (platform_type : pyval) : result str :=
  d <- Config_attr (if eq_str platform_type (s_ "youtube") then s_ "YOUTUBE_DIR"
                    else s_ "VIMEO_DIR") ;;
  Ok (slash d (s_ "current_episode_prompt.txt")).

(** [cmd_generate_prompt(args)] with [args.episode_id],
    [args.transcript_file] and [args.json_file]. *)
Definition cmd_generate_prompt (arg_episode_id arg_transcript_file arg_json_file : pyval) : MM unit :=
  fun fs =>
  match (state <- get_state PNone fs ;;
         episode_id <- (if truthy arg_episode_id then Ok arg_episode_id
                        else py_get state (s_ "episode_id") PNone) ;;
         md <- py_get state (s_ "metadata") (PDict []) ;;
         platform_type <- py_get md (s_ "platform_type") PNone ;;
         json_file <- (if truthy arg_json_file then Ok arg_json_file
                       else p <- Config_attr (s_ "DATABASE") ;; Ok (PStr p)) ;;
         if negb (truthy episode_id) then Ok None
         else
           transcript_file <- (if truthy arg_transcript_file then Ok (py_str arg_transcript_file)
                               else get_transcript_path (py_str episode_id) platform_type) ;;
           if negb (path_exists transcript_file fs) then
             _ <- Config_attr (s_ "YOUTUBE_TRANSCRIPTS") ;; _ <- Config_attr (s_ "VIMEO_TRANSCRIPTS") ;;
             Ok None
           else Ok (Some (episode_id, transcript_file, json_file, platform_type))) with
  | Err e => (fs, Err e)
  | Ok None => (fs, Ok tt)
  | Ok (Some (episode_id, transcript_file, json_file, platform_type)) =>
      let (fs', r) :=
        match generate_prompt episode_id transcript_file (py_str json_file) fs with
        | Err e => (fs, Err e)
        | Ok prompt =>
            match get_prompt_file platform_type with
            | Err e => (fs, Err e)
            | Ok prompt_file => write_text prompt_file prompt fs
            end
        end in
      (fs', catch_all r)
  end.

End Commands.

End Paths.

(** A computation that does not leave the model. *)
Definition in_model {A} (r : result A) : bool :=
  match r with Err OutsideModel => false | _ => true end.

(** [ep["episode_id"] == eid] for an episode that is a dict with that key. *)
Definition has_id (eid : str) (ep : pyval) : bool :=
  match ep with
  | PDict kv => match dict_get kv (s_ "episode_id") with Some x => eq_str x eid | None => false end
  | _ => false
  end.

(** The episode list with [metadata] merged into the first episode with
    [episode_id] [eid], or appended when there is none. *)
Definition upsert (eid : str) (metadata : dict pyval) (eps : list pyval) : list pyval :=
  match find_index (has_id eid) eps with
  | Some i =>
      match nth i eps PNone with
      | PDict kv => replace_nth i (PDict (dict_update kv metadata)) eps
      | _ => eps
      end
  | None => eps ++ [PDict metadata]
  end.

End MainPy.

(** A database for [save_to_database]. *)
Module MainExamples.
Import Dataclass World MainPy.

Definition stored_episode : pyval :=
  PDict [(s_ "episode_id", PStr (s_ "123")); (s_ "title", PStr (s_ "Old title"))].

Definition db_path : str := s_ "Podcast Data/podcast_data.json".

Definition db_fs : FS :=
  mk_fs [(db_path, match json_dumps (PList [stored_episode]) with Some t => t | None => [] end)] None.

Definition new_metadata : dict pyval :=
  [(s_ "episode_id", PStr (s_ "123")); (s_ "title", PStr (s_ "New title"));
   (s_ "platform_type", PStr (s_ "vimeo"))].

(** The data of a Vimeo page with a text track. *)
Definition vimeo_page : pyval :=
  PDict [(s_ "playerConfig",
          PDict [(s_ "video", PDict [(s_ "id", PInt 1001); (s_ "title", PStr (s_ "Podcast with Jack Kruse"));
                                    (s_ "owner", PDict [(s_ "name", PStr (s_ "Owner"))])]);
                 (s_ "request", PDict [(s_ "text_tracks",
                    PList [PDict [(s_ "url", PStr (s_ "https://vimeo.com/texttrack/555.vtt?token=abc"))]])])]);
         (s_ "ld_json", PList [PDict [(s_ "@type", PStr (s_ "VideoObject"));
                                      (s_ "uploadDate", PStr (s_ "2024-09-24"))]])].

Definition vimeo_page_metadata : pyval :=
  match create_episode_metadata (PStr (s_ "1001")) vimeo_page with Ok m => m | Err _ => PNone end.

End MainExamples.

(** ** The item loops of [json.dump], and the values it round-trips *)
Module JsonText.
Import Py PyText Dataclass.

(** The loop [json_w] runs over the elements of a non-empty list. *)
Definition json_list_items (lvl : nat) : bool -> list pyval -> str * bool :=
  let sep := s_ "," ++ nl_indent (S lvl) in
  fix items (first : bool) (l : list pyval) : str * bool :=
    match l with
    | [] => ([], true)
    | x :: r =>
        let buf := if first then [] else sep in
        let (t, ok) := json_w (S lvl) x in
        if ok then let (t', ok') := items false r in (buf ++ t ++ t', ok')
        else (buf ++ t, false)
    end.

(** The loop [json_w] runs over the items of a non-empty dict. *)
Definition json_dict_items (lvl : nat) : bool -> list (str * pyval) -> str * bool :=
  let sep := s_ "," ++ nl_indent (S lvl) in
  fix items (first : bool) (kv : list (str * pyval)) : str * bool :=
    match kv with
    | [] => ([], true)
    | (k, x) :: r =>
        let buf := (if first then [] else sep) ++ json_str k ++ s_ ": " in
        let (t, ok) := json_w (S lvl) x in
        if ok then let (t', ok') := items false r in (buf ++ t ++ t', ok')
        else (buf ++ t, false)
    end.

(** No key occurs twice, as in a Python [dict]. *)
Fixpoint keys_unique {A} (kv : dict A) : bool :=
  match kv with
  | [] => true
  | (k, _) :: r => negb (has_key r k) && keys_unique r
  end.

(** A value [json.dumps] encodes and [json.loads] decodes within the
    model: no objects, dicts with distinct keys, and arrays and objects
    nested at most 100 deep when the value sits at depth [d]. *)
Fixpoint jsonable (d : nat) (v : pyval) : bool :=
  match v with
  | PList l => (d <? 100)%nat && forallb (jsonable (S d)) l
  | PDict kv => (d <? 100)%nat && keys_unique kv && forallb (fun '(_, x) => jsonable (S d) x) kv
  | PObj _ _ => false
  | _ => true
  end.

(** What may follow a value in the text [json_w] writes: the end,
    whitespace, a comma or a closing bracket. *)
Definition json_follow (rest : str) : bool :=
  match rest with
  | [] => true
  | c :: _ => is_json_ws c || Ascii.eqb c ","%char || Ascii.eqb c "]"%char || Ascii.eqb c "}"%char
  end.

(** The keys of [d] are the names of [fs], in the same order. *)
Definition same_keys {A B} (d : dict A) (fs : list (str * B)) : bool :=
  if list_eq_dec (list_eq_dec ascii_dec) (map fst d) (map fst fs) then true else false.

(** A dataclass instance of class [cls] with fields [fs] whose
    attributes are exactly its fields, holding JSON data (at the depth
    the interviewee's fields sit in the saved list). *)
Definition plain_instance (cls : str) (fs : fields) (v : pyval) : bool :=
  match v with
  | PObj c attrs => str_eqb c cls && same_keys attrs fs && forallb (fun '(_, x) => jsonable 3 x) attrs
  | _ => false
  end.

(** A [PodcastEntry] as [_load] builds them: exactly the fields [ef],
    an [Interviewee] instance with fields [ifs] as [interviewee], and
    JSON data in the other fields. *)
Definition storable_entry (ef ifs : fields) (e : pyval) : bool :=
  match e with
  | PObj c attrs =>
      str_eqb c (s_ "PodcastEntry") && same_keys attrs ef
      && forallb (fun '(k, x) => if str_eqb k (s_ "interviewee")
                                 then plain_instance (s_ "Interviewee") ifs x
                                 else jsonable 2 x) attrs
  | _ => false
  end.

(** A value that is neither a container nor an object. *)
Definition scalar (v : pyval) : bool :=
  match v with PNone | PBool _ | PInt _ | PStr _ => true | _ => false end.

End JsonText.

(* ================================================================= *)
(** * Properties *)

(** ** The sanitizer *)
Module SanitizeFacts.
Import Sanitize.

Example sanitize_danny : _sanitize_name (s_ "Danny Jones") = s_ "danny_jones".
Proof. reflexivity. Qed.

Example sanitize_mixed :
  _sanitize_name (s_ "Dr. A  B__C!") = s_ "dr_a_b_c".
Proof. reflexivity. Qed.

Lemma lower_char_idem (c : ascii) : lower_char (lower_char c) = lower_char c.
Proof.
  destruct c as [b0 b1 b2 b3 b4 b5 b6 b7].
  destruct b0, b1, b2, b3, b4, b5, b6, b7; reflexivity.
Qed.

Lemma collapse_us_in (b : bool) (s : str) (c : ascii) :
  In c (collapse_us b s) -> In c s.
Proof.
  revert b; induction s as [|a r IH]; intros b H; simpl in *; [exact H|].
  destruct (Ascii.eqb a underscore); [destruct b|];
    simpl in H; try destruct H as [H|H]; eauto.
Qed.

Lemma collapse_us_idem (b : bool) (s : str) :
  collapse_us b (collapse_us b s) = collapse_us b s.
Proof.
  revert b; induction s as [|a r IH]; intros b; simpl; [reflexivity|].
  destruct (Ascii.eqb a underscore) eqn:Ha; [destruct b|]; simpl;
    rewrite ?Ha, ?IH; reflexivity.
Qed.

(** Every character the sanitizer emits is already lower case, is kept
    by the filter and is not a space. *)
Lemma sanitize_chars (name : str) (c : ascii) :
  In c (_sanitize_name name) ->
  lower_char c = c /\ keep c = true /\ c <> space.
Proof.
  unfold _sanitize_name, replace_char, lower; intros H.
  apply collapse_us_in in H.
  apply in_map_iff in H as [x [Hx Hin]].
  apply filter_In in Hin as [Hin Hk].
  apply in_map_iff in Hin as [y [Hy _]]; subst x.
  destruct (Ascii.eqb (lower_char y) space) eqn:Hs; subst c.
  - split; [reflexivity | split; [reflexivity | discriminate]].
  - apply Ascii.eqb_neq in Hs.
    split; [apply lower_char_idem | split; [exact Hk | exact Hs]].
Qed.

Lemma map_id_in {A} (f : A -> A) (l : list A) :
  (forall x, In x l -> f x = x) -> map f l = l.
Proof.
  induction l as [|a r IH]; intros H; simpl; [reflexivity|].
  rewrite H, IH; auto with datatypes.
Qed.

Lemma filter_all_in {A} (f : A -> bool) (l : list A) :
  (forall x, In x l -> f x = true) -> filter f l = l.
Proof.
  induction l as [|a r IH]; intros H; simpl; [reflexivity|].
  rewrite H, IH; auto with datatypes.
Qed.

(** Shared core of the idempotence claim. *)
Lemma sanitize_fix (name : str) :
  _sanitize_name (_sanitize_name name) = _sanitize_name name.
Proof.
  set (u := _sanitize_name name).
  assert (Hu : forall c, In c u -> lower_char c = c /\ keep c = true /\ c <> space)
    by (intros c; apply sanitize_chars).
  unfold _sanitize_name at 1.
  assert (Hl : lower u = u) by (apply map_id_in; intros c Hc; apply Hu, Hc).
  rewrite Hl.
  rewrite (filter_all_in keep u) by (intros c Hc; apply Hu, Hc).
  unfold replace_char.
  rewrite (map_id_in _ u).
  - unfold u, _sanitize_name. apply collapse_us_idem.
  - intros c Hc. destruct (Ascii.eqb c space) eqn:E; [|reflexivity].
    apply Ascii.eqb_eq in E. exfalso. apply (Hu c Hc), E.
Qed.

End SanitizeFacts.

(** ** Characters and numerals *)
Module CharFacts.

(** Case on every integer comparison of the goal. *)
Ltac zbool :=
  repeat match goal with
  | |- context [(?x <=? ?y)%Z] => case (Z.leb_spec x y); intro
  | |- context [(?x <? ?y)%Z] => case (Z.ltb_spec x y); intro
  | |- context [(?x =? ?y)%Z] => case (Z.eqb_spec x y); intro
  end.

Lemma code_chr (n : Z) : 0 <= n < 256 -> code (chr n) = n.
Proof.
  intros H. unfold code, chr.
  rewrite nat_ascii_embedding by lia. lia.
Qed.

Lemma code_digit_char (k : Z) : 0 <= k < 10 -> code (digit_char k) = 48 + k.
Proof. intros H. unfold digit_char. apply code_chr. lia. Qed.

Lemma eqb_code_neq (a b : ascii) : code a <> code b -> Ascii.eqb a b = false.
Proof. destruct (Ascii.eqb_spec a b); [intros H; subst; contradiction | reflexivity]. Qed.

Lemma is_digit_code (c : ascii) : 48 <= code c <= 57 -> is_digit c = true.
Proof. intros H. unfold is_digit, in_range. zbool; simpl; lia || reflexivity. Qed.

Lemma is_space_code (c : ascii) : 48 <= code c <= 57 -> is_space c = false.
Proof. intros H. unfold is_space, in_range. zbool; simpl; lia || reflexivity. Qed.

Lemma digit_value_char (k : Z) : 0 <= k < 10 -> digit_value (digit_char k) = k.
Proof. intros H. unfold digit_value. rewrite code_digit_char by exact H. lia. Qed.

Lemma code_underscore : code underscore = 95. Proof. reflexivity. Qed.
Lemma code_newline : code newline = 10. Proof. reflexivity. Qed.

Lemma dec_digits_small (n : Z) : 0 <= n < 10 -> dec_digits n = [digit_char n].
Proof.
  intros H. unfold dec_digits. simpl.
  destruct (Z.ltb_spec n 10); [|lia].
  rewrite Z.mod_small by lia. reflexivity.
Qed.

Lemma pad2_two (n : Z) : 0 <= n < 100 ->
  pad2 n = [digit_char (n / 10); digit_char (n mod 10)].
Proof.
  intros H. unfold pad2.
  destruct (Z.ltb_spec n 10) as [Hs|Hs].
  - rewrite dec_digits_small by lia. simpl.
    rewrite Z.div_small, Z.mod_small by lia. reflexivity.
  - unfold dec_digits.
    assert (Hl : 3 <= Z.log2 n).
    { change 3 with (Z.log2 10). apply Z.log2_le_mono. lia. }
    destruct (Z.to_nat (Z.log2 n)) as [|k] eqn:E; [lia|].
    simpl. destruct (Z.ltb_spec n 10); [lia|].
    destruct (Z.ltb_spec (n / 10) 10) as [Hd|Hd];
      [|exfalso; Z.div_mod_to_equations; lia].
    rewrite (Z.mod_small (n / 10) 10) by (split; [apply Z.div_pos|]; lia).
    reflexivity.
Qed.

Lemma two_digits_chars (n : Z) : 0 <= n < 100 ->
  PodcastIDM.two_digits (digit_char (n / 10)) (digit_char (n mod 10)) = n.
Proof.
  intros H. unfold PodcastIDM.two_digits.
  assert (0 <= n / 10 < 10) by (split; [apply Z.div_pos|]; Z.div_mod_to_equations; lia).
  assert (0 <= n mod 10 < 10) by (apply Z.mod_pos_bound; lia).
  rewrite !digit_value_char by assumption.
  Z.div_mod_to_equations. lia.
Qed.

End CharFacts.

(** ** The ID pattern *)
Module IDFacts.
Import PodcastIDM CharFacts.

Lemma lazy_from_eq {A} (acc s : str) (k : str -> str -> option A) :
  lazy_from acc s k =
  match k acc s with
  | Some r => Some r
  | None =>
      match s with
      | [] => None
      | c :: s' => if Ascii.eqb c newline then None else lazy_from (acc ++ [c]) s' k
      end
  end.
Proof. destruct s; reflexivity. Qed.

(** The lazy group stops at [P] when no shorter prefix lets the rest of
    the pattern match and the rest matches after [P]. *)
Lemma lazy_from_split {A} (P rest acc : str) (k : str -> str -> option A) (r : A) :
  (forall c, In c P -> c <> newline) ->
  (forall x y, P = x ++ y -> y <> [] -> k (acc ++ x) (y ++ rest) = None) ->
  k (acc ++ P) rest = Some r ->
  lazy_from acc (P ++ rest) k = Some r.
Proof.
  revert acc; induction P as [|c P IH]; intros acc Hn Hk Hr.
  - rewrite app_nil_r in Hr. simpl app. rewrite lazy_from_eq, Hr. reflexivity.
  - rewrite lazy_from_eq.
    rewrite <- (app_nil_r acc) at 1.
    rewrite (Hk [] (c :: P)) by (reflexivity || discriminate).
    simpl. destruct (Ascii.eqb_spec c newline) as [E|E];
      [exfalso; apply (Hn c); [left; reflexivity | exact E] |].
    apply IH.
    + intros c' Hc'. apply Hn. right. exact Hc'.
    + intros x y Hxy Hy. rewrite <- app_assoc. apply (Hk (c :: x) y); [|exact Hy].
      rewrite Hxy. reflexivity.
    + rewrite <- app_assoc. exact Hr.
Qed.

Lemma dot_plus_split {A} (P rest : str) (k : str -> str -> option A) (r : A) :
  P <> [] ->
  (forall c, In c P -> c <> newline) ->
  (forall x y, P = x ++ y -> x <> [] -> y <> [] -> k x (y ++ rest) = None) ->
  k P rest = Some r ->
  dot_plus_lazy (P ++ rest) k = Some r.
Proof.
  destruct P as [|c P]; intros HP Hn Hk Hr; [contradiction|].
  simpl. destruct (Ascii.eqb_spec c newline) as [E|E];
    [exfalso; apply (Hn c); [left; reflexivity | exact E] |].
  apply lazy_from_split.
  - intros c' Hc'. apply Hn. right. exact Hc'.
  - intros x y Hxy Hy. apply (Hk (c :: x) y); [| discriminate | exact Hy].
    rewrite Hxy. reflexivity.
  - exact Hr.
Qed.

Lemma after_us_other {A} (c : ascii) (s : str) (k : str -> option A) :
  c <> underscore -> after_us (c :: s) k = None.
Proof.
  intros H. simpl. destruct (Ascii.eqb_spec c underscore); [contradiction | reflexivity].
Qed.

(** A split inside an underscore-free group never lets the next [_] match. *)
Lemma no_us_split {A} (P rest : str) (k : str -> option A) (x y : str) :
  ~ In underscore P -> P = x ++ y -> y <> [] -> after_us (y ++ rest) k = None.
Proof.
  intros HP Hxy Hy. destruct y as [|c y]; [contradiction|].
  apply after_us_other. intros E. subst c. apply HP. rewrite Hxy.
  apply in_or_app. right. left. reflexivity.
Qed.

(** The last group cannot stop before the final [_NN]. *)
Lemma last_group_split {B} (y : str) (n1 n2 : ascii)
    (f : ascii -> ascii -> option B) :
  y <> [] -> is_digit n2 = true -> n2 <> newline ->
  after_us (y ++ [underscore; n1; n2]) (fun r4' =>
    match r4' with
    | c1 :: c2 :: tl =>
        if is_digit c1 && is_digit c2 && end_anchor tl then f c1 c2 else None
    | _ => None
    end) = None.
Proof.
  intros Hy Hd Hn. destruct y as [|c y]; [contradiction|].
  simpl. destruct (Ascii.eqb c underscore); [|reflexivity].
  destruct y as [|a [|b y]]; simpl.
  - reflexivity.
  - rewrite andb_false_r. reflexivity.
  - destruct y as [|e [|g y]]; simpl.
    + rewrite !andb_false_r. reflexivity.
    + rewrite !andb_false_r. reflexivity.
    + rewrite !andb_false_r. reflexivity.
Qed.

Import Sanitize.

Lemma is_digit_char (k : Z) : 0 <= k < 10 -> is_digit (digit_char k) = true.
Proof. intros H. apply is_digit_code. rewrite code_digit_char by exact H. lia. Qed.

Lemma is_digit_bounds (c : ascii) : is_digit c = true -> 48 <= code c <= 57.
Proof. unfold is_digit, in_range. rewrite andb_true_iff, !Z.leb_le. tauto. Qed.

Lemma py_int_two (a b : ascii) : is_digit a = true -> is_digit b = true ->
  py_int [a; b] = Some (two_digits a b).
Proof.
  intros Ha Hb. pose proof (is_digit_bounds a Ha). pose proof (is_digit_bounds b Hb).
  unfold py_int, strip. simpl. rewrite (is_space_code a) by lia.
  simpl. rewrite (is_space_code b) by lia.
  simpl. rewrite (eqb_code_neq a "-"%char), (eqb_code_neq a "+"%char)
    by (change (code "-"%char) with 45 || change (code "+"%char) with 43; lia).
  unfold parse_digits. rewrite Ha. simpl. rewrite Hb. reflexivity.
Qed.

Lemma lower_idem (s : str) : lower (lower s) = lower s.
Proof. unfold lower. rewrite map_map. apply map_ext. apply SanitizeFacts.lower_char_idem. Qed.

Lemma from_string_base_id (d : datetime) (p i plat : str) (n : Z) :
  valid_datetime d -> 1969 <= year d <= 2068 -> 1 <= n <= 99 ->
  _sanitize_name p <> [] -> _sanitize_name i <> [] -> lower plat <> [] ->
  ~ In underscore (_sanitize_name p) -> ~ In underscore (_sanitize_name i) ->
  ~ In newline (_sanitize_name p) -> ~ In newline (_sanitize_name i) ->
  ~ In newline (lower plat) ->
  from_string (base_id (new_PodcastID d p i plat n)) =
  Ok (mk_pid (mk_datetime (year d) (month d) (day d) 0 0 0 0)
        (_sanitize_name p) (_sanitize_name i) (lower plat) n).
Proof.
  intros Hv Hy Hn HP HI HL HuP HuI HnP HnI HnL.
  destruct Hv as (Hyr & Hm & Hd & _).
  assert (Hdim : days_in_month (year d) (month d) <= 31).
  { unfold days_in_month. destruct (is_leap _); zbool; simpl; lia. }
  unfold base_id, new_PodcastID, strftime_yymmdd, fmt_02d; cbn [pid_date pid_podcast_name pid_interviewee_name pid_platform pid_count].
  destruct (Z.ltb_spec n 0); [lia|].
  assert (Hyy : 0 <= year d mod 100 < 100) by (apply Z.mod_pos_bound; lia).
  rewrite !pad2_two by lia.
  set (P := _sanitize_name p) in *. set (I := _sanitize_name i) in *. set (L := lower plat) in *.
  cbn [app].
  assert (Dg : forall k, 0 <= k < 10 -> is_digit (digit_char k) = true /\ digit_char k <> newline).
  { intros k Hk. split; [apply is_digit_char, Hk|].
    intros E. apply (f_equal code) in E. rewrite code_digit_char, code_newline in E; lia. }
  destruct (Dg (year d mod 100 / 10)) as [Da1 Na1]; [split; [apply Z.div_pos|]; Z.div_mod_to_equations; lia|].
  destruct (Dg ((year d mod 100) mod 10)) as [Da2 Na2]; [apply Z.mod_pos_bound; lia|].
  destruct (Dg (month d / 10)) as [Db1 Nb1]; [split; [apply Z.div_pos|]; Z.div_mod_to_equations; lia|].
  destruct (Dg (month d mod 10)) as [Db2 Nb2]; [apply Z.mod_pos_bound; lia|].
  destruct (Dg (day d / 10)) as [Dc1 Nc1]; [split; [apply Z.div_pos|]; Z.div_mod_to_equations; lia|].
  destruct (Dg (day d mod 10)) as [Dc2 Nc2]; [apply Z.mod_pos_bound; lia|].
  destruct (Dg (n / 10)) as [Dn1 Nn1]; [split; [apply Z.div_pos|]; Z.div_mod_to_equations; lia|].
  destruct (Dg (n mod 10)) as [Dn2 Nn2]; [apply Z.mod_pos_bound; lia|].
  set (a1 := digit_char (year d mod 100 / 10)) in *.
  set (a2 := digit_char ((year d mod 100) mod 10)) in *.
  set (b1 := digit_char (month d / 10)) in *.
  set (b2 := digit_char (month d mod 10)) in *.
  set (c1 := digit_char (day d / 10)) in *.
  set (c2 := digit_char (day d mod 10)) in *.
  set (n1 := digit_char (n / 10)) in *.
  set (n2 := digit_char (n mod 10)) in *.
  assert (HM : id_match (a1 :: a2 :: underscore :: b1 :: b2 :: underscore :: c1 :: c2 :: underscore
      :: P ++ underscore :: I ++ underscore :: L ++ [underscore; n1; n2])
    = Some ([a1; a2; underscore; b1; b2; underscore; c1; c2], P, I, L, [n1; n2])).
  { unfold id_match. rewrite Da1, Da2, Db1, Db2, Dc1, Dc2. simpl.
    assert (NoNl : forall X, ~ In newline X -> forall c, In c X -> c <> newline)
      by (intros X HX c Hc E; subst c; contradiction).
    apply dot_plus_split; [exact HP | apply NoNl, HnP | |].
    { intros x y Hxy _ Hy0. cbv beta. exact (no_us_split P _ _ x y HuP Hxy Hy0). }
    simpl after_us.
    apply dot_plus_split; [exact HI | apply NoNl, HnI | |].
    { intros x y Hxy _ Hy0. cbv beta. exact (no_us_split I _ _ x y HuI Hxy Hy0). }
    simpl after_us.
    apply dot_plus_split; [exact HL | apply NoNl, HnL | |].
    { intros x y Hxy _ Hy0. cbv beta. apply last_group_split; assumption. }
    simpl. rewrite Dn1, Dn2. reflexivity. }
  unfold from_string. rewrite HM.
  assert (Ey : two_digits a1 a2 = year d mod 100) by (apply two_digits_chars; lia).
  assert (Em : two_digits b1 b2 = month d) by (apply two_digits_chars; lia).
  assert (Ed : two_digits c1 c2 = day d) by (apply two_digits_chars; lia).
  assert (En : two_digits n1 n2 = n) by (apply two_digits_chars; lia).
  assert (Eyear : (if year d mod 100 <=? 68 then year d mod 100 + 2000
                   else year d mod 100 + 1900) = year d).
  { destruct (Z.leb_spec (year d mod 100) 68); Z.div_mod_to_equations; lia. }
  unfold strptime_yymmdd. rewrite Da1, Da2, Db1, Db2, Dc1, Dc2. simpl andb.
  rewrite Ey, Em, Ed, Eyear.
  replace ((1 <=? month d) && (month d <=? 12) && (1 <=? day d) && (day d <=? 31)
           && (day d <=? days_in_month (year d) (month d))) with true
    by (symmetry; zbool; simpl; lia || reflexivity).
  rewrite py_int_two, En by assumption.
  unfold new_PodcastID. f_equal. f_equal.
  - apply SanitizeFacts.sanitize_fix.
  - apply SanitizeFacts.sanitize_fix.
  - apply lower_idem.
Qed.

End IDFacts.

(** ** Dictionaries *)
Module PyFacts.

Lemma str_eqb_eq (a b : str) : str_eqb a b = true <-> a = b.
Proof. unfold str_eqb. destruct (list_eq_dec ascii_dec a b); split; congruence. Qed.

Lemma str_eqb_refl (s : str) : str_eqb s s = true.
Proof. apply str_eqb_eq. reflexivity. Qed.

Lemma str_eqb_neq (a b : str) : a <> b -> str_eqb a b = false.
Proof. intro H. destruct (str_eqb a b) eqn:E; [apply str_eqb_eq in E; contradiction | reflexivity]. Qed.

Lemma str_eqb_sym (a b : str) : str_eqb a b = str_eqb b a.
Proof.
  destruct (str_eqb a b) eqn:E; symmetry.
  - apply str_eqb_eq in E. subst. apply str_eqb_refl.
  - apply str_eqb_neq. intro H. subst. rewrite str_eqb_refl in E. discriminate.
Qed.

Lemma dict_get_set {A} (d : dict A) (k f : str) (v : A) :
  dict_get (dict_set d k v) f = if str_eqb f k then Some v else dict_get d f.
Proof.
  induction d as [|[k' v'] r IH]; simpl; [reflexivity|].
  destruct (str_eqb k k') eqn:Ek; simpl.
  - apply str_eqb_eq in Ek. subst k'. destruct (str_eqb f k); reflexivity.
  - rewrite IH. destruct (str_eqb f k') eqn:Ef; [|reflexivity].
    apply str_eqb_eq in Ef. subst f. rewrite str_eqb_sym, Ek. reflexivity.
Qed.

End PyFacts.

(** ** Generating and parsing IDs *)
Module IDClaims.
Import Sanitize PodcastIDM IDGen PyFacts Examples.

Lemma cache_get_set (c : dict Z) (k : str) (v : Z) : cache_get (dict_set c k v) k = v.
Proof. unfold cache_get. rewrite dict_get_set, str_eqb_refl. reflexivity. Qed.

Lemma seq_shift_map (c : Z) (k : nat) :
  map (fun j => c + 1 + Z.of_nat j) (seq 1 k) = map (fun j => c + Z.of_nat j) (seq 2 k).
Proof.
  replace (seq 2 k) with (map S (seq 1 k)) by apply seq_shift.
  rewrite map_map. apply map_ext. intro j. lia.
Qed.

Lemma generate_ids_counts (g : IDGenerator) (date : datetime) (pn iname plat : str) (k : nat) :
  map pid_count (snd (generate_ids g date pn iname plat k)) =
  map (fun j => cache_get (id_cache g) (pn ++ [underscore] ++ iname) + Z.of_nat j) (seq 1 k).
Proof.
  revert g. induction k as [|k IH]; intro g; [reflexivity|].
  cbn [generate_ids generate_id].
  set (key := pn ++ [underscore] ++ iname).
  set (g1 := mk_gen (dict_set (id_cache g) key (cache_get (id_cache g) key + 1))).
  specialize (IH g1).
  destruct (generate_ids g1 date pn iname plat k) as [g2 ps] eqn:E.
  simpl in IH |- *. f_equal.
  rewrite IH. replace (pn ++ underscore :: iname) with key by reflexivity.
  rewrite cache_get_set. apply seq_shift_map.
Qed.

Lemma generate_id_calls_counts (g : IDGenerator) (key : str) (calls : list (datetime * str * str * str)) :
  Forall (fun c => match c with (_, pn, iname, _) => pn ++ [underscore] ++ iname = key end) calls ->
  map pid_count (snd (generate_id_calls g calls)) =
  map (fun j => cache_get (id_cache g) key + Z.of_nat j) (seq 1 (List.length calls)).
Proof.
  revert g. induction calls as [|[[[d pn] iname] plat] r IH]; intros g Hall; [reflexivity|].
  inversion Hall as [|? ? Hk Hr]; subst.
  cbn [generate_id_calls generate_id].
  set (g1 := mk_gen (dict_set (id_cache g) (pn ++ [underscore] ++ iname)
                       (cache_get (id_cache g) (pn ++ [underscore] ++ iname) + 1))).
  specialize (IH g1 Hr).
  destruct (generate_id_calls g1 r) as [g2 ps] eqn:E.
  simpl in IH |- *. f_equal.
  rewrite IH. unfold g1. cbn [id_cache]. rewrite cache_get_set. apply seq_shift_map.
Qed.

(** C3 (amended).  Successive [generate_id] calls on one generator whose
    podcast and interviewee names give the same unsanitized key
    [f"{podcast_name}_{interviewee_name}"] (their dates and platforms may
    differ) carry the counters [c + 1], ..., [c + k], where [c] is what the
    cache holds for that key (0 when absent); on a generator whose cache
    has no such key the Danny Jones example gives [_01] then [_02]. *)
Theorem generate_id_counters (g : IDGenerator) (key : str) (calls : list (datetime * str * str * str)) :
  Forall (fun c => match c with (_, pn, iname, _) => pn ++ [underscore] ++ iname = key end) calls ->
  map pid_count (snd (generate_id_calls g calls)) =
  map (fun j => cache_get (id_cache g) key + Z.of_nat j) (seq 1 (List.length calls))
  /\ map base_id (snd (generate_id_calls (mk_gen [])
                       [(danny_date, s_ "Danny Jones", s_ "Jack Kruse", s_ "youtube");
                        (danny_date, s_ "Danny Jones", s_ "Jack Kruse", s_ "youtube")]))
     = [s_ "24_09_24_danny_jones_jack_kruse_youtube_01";
        s_ "24_09_24_danny_jones_jack_kruse_youtube_02"].
Proof.
  intro Hall. split; [apply generate_id_calls_counts, Hall | vm_compute; reflexivity].
Qed.

Lemma generate_id_counters_witness :
  map pid_count (snd (generate_id_calls (mk_gen [(s_ "Danny Jones_Jack Kruse", 3)])
                        [(danny_date, s_ "Danny Jones", s_ "Jack Kruse", s_ "youtube");
                         (mk_datetime 2024 10 2 0 0 0 0, s_ "Danny Jones", s_ "Jack Kruse", s_ "vimeo");
                         (mk_datetime 2025 1 5 0 0 0 0, s_ "Danny Jones", s_ "Jack Kruse", s_ "youtube")]))
  = [4; 5; 6].
Proof.
  refine (eq_trans (proj1 (generate_id_counters (mk_gen [(s_ "Danny Jones_Jack Kruse", 3)])
                             (s_ "Danny Jones_Jack Kruse") _ _)) _).
  - repeat constructor.
  - vm_compute. reflexivity.
Defined.

(** C3 fails: [add_entry] builds a fresh [IDGenerator], whose cache is
    loaded from [podcasts.json].  Once the Danny Jones episode is stored
    (with [_01]), the next generator's two calls give [_02] and [_03]. *)
Lemma generator_resumes_from_store :
  match IDGenerator_init (World.podcast_list_file one_entry_store) with
  | Ok g =>
      map base_id (snd (generate_ids g danny_date (s_ "Danny Jones") (s_ "Jack Kruse")
                          (s_ "youtube") 2))
      = [s_ "24_09_24_danny_jones_jack_kruse_youtube_02";
         s_ "24_09_24_danny_jones_jack_kruse_youtube_03"]
  | Err _ => False
  end.
Proof. vm_compute. reflexivity. Qed.

(** C4.  [_sanitize_name] (the same function in [id_generator.py] and
    [lib/generators/id.py]) is idempotent; being a function it is
    deterministic. *)
Theorem sanitize_idempotent (s : str) :
  _sanitize_name (_sanitize_name s) = _sanitize_name s.
Proof. apply SanitizeFacts.sanitize_fix. Qed.

(** C5 fails: the lazy groups split at the first underscores, so the
    example ID of [id_generator.py] does not give its names back. *)
Lemma from_string_splits_names :
  from_string (base_id (new_PodcastID danny_date (s_ "Danny Jones") (s_ "Jack Kruse")
                          (s_ "youtube") 1))
  = Ok (mk_pid danny_date (s_ "danny") (s_ "jones") (s_ "jack_kruse_youtube") 1).
Proof. vm_compute. reflexivity. Qed.

(** C5 (amended).  [from_string] gives back the date (at midnight), the
    sanitized names, the lowered platform and the count of a [PodcastID]
    when both sanitized names and the lowered platform are non-empty, the
    names hold no underscore, none of the three holds a newline, the year
    is in 1969..2068 and the count in 1..99; a string the ID pattern does
    not match raises [ValueError("Invalid ID format: ...")]. *)
Theorem from_string_inverts_base_id (d : datetime) (p i plat : str) (n : Z) :
  valid_datetime d -> 1969 <= year d <= 2068 -> 1 <= n <= 99 ->
  _sanitize_name p <> [] -> _sanitize_name i <> [] -> lower plat <> [] ->
  ~ In underscore (_sanitize_name p) -> ~ In underscore (_sanitize_name i) ->
  ~ In newline (_sanitize_name p) -> ~ In newline (_sanitize_name i) ->
  ~ In newline (lower plat) ->
  from_string (base_id (new_PodcastID d p i plat n)) =
  Ok (mk_pid (mk_datetime (year d) (month d) (day d) 0 0 0 0)
        (_sanitize_name p) (_sanitize_name i) (lower plat) n)
  /\ (forall s, id_match s = None -> from_string s = Err (ValueError (s_ "Invalid ID format: " ++ s))).
Proof.
  intros. split.
  - apply IDFacts.from_string_base_id; assumption.
  - intros s Hs. unfold from_string. rewrite Hs. reflexivity.
Qed.

Ltac not_in := let H := fresh in
  intro H; vm_compute in H; repeat (destruct H as [H|H]; [discriminate H|]); exact H.

Lemma from_string_inverts_base_id_witness :
  from_string (base_id (new_PodcastID (mk_datetime 2024 9 24 15 30 0 0) (s_ "JRE") (s_ "Musk")
                          (s_ "YouTube") 7))
  = Ok (mk_pid danny_date (s_ "jre") (s_ "musk") (s_ "youtube") 7).
Proof.
  refine (proj1 (from_string_inverts_base_id (mk_datetime 2024 9 24 15 30 0 0) (s_ "JRE") (s_ "Musk")
                   (s_ "YouTube") 7 _ _ _ _ _ _ _ _ _ _ _)).
  - unfold valid_datetime, days_in_month, is_leap; simpl; lia.
  - simpl; lia.
  - lia.
  - vm_compute; discriminate.
  - vm_compute; discriminate.
  - vm_compute; discriminate.
  - not_in.
  - not_in.
  - not_in.
  - not_in.
  - not_in.
Defined.

End IDClaims.

(** ** Attributes, lists and saving *)
Module StoreFacts.
Import PyFacts Dataclass World.

Definition is_obj (v : pyval) : bool := match v with PObj _ _ => true | _ => false end.

Lemma getattr_setattr (e : pyval) (k f : str) (v : pyval) :
  is_obj e = true -> getattr (setattr e k v) f = if str_eqb f k then Some v else getattr e f.
Proof. destruct e; try discriminate. intros _. simpl. apply dict_get_set. Qed.

Lemma has_key_set {A} (d : dict A) (k f : str) (v : A) :
  has_key (dict_set d k v) f = str_eqb f k || has_key d f.
Proof. unfold has_key. rewrite dict_get_set. destruct (str_eqb f k); reflexivity. Qed.

Lemma has_attribute_setattr (ms : list str) (e : pyval) (k f : str) (v : pyval) :
  is_obj e = true -> has_attribute ms (setattr e k v) f = str_eqb f k || has_attribute ms e f.
Proof.
  destruct e; try discriminate. intros _. simpl. rewrite has_key_set.
  destruct (str_eqb f k); reflexivity.
Qed.

Lemma setattr_obj (e : pyval) (k : str) (v : pyval) : is_obj e = true -> is_obj (setattr e k v) = true.
Proof. destruct e; try discriminate. reflexivity. Qed.

Lemma has_key_cons {A} (k f : str) (v : A) (r : dict A) :
  has_key ((k, v) :: r) f = str_eqb f k || has_key r f.
Proof. unfold has_key. simpl. destruct (str_eqb f k); reflexivity. Qed.

Lemma has_key_in {A} (d : dict A) (f : str) : has_key d f = true <-> In f (map fst d).
Proof.
  induction d as [|[k v] r IH]; simpl; [split; discriminate + tauto|].
  rewrite has_key_cons, orb_true_iff, IH, str_eqb_eq. split; intros [H|H]; auto.
Qed.

(** The update loop with no dunder keyword: it stays in the model, the
    entry stays an object, a named attribute the entry has holds the given
    value and every other attribute is unchanged, and the loop does the
    same without the names the entry does not have. *)
Lemma apply_updates_spec (ms : list str) (kw : dict pyval) (e : pyval) :
  is_obj e = true -> NoDup (map fst kw) ->
  forallb (fun kv => negb (is_dunder (fst kv))) kw = true ->
  exists e1, Store.apply_updates ms kw e = Ok e1 /\ is_obj e1 = true /\
    (forall f, getattr e1 f = if has_key kw f && has_attribute ms e f then dict_get kw f else getattr e f) /\
    Store.apply_updates ms (filter (fun kv => has_attribute ms e (fst kv)) kw) e = Ok e1.
Proof.
  unfold Store.apply_updates. revert e.
  induction kw as [|[k v] r IH]; intros e He Hnd Hdn; [exists e; repeat split; auto|].
  inversion Hnd as [|? ? Hk Hr]; subst.
  cbn [forallb fst] in Hdn. apply andb_prop in Hdn as [Hdk Hdr]. apply negb_true_iff in Hdk.
  set (e' := if has_attribute ms e k then setattr e k v else e).
  assert (He' : is_obj e' = true)
    by (unfold e'; destruct (has_attribute ms e k); [apply setattr_obj|]; exact He).
  destruct (IH e' He' Hr Hdr) as (e1 & Hr1 & Ho1 & Hg1 & Hf1).
  assert (Hstep : Store.update_step ms e (k, v) = Ok e')
    by (unfold Store.update_step, hasattr; cbn [fst snd]; rewrite Hdk; reflexivity).
  assert (Hrk : has_key r k = false)
    by (destruct (has_key r k) eqn:E; [apply has_key_in in E; contradiction | reflexivity]).
  exists e1. split; [|split; [exact Ho1|split]].
  - cbn [fold_result]. rewrite Hstep. exact Hr1.
  - intro f. rewrite Hg1, has_key_cons. cbn [dict_get].
    destruct (str_eqb f k) eqn:Efk.
    + apply str_eqb_eq in Efk. subst f. rewrite Hrk. cbn [orb andb].
      unfold e'. destruct (has_attribute ms e k);
        [rewrite getattr_setattr, str_eqb_refl by exact He|]; reflexivity.
    + cbn [orb]. unfold e'. destruct (has_attribute ms e k).
      * rewrite has_attribute_setattr, getattr_setattr, Efk by exact He. reflexivity.
      * reflexivity.
  - assert (Hfe : filter (fun kv => has_attribute ms e' (fst kv)) r
                  = filter (fun kv => has_attribute ms e (fst kv)) r).
    { apply filter_ext_in. intros [k' v'] Hin. cbn [fst]. unfold e'.
      destruct (has_attribute ms e k); [|reflexivity].
      rewrite has_attribute_setattr by exact He.
      destruct (str_eqb k' k) eqn:E; [|reflexivity].
      apply str_eqb_eq in E. subst k'. exfalso. apply Hk. apply (in_map fst _ _ Hin). }
    rewrite Hfe in Hf1. cbn [filter fst].
    destruct (has_attribute ms e k) eqn:Eh.
    + cbn [fold_result]. rewrite Hstep. exact Hf1.
    + first [exact Hf1 | unfold e' in Hf1; rewrite Eh in Hf1; exact Hf1].
Qed.

Lemma has_key_filter {A} (p : str * A -> bool) (d : dict A) (k : str) :
  has_key d k = false -> has_key (filter p d) k = false.
Proof.
  induction d as [|[k' v] r IH]; simpl; [reflexivity|].
  rewrite has_key_cons, orb_false_iff. intros [H1 H2].
  destruct (p (k', v)); [rewrite has_key_cons, H1|]; simpl; auto.
Qed.

Lemma NoDup_filter_keys {A} (p : str * A -> bool) (d : dict A) :
  NoDup (map fst d) -> NoDup (map fst (filter p d)).
Proof.
  induction d as [|[k v] r IH]; simpl; [auto|]. intro H. inversion H; subst.
  destruct (p (k, v)); simpl; [|auto]. constructor; [|auto].
  intro Hin. apply in_map_iff in Hin as ([k' v'] & Hk & Hin). simpl in Hk. subst k'.
  apply filter_In in Hin as [Hin _]. apply (in_map fst) in Hin. contradiction.
Qed.

Lemma find_index_lt {A} (p : A -> bool) (l : list A) (i : nat) :
  find_index p l = Some i -> (i < List.length l)%nat.
Proof.
  revert i. induction l as [|x r IH]; intros i H; simpl in H; [discriminate|].
  destruct (p x); [injection H as <-; simpl; lia|].
  destruct (find_index p r) as [i'|] eqn:E; [|discriminate]. injection H as <-.
  simpl. specialize (IH i' eq_refl). lia.
Qed.

Lemma find_index_nth {A} (p : A -> bool) (l : list A) (i : nat) (d : A) :
  find_index p l = Some i -> p (nth i l d) = true.
Proof.
  revert i. induction l as [|x r IH]; intros i H; simpl in H; [discriminate|].
  destruct (p x) eqn:Ep; [injection H as <-; exact Ep|].
  destruct (find_index p r) as [i'|] eqn:E; [|discriminate]. injection H as <-.
  simpl. apply IH. reflexivity.
Qed.

Lemma replace_nth_length {A} (i : nat) (x : A) (l : list A) :
  List.length (replace_nth i x l) = List.length l.
Proof. revert i. induction l as [|y r IH]; intros [|i]; simpl; auto. Qed.

Lemma replace_nth_other {A} (i j : nat) (x : A) (l : list A) :
  j <> i -> nth_error (replace_nth i x l) j = nth_error l j.
Proof.
  revert i j. induction l as [|y r IH]; intros [|i] [|j] H; simpl; auto; try lia.
Qed.

Lemma replace_nth_same {A} (i : nat) (x d : A) (l : list A) :
  (i < List.length l)%nat -> nth i (replace_nth i x l) d = x.
Proof.
  revert i. induction l as [|y r IH]; intros [|i] H; simpl in *; try lia; auto.
  apply IH. lia.
Qed.

End StoreFacts.

(** ** The entry stores *)
Module StoreClaims.
Import PodcastIDM PyFacts Dataclass World StoreFacts Examples.

Lemma save_entries_state (cf : str -> option fields) (st : State) :
  exists f, fst (save_entries cf st) = set_podcast_list_file f st.
Proof.
  unfold save_entries. destruct (map_result _ _); [destruct (dump_to_file _ _)|]; eexists; reflexivity.
Qed.

Lemma save_entries_entries (cf : str -> option fields) (st : State) :
  entries (fst (save_entries cf st)) = entries st.
Proof. destruct (save_entries_state cf st) as [f ->]. reflexivity. Qed.

Lemma save_entries_ok (cf : str -> option fields) (st st' : State) (u : unit) :
  save_entries cf st = (st', Ok u) ->
  exists docs, map_result (to_dict cf) (entries st) = Ok docs /\
    st' = set_podcast_list_file (json_dumps (PList docs)) st.
Proof.
  unfold save_entries. destruct (map_result _ _) as [docs|err] eqn:E; [|discriminate].
  intro H. exists docs. split; [reflexivity|]. revert H.
  unfold dump_to_file, json_dumps. destruct (json_w 0 (PList docs)) as [t c].
  destruct (write_fault st) as [n|]; [destruct (n <? List.length t)%nat|]; destruct c;
    cbn; intro H; inversion H; reflexivity.
Qed.

Lemma construct_entry (url platform : str) (t pn iv eid : pyval) (dt : str) (w : pyval) (pc ct : str) :
  construct (s_ "PodcastEntry") Store.PodcastEntry_fields
    [(s_ "url", PStr url); (s_ "platform", PStr platform); (s_ "title", t);
     (s_ "podcast_name", pn); (s_ "interviewee", iv); (s_ "episode_id", eid);
     (s_ "date", PStr dt); (s_ "webvtt_link", w); (s_ "process_command", PStr pc);
     (s_ "added_at", PStr ct); (s_ "updated_at", PStr ct)]
  = Ok (PObj (s_ "PodcastEntry")
          [(s_ "url", PStr url); (s_ "platform", PStr platform); (s_ "title", t);
           (s_ "podcast_name", pn); (s_ "interviewee", iv); (s_ "episode_id", eid);
           (s_ "date", PStr dt); (s_ "status", PStr (s_ "pending"));
           (s_ "episodes_file", PStr []); (s_ "claims_file", PStr []);
           (s_ "transcripts_file", PStr []); (s_ "webvtt_link", w);
           (s_ "process_command", PStr pc); (s_ "added_at", PStr ct); (s_ "updated_at", PStr ct)]).
Proof. reflexivity. Qed.

(** Every entry [add_entry] builds has the defaults for the status and
    the file fields. *)
Lemma new_entry_ok (fi : str -> option datetime) (pj : option str) (ct url platform : str)
    (md : dict pyval) (eid0 e : pyval) :
  Store.new_entry fi pj ct url platform md eid0 = Ok e ->
  exists t pn iv eid dt w pc,
    e = PObj (s_ "PodcastEntry")
          [(s_ "url", PStr url); (s_ "platform", PStr platform); (s_ "title", t);
           (s_ "podcast_name", pn); (s_ "interviewee", iv); (s_ "episode_id", eid);
           (s_ "date", PStr dt); (s_ "status", PStr (s_ "pending"));
           (s_ "episodes_file", PStr []); (s_ "claims_file", PStr []);
           (s_ "transcripts_file", PStr []); (s_ "webvtt_link", w);
           (s_ "process_command", PStr pc); (s_ "added_at", PStr ct); (s_ "updated_at", PStr ct)].
Proof.
  unfold Store.new_entry. intro H.
  repeat (unfold bind in H; match type of H with
  | context [match ?x with _ => _ end] => destruct x eqn:?; try discriminate H
  end).
  all: rewrite construct_entry in H; injection H as <-; do 7 eexists; reflexivity.
Qed.

Lemma add_entry_ok (fi : str -> option datetime) (st st' : State) (url platform : str)
    (md : dict pyval) (eid e : pyval) :
  Store.add_entry fi url platform md eid st = (st', Ok e) ->
  Store.new_entry fi (podcast_list_file st) (clock st) url platform md eid = Ok e /\
  exists docs, map_result (to_dict Store.classes) (entries st ++ [e]) = Ok docs /\
    st' = set_podcast_list_file (json_dumps (PList docs)) (set_entries (entries st ++ [e]) st).
Proof.
  unfold Store.add_entry. destruct (Store.new_entry _ _ _ _ _ _ _) as [e0|err] eqn:E; [|discriminate].
  destruct (Store._save _) as [st1 r] eqn:Es. destruct r as [u|err]; [|discriminate].
  intro H. injection H as <- <-. split; [reflexivity|].
  apply save_entries_ok in Es. exact Es.
Qed.

(** C1 fails: with the one-entry store on disk, a save of two entries
    that stops after 100 characters leaves a file that is neither the
    previous one nor valid JSON. *)
Lemma save_fault_corrupts_store :
  let (st', r) := Store._save faulty_save_store in
  r = Err OSError /\ podcast_list_file st' <> podcast_list_file faulty_save_store /\
  match podcast_list_file st' with Some t => json_loads t = JBad | None => False end.
Proof.
  vm_compute. split; [reflexivity|]. split; [intro H; discriminate H | reflexivity].
Qed.

(** C1 (amended).  [_save] of either store is not atomic: it opens the
    database file with ['w'] and writes the new serialization in place.
    When every entry converts with [to_dict] and the write stops after [n]
    characters, [n] less than the length of the new serialization, the call
    raises [OSError] and the file holds the first [n] characters of the new
    serialization, whatever it held before. *)
Theorem save_failure_leaves_prefix (cf : str -> option fields) (st : State) (docs : list pyval) (n : nat) :
  map_result (to_dict cf) (entries st) = Ok docs ->
  write_fault st = Some n ->
  (n < List.length (fst (json_w 0 (PList docs))))%nat ->
  save_entries cf st =
  (set_podcast_list_file (Some (firstn n (fst (json_w 0 (PList docs))))) st, Err OSError).
Proof.
  intros Hd Hf Hn. unfold save_entries. rewrite Hd. unfold dump_to_file.
  destruct (json_w 0 (PList docs)) as [t c]. simpl in Hn |- *. rewrite Hf.
  apply Nat.ltb_lt in Hn. rewrite Hn. reflexivity.
Qed.

Lemma save_failure_leaves_prefix_witness :
  Store._save faulty_save_store =
  (set_podcast_list_file (Some (firstn 100 (fst (json_w 0 (PList faulty_docs))))) faulty_save_store,
   Err OSError).
Proof.
  apply (save_failure_leaves_prefix Store.classes faulty_save_store faulty_docs 100).
  - vm_compute. reflexivity.
  - reflexivity.
  - vm_compute. lia.
Defined.

(** C2 fails: the current store accepts the same URL again and keeps
    both entries, on disk as well. *)
Lemma duplicate_url_accepted :
  match snd two_entry_run with Ok _ => True | Err _ => False end /\
  map (fun e => getattr e (s_ "url")) (entries (fst two_entry_run))
  = [Some (PStr danny_url); Some (PStr danny_url)] /\
  podcast_list_file (fst two_entry_run) <> podcast_list_file one_entry_store.
Proof.
  vm_compute. split; [exact I|]. split; [reflexivity | intro H; discriminate H].
Qed.

(** C2 (amended).  The older store rejects a URL it already holds with
    [ValueError("URL already exists in podcast list: ...")] and changes
    neither its entries nor any file.  The current store has no such check:
    when [add_entry] with no [existing_id] returns, the new entry with that
    URL has been appended next to the old one, and the podcast list file
    holds the JSON of the whole list, old entry and new one. *)
Theorem add_entry_duplicate_url (fromisoformat strptime_ymd : str -> option datetime)
    (st : State) (url platform : str) (metadata : dict pyval) :
  existsb (OldStore.has_url url) (entries st) = true ->
  OldStore.add_entry strptime_ymd url platform metadata st
  = (st, Err (ValueError (s_ "URL already exists in podcast list: " ++ url)))
  /\ (forall st' e, Store.add_entry fromisoformat url platform metadata PNone st = (st', Ok e) ->
        entries st' = entries st ++ [e] /\ getattr e (s_ "url") = Some (PStr url) /\
        exists docs, map_result (to_dict Store.classes) (entries st') = Ok docs /\
          podcast_list_file st' = json_dumps (PList docs)).
Proof.
  intro H. split.
  - unfold OldStore.add_entry. rewrite H. reflexivity.
  - intros st' e Ha. apply add_entry_ok in Ha as [He (docs & Hd & ->)].
    split; [reflexivity|]. split.
    + apply new_entry_ok in He as (t & pn & iv & eid & dt & w & pc & ->). reflexivity.
    + exists docs. split; [exact Hd | reflexivity].
Qed.

Lemma add_entry_duplicate_url_witness :
  OldStore.add_entry parse_ymd danny_url (s_ "youtube") danny_metadata_old old_one_entry_store
  = (old_one_entry_store, Err (ValueError (s_ "URL already exists in podcast list: " ++ danny_url))).
Proof.
  refine (proj1 (add_entry_duplicate_url parse_ymd parse_ymd old_one_entry_store danny_url
                   (s_ "youtube") danny_metadata_old _)).
  vm_compute. reflexivity.
Defined.

(** C6.  Loading a store (either one: both run [init_entries] with their
    own dataclasses): an absent file gives an empty list and no error; a
    file that is not valid JSON raises [JSONDecodeError] (a [ValueError]),
    which [__init__] does not catch. *)
Theorem load_absent_or_corrupt (ef ifs : fields) (st : State) :
  (podcast_list_file st = None -> init_entries ef ifs st = (set_entries [] st, Ok tt))
  /\ (forall text, podcast_list_file st = Some text -> json_loads text = JBad ->
        init_entries ef ifs st = (set_entries [] st, Err JSONDecodeError)).
Proof.
  split.
  - intro H. unfold init_entries. simpl. rewrite H. reflexivity.
  - intros text H Hj. unfold init_entries. simpl. rewrite H. unfold decode_file. rewrite Hj. reflexivity.
Qed.

Lemma load_absent_or_corrupt_witness :
  Store.PodcastList_init empty_store = (set_entries [] empty_store, Ok tt) /\
  Store.PodcastList_init truncated_store = (set_entries [] truncated_store, Err JSONDecodeError).
Proof.
  split.
  - apply (proj1 (load_absent_or_corrupt Store.PodcastEntry_fields Store.Interviewee_fields empty_store)).
    reflexivity.
  - apply (proj2 (load_absent_or_corrupt Store.PodcastEntry_fields Store.Interviewee_fields truncated_store)
             (firstn 100 (match podcast_list_file one_entry_store with Some t => t | None => [] end))).
    + vm_compute. reflexivity.
    + vm_compute. reflexivity.
Defined.

Ltac nodup_keys := vm_compute; repeat constructor;
  let H := fresh in intro H; repeat (destruct H as [H|H]; [discriminate H|]); exact H.

(** C9.  When [add_entry] of the current store, called with no
    [existing_id], returns an entry, that entry has status ["pending"] and
    empty [episodes_file], [claims_file] and [transcripts_file]; it has been
    appended to the previous in-memory entries; and the database file holds
    the JSON of the whole new list (every entry through [to_dict]), written
    before the call returned. *)
Theorem add_entry_appends_pending (fromisoformat : str -> option datetime) (st st' : State)
    (url platform : str) (metadata : dict pyval) (e : pyval) :
  Store.add_entry fromisoformat url platform metadata PNone st = (st', Ok e) ->
  getattr e (s_ "status") = Some (PStr (s_ "pending")) /\
  getattr e (s_ "episodes_file") = Some (PStr []) /\
  getattr e (s_ "claims_file") = Some (PStr []) /\
  getattr e (s_ "transcripts_file") = Some (PStr []) /\
  entries st' = entries st ++ [e] /\
  exists docs, map_result (to_dict Store.classes) (entries st') = Ok docs /\
    podcast_list_file st' = json_dumps (PList docs).
Proof.
  intro H. apply add_entry_ok in H as [He (docs & Hd & ->)].
  apply new_entry_ok in He as (t & pn & iv & eid & dt & w & pc & ->).
  do 5 (split; [reflexivity|]). exists docs. split; [exact Hd | reflexivity].
Qed.

Lemma add_entry_appends_pending_witness :
  getattr danny_entry (s_ "status") = Some (PStr (s_ "pending")) /\
  entries one_entry_store = [danny_entry].
Proof.
  assert (H : Store.add_entry parse_ymd danny_url (s_ "youtube") danny_metadata PNone empty_store
              = (one_entry_store, Ok danny_entry)) by (vm_compute; reflexivity).
  destruct (add_entry_appends_pending _ _ _ _ _ _ _ H) as (H1 & _ & _ & _ & H5 & _).
  split; [exact H1 | exact H5].
Defined.

(** C8.  [save_state] of the current store writes the state file from the
    call alone: when [save_state(episode_id, status, **kwargs)] returns, the
    file holds the JSON of [{"episode_id": episode_id, "status": status,
    **kwargs}], whatever it held before; the database file and the entries
    are untouched. *)
Theorem save_state_replaces (st st' : State) (episode_id status : str) (kwargs : dict pyval) :
  Store.save_state episode_id status kwargs st = (st', Ok tt) ->
  current_state_file st'
  = json_dumps (PDict (dict_update [(s_ "episode_id", PStr episode_id); (s_ "status", PStr status)] kwargs))
  /\ podcast_list_file st' = podcast_list_file st /\ entries st' = entries st.
Proof.
  unfold Store.save_state. destruct (has_key kwargs _ || has_key kwargs _); [discriminate|].
  unfold dump_to_file, json_dumps. destruct (json_w 0 _) as [t c].
  destruct (write_fault st) as [n|]; [destruct (n <? List.length t)%nat|]; destruct c;
    cbn; intro H; inversion H; subst; auto.
Qed.

Lemma save_state_replaces_witness :
  Store.get_state (fst (Store.save_state (s_ "x") (s_ "complete") [] errored_state_store))
  = Ok (PDict [(s_ "episode_id", PStr (s_ "x")); (s_ "status", PStr (s_ "complete"))]).
Proof.
  assert (H : Store.save_state (s_ "x") (s_ "complete") [] errored_state_store
              = (fst (Store.save_state (s_ "x") (s_ "complete") [] errored_state_store), Ok tt))
    by (vm_compute; reflexivity).
  destruct (save_state_replaces _ _ _ _ _ H) as [Hc _].
  unfold Store.get_state. rewrite Hc. vm_compute. reflexivity.
Defined.

Lemma store_update_entries (st : State) (episode_id : str) (kw : dict pyval) (i : nat) (e1 : pyval) :
  has_key kw (s_ "self") = false -> has_key kw (s_ "episode_id") = false ->
  find_index (has_episode_id episode_id) (entries st) = Some i ->
  Store.apply_updates Store.PodcastEntry_methods kw (nth i (entries st) PNone) = Ok e1 ->
  is_obj e1 = true ->
  exists eX, entries (fst (Store.update_entry episode_id kw st)) = replace_nth i eX (entries st) /\
    forall f, f <> s_ "updated_at" -> getattr eX f = getattr e1 f.
Proof.
  intros Hs He Hi Ha Ho. unfold Store.update_entry. rewrite Hs, He, Hi. cbn [orb]. rewrite Ha.
  destruct e1 as [|b|z|s|l|d|cls attrs]; try discriminate Ho.
  destruct (has_key attrs (s_ "update_timestamp")).
  - exists (PObj cls attrs). split; [reflexivity | auto].
  - exists (setattr (PObj cls attrs) (s_ "updated_at") (PStr (clock st))). split.
    + unfold Store._save. rewrite save_entries_entries. reflexivity.
    + intros f Hf. rewrite getattr_setattr by reflexivity. rewrite str_eqb_neq by exact Hf. reflexivity.
Qed.

Lemma old_update_entries (st : State) (episode_id : str) (kw : dict pyval) (i : nat) (e1 : pyval) :
  has_key kw (s_ "self") = false -> has_key kw (s_ "episode_id") = false ->
  find_index (has_episode_id episode_id) (entries st) = Some i ->
  Store.apply_updates OldStore.PodcastEntry_methods kw (nth i (entries st) PNone) = Ok e1 ->
  is_obj e1 = true ->
  exists eX, entries (fst (OldStore.update_entry episode_id kw st)) = replace_nth i eX (entries st) /\
    (forall f, f <> s_ "status" -> getattr eX f = getattr e1 f) /\
    (getattr e1 (s_ "is_complete") = None -> OldStore.files_present e1 = true ->
       getattr eX (s_ "status") = Some (PStr (s_ "complete"))).
Proof.
  intros Hs He Hi Ha Hob. unfold OldStore.update_entry. rewrite Hs, He, Hi. cbn [orb]. rewrite Ha.
  destruct e1 as [|b|z|s|l|d|cls attrs]; try discriminate Hob.
  destruct (has_key attrs (s_ "is_complete")) eqn:Hk.
  - exists (PObj cls attrs). split; [reflexivity|]. split; [auto|].
    intro Hn. unfold has_key in Hk. unfold getattr in Hn. rewrite Hn in Hk. discriminate Hk.
  - set (e2 := if OldStore.files_present (PObj cls attrs)
               then setattr (PObj cls attrs) (s_ "status") (PStr (s_ "complete")) else PObj cls attrs).
    exists e2. split; [|split].
    + destruct (OldStore._save (set_entries (replace_nth i e2 (entries st)) st)) as [st1 r] eqn:Es.
      pose proof (save_entries_entries OldStore.classes (set_entries (replace_nth i e2 (entries st)) st))
        as Hee.
      unfold OldStore._save in Es. rewrite Es in Hee. exact Hee.
    + intros f Hf. unfold e2. destruct (OldStore.files_present (PObj cls attrs)); [|reflexivity].
      rewrite getattr_setattr by reflexivity. rewrite str_eqb_neq by exact Hf. reflexivity.
    + intros _ Hfp. unfold e2. rewrite Hfp. rewrite getattr_setattr by reflexivity.
      rewrite str_eqb_refl. reflexivity.
Qed.

(** C7 (amended).  Take an entry found by [episode_id] (an object), and a
    call that binds neither [self] nor [episode_id] twice, with distinct
    keyword names none of which is a dunder name [__x__].  In the current store, after [update_entry] (whatever it
    returns): the list has the same length; every other entry is unchanged;
    every attribute of the entry other than [updated_at] holds the value of
    the call when the call names it and the entry has it (an attribute or a
    method), and its previous value otherwise; and the call behaves exactly
    as the call without the names the entry does not have.  In the older
    store the same rule holds for every attribute except [status], which
    [update_entry] may also change (to ["complete"], see C10). *)
Theorem update_entry_named_fields (st : State) (episode_id : str) (kwargs : dict pyval) (i : nat) :
  NoDup (map fst kwargs) ->
  has_key kwargs (s_ "self") = false -> has_key kwargs (s_ "episode_id") = false ->
  forallb (fun kv => negb (is_dunder (fst kv))) kwargs = true ->
  find_index (has_episode_id episode_id) (entries st) = Some i ->
  is_obj (nth i (entries st) PNone) = true ->
  let e := nth i (entries st) PNone in
  let st' := fst (Store.update_entry episode_id kwargs st) in
  let old_st' := fst (OldStore.update_entry episode_id kwargs st) in
  List.length (entries st') = List.length (entries st)
  /\ (forall j, j <> i -> nth_error (entries st') j = nth_error (entries st) j)
  /\ (forall f, f <> s_ "updated_at" ->
        getattr (nth i (entries st') PNone) f =
        if has_key kwargs f && has_attribute Store.PodcastEntry_methods e f
        then dict_get kwargs f else getattr e f)
  /\ Store.update_entry episode_id kwargs st
     = Store.update_entry episode_id
         (filter (fun kv => has_attribute Store.PodcastEntry_methods e (fst kv)) kwargs) st
  /\ (forall f, f <> s_ "status" ->
        getattr (nth i (entries old_st') PNone) f =
        if has_key kwargs f && has_attribute OldStore.PodcastEntry_methods e f
        then dict_get kwargs f else getattr e f).
Proof.
  intros Hnd Hs He Hdn Hi Ho. cbv zeta.
  assert (Hlt : (i < List.length (entries st))%nat) by (eapply find_index_lt; exact Hi).
  destruct (apply_updates_spec Store.PodcastEntry_methods kwargs _ Ho Hnd Hdn)
    as (e1 & Ha & Ho1 & Hg & Hf).
  destruct (apply_updates_spec OldStore.PodcastEntry_methods kwargs _ Ho Hnd Hdn)
    as (e2 & Ha' & Ho2 & Hg' & _).
  destruct (store_update_entries st episode_id kwargs i e1 Hs He Hi Ha Ho1) as (eX & Hent & Hget).
  destruct (old_update_entries st episode_id kwargs i e2 Hs He Hi Ha' Ho2) as (eY & Hent' & Hget' & _).
  split; [|split; [|split; [|split]]].
  - rewrite Hent. apply replace_nth_length.
  - intros j Hj. rewrite Hent. apply replace_nth_other. exact Hj.
  - intros f Hf'. rewrite Hent, replace_nth_same by exact Hlt.
    rewrite Hget by exact Hf'. apply Hg.
  - unfold Store.update_entry.
    rewrite (has_key_filter _ _ _ Hs), (has_key_filter _ _ _ He), Hs, He, Hi. cbn [orb].
    rewrite Ha, Hf. reflexivity.
  - intros f Hf'. rewrite Hent', replace_nth_same by exact Hlt.
    rewrite Hget' by exact Hf'. apply Hg'.
Qed.

Lemma update_entry_named_fields_witness :
  getattr (nth 0 (entries (fst (Store.update_entry danny_id update_kwargs later_store))) PNone)
    (s_ "status") = Some (PStr (s_ "error")).
Proof.
  assert (H1 : NoDup (map fst update_kwargs)) by nodup_keys.
  assert (H2 : has_key update_kwargs (s_ "self") = false) by (vm_compute; reflexivity).
  assert (H3 : has_key update_kwargs (s_ "episode_id") = false) by (vm_compute; reflexivity).
  assert (H3' : forallb (fun kv => negb (is_dunder (fst kv))) update_kwargs = true)
    by (vm_compute; reflexivity).
  assert (H4 : find_index (has_episode_id danny_id) (entries later_store) = Some 0%nat)
    by (vm_compute; reflexivity).
  assert (H5 : is_obj (nth 0 (entries later_store) PNone) = true) by (vm_compute; reflexivity).
  destruct (update_entry_named_fields later_store danny_id update_kwargs 0 H1 H2 H3 H3' H4 H5)
    as (_ & _ & Hget & _ & _).
  rewrite Hget by (intro H; discriminate H). vm_compute. reflexivity.
Defined.

(** C7 fails in the older store: an update that names only the three
    file fields also changes [status], from ["pending"] to ["complete"]. *)
Lemma old_update_changes_status :
  getattr (nth 0 (entries old_one_entry_store) PNone) (s_ "status") = Some (PStr (s_ "pending")) /\
  getattr (nth 0 (entries (fst (OldStore.update_entry danny_id files_kwargs old_one_entry_store))) PNone)
    (s_ "status") = Some (PStr (s_ "complete")).
Proof. vm_compute. split; reflexivity. Qed.

(** C10.  In the older store, [update_entry] promotes the status.  Take
    an entry found by [episode_id] (an object with no instance attribute
    [is_complete], so that [entry.is_complete()] calls the method), and a
    call with distinct keyword names that binds neither [self] nor
    [episode_id] twice, does not name [is_complete] and has no dunder
    keyword name [__x__].  If after the call
    the entry's [episodes_file], [claims_file] and [transcripts_file] are
    all non-empty, its status is ["complete"], whatever [status] the call
    passed. *)
Theorem old_update_entry_promotes (st : State) (episode_id : str) (kwargs : dict pyval) (i : nat) :
  NoDup (map fst kwargs) ->
  has_key kwargs (s_ "self") = false -> has_key kwargs (s_ "episode_id") = false ->
  has_key kwargs (s_ "is_complete") = false ->
  forallb (fun kv => negb (is_dunder (fst kv))) kwargs = true ->
  find_index (has_episode_id episode_id) (entries st) = Some i ->
  is_obj (nth i (entries st) PNone) = true ->
  getattr (nth i (entries st) PNone) (s_ "is_complete") = None ->
  let e' := nth i (entries (fst (OldStore.update_entry episode_id kwargs st))) PNone in
  OldStore.files_present e' = true -> getattr e' (s_ "status") = Some (PStr (s_ "complete")).
Proof.
  intros Hnd Hs He Hk Hdn Hi Ho Hic. cbv zeta.
  destruct (apply_updates_spec OldStore.PodcastEntry_methods kwargs _ Ho Hnd Hdn)
    as (e1 & Ha & Ho1 & Hg & _).
  destruct (old_update_entries st episode_id kwargs i e1 Hs He Hi Ha Ho1) as (eX & Hent & Hoth & Hst).
  rewrite Hent, replace_nth_same by (eapply find_index_lt; exact Hi).
  intro Hfp. apply Hst.
  - rewrite Hg, Hk. exact Hic.
  - unfold OldStore.files_present in *. cbn [forallb] in *.
    rewrite <- !Hoth by (intro H; discriminate H). exact Hfp.
Qed.

Lemma old_update_entry_promotes_witness :
  getattr (nth 0 (entries (fst (OldStore.update_entry danny_id promote_kwargs old_one_entry_store))) PNone)
    (s_ "status") = Some (PStr (s_ "complete")).
Proof.
  assert (H1 : NoDup (map fst promote_kwargs)) by nodup_keys.
  assert (H2 : has_key promote_kwargs (s_ "self") = false) by (vm_compute; reflexivity).
  assert (H3 : has_key promote_kwargs (s_ "episode_id") = false) by (vm_compute; reflexivity).
  assert (H4 : has_key promote_kwargs (s_ "is_complete") = false) by (vm_compute; reflexivity).
  assert (H4' : forallb (fun kv => negb (is_dunder (fst kv))) promote_kwargs = true)
    by (vm_compute; reflexivity).
  assert (H5 : find_index (has_episode_id danny_id) (entries old_one_entry_store) = Some 0%nat)
    by (vm_compute; reflexivity).
  assert (H6 : is_obj (nth 0 (entries old_one_entry_store) PNone) = true) by (vm_compute; reflexivity).
  assert (H7 : getattr (nth 0 (entries old_one_entry_store) PNone) (s_ "is_complete") = None)
    by (vm_compute; reflexivity).
  apply (old_update_entry_promotes old_one_entry_store danny_id promote_kwargs 0 H1 H2 H3 H4 H4' H5 H6 H7).
  vm_compute. reflexivity.
Defined.

End StoreClaims.

(* ================================================================= *)
(** * Further properties of the code *)

(** ** Decimal digits and [int()] *)
Module DigitFacts.
Import CharFacts PyFacts.

Definition digits_value (ds : str) : Z :=
  fold_left (fun a c => 10 * a + digit_value c) ds 0.

Lemma digits_acc_app (ds r : str) (acc : Z) :
  forallb is_digit ds = true ->
  digits_acc acc false (ds ++ r) =
  digits_acc (fold_left (fun a c => 10 * a + digit_value c) ds acc) false r.
Proof.
  revert acc. induction ds as [|c ds IH]; intros acc H; [reflexivity|].
  simpl in H |- *. apply andb_prop in H as [Hc Hds]. rewrite Hc. apply IH, Hds.
Qed.

Lemma parse_digits_value (ds : str) :
  ds <> [] -> forallb is_digit ds = true -> parse_digits ds = Some (digits_value ds).
Proof.
  destruct ds as [|c r]; [contradiction|]. intros _ H.
  simpl in H. apply andb_prop in H as [Hc Hr].
  unfold parse_digits, digits_value. rewrite Hc. simpl.
  pose proof (digits_acc_app r [] (digit_value c) Hr) as E. rewrite app_nil_r in E. rewrite E.
  simpl. replace (10 * 0 + digit_value c) with (digit_value c) by lia. reflexivity.
Qed.

(** What [dec_aux] produces with enough fuel: digits, their value, and
    no leading zero unless the number is 0. *)
Definition dec_ok (ds : str) (n : Z) : Prop :=
  ds <> [] /\ forallb is_digit ds = true /\ digits_value ds = n
  /\ (hd "0"%char ds = "0"%char -> ds = ["0"%char]).

Lemma digits_value_snoc (ds : str) (c : ascii) :
  digits_value (ds ++ [c]) = 10 * digits_value ds + digit_value c.
Proof. unfold digits_value. rewrite fold_left_app. reflexivity. Qed.

Lemma dec_aux_S (f : nat) (n : Z) (acc : str) :
  dec_aux (S f) n acc =
  if n <? 10 then digit_char (n mod 10) :: acc else dec_aux f (n / 10) (digit_char (n mod 10) :: acc).
Proof. reflexivity. Qed.

Lemma dec_aux_ok (f : nat) (n : Z) (acc : str) :
  0 <= n < 10 ^ Z.of_nat (S f) ->
  exists ds, dec_aux (S f) n acc = ds ++ acc /\ dec_ok ds n.
Proof.
  revert n acc. induction f as [|f IH]; intros n acc Hn.
  - simpl in Hn. simpl. destruct (Z.ltb_spec n 10); [|lia].
    exists [digit_char (n mod 10)]. split; [reflexivity|].
    rewrite Z.mod_small by lia.
    split; [discriminate|]. split; [simpl; rewrite IDFacts.is_digit_char by lia; reflexivity|].
    split; [unfold digits_value; simpl; rewrite digit_value_char by lia; lia|].
    intro Hh. simpl in Hh. rewrite Hh. reflexivity.
  - rewrite dec_aux_S. destruct (Z.ltb_spec n 10).
    + exists [digit_char (n mod 10)]. split; [reflexivity|].
      rewrite Z.mod_small by lia.
      split; [discriminate|]. split; [simpl; rewrite IDFacts.is_digit_char by lia; reflexivity|].
      split; [unfold digits_value; simpl; rewrite digit_value_char by lia; lia|].
      intro Hh. simpl in Hh. rewrite Hh. reflexivity.
    + assert (Hd : 0 <= n / 10 < 10 ^ Z.of_nat (S f)).
      { split; [apply Z.div_pos; lia|].
        rewrite Nat2Z.inj_succ, Z.pow_succ_r in Hn by lia.
        apply Z.div_lt_upper_bound; lia. }
      destruct (IH (n / 10) (digit_char (n mod 10) :: acc) Hd) as (ds & Heq & Hne & Hdig & Hval & Hhd).
      assert (Hm : 0 <= n mod 10 < 10) by (apply Z.mod_pos_bound; lia).
      exists (ds ++ [digit_char (n mod 10)]). split.
      { rewrite Heq, <- app_assoc. reflexivity. }
      split; [destruct ds; discriminate|]. split.
      { rewrite forallb_app, Hdig. simpl. rewrite IDFacts.is_digit_char by lia. reflexivity. }
      split.
      { rewrite digits_value_snoc, Hval, digit_value_char by lia. Z.div_mod_to_equations. lia. }
      intro Hh. destruct ds as [|c ds']; [contradiction|].
      simpl in Hh. specialize (Hhd Hh). injection Hhd as -> ->.
      unfold digits_value in Hval. simpl in Hval.
      change (digit_value "0"%char) with 0 in Hval. Z.div_mod_to_equations. lia.
Qed.

Lemma dec_digits_ok (n : Z) : 0 <= n -> dec_ok (dec_digits n) n.
Proof.
  intro Hn. unfold dec_digits.
  assert (Hb : n < 10 ^ Z.of_nat (S (Z.to_nat (Z.log2 n)))).
  { rewrite Nat2Z.inj_succ, Z2Nat.id by apply Z.log2_nonneg.
    destruct (Z.eq_dec n 0) as [->|Hn0]; [simpl; lia|].
    apply Z.lt_le_trans with (2 ^ Z.succ (Z.log2 n)).
    - apply Z.log2_spec. lia.
    - apply Z.pow_le_mono_l. split; [lia|lia]. }
  destruct (dec_aux_ok (Z.to_nat (Z.log2 n)) n [] (conj Hn Hb)) as (ds & Heq & Hok).
  rewrite Heq, app_nil_r. exact Hok.
Qed.

Lemma parse_dec_digits (n : Z) : 0 <= n -> parse_digits (dec_digits n) = Some n.
Proof.
  intro Hn. destruct (dec_digits_ok n Hn) as (Hne & Hdig & Hval & _).
  rewrite parse_digits_value by assumption. rewrite Hval. reflexivity.
Qed.

Lemma parse_pad2 (n : Z) : 0 <= n -> parse_digits (pad2 n) = Some n.
Proof.
  intro Hn. unfold pad2. destruct (List.length (dec_digits n) <? 2)%nat.
  - destruct (dec_digits_ok n Hn) as (Hne & Hdig & Hval & _).
    rewrite parse_digits_value by (try discriminate; simpl; exact Hdig).
    f_equal. transitivity (digits_value (dec_digits n)); [reflexivity | exact Hval].
  - apply parse_dec_digits, Hn.
Qed.

(** The inner loop of [strip]. *)
Fixpoint drop_spaces (l : str) : str :=
  match l with c :: r => if is_space c then drop_spaces r else l | [] => [] end.

Lemma strip_eq (s : str) : strip s = rev (drop_spaces (rev (drop_spaces s))).
Proof. reflexivity. Qed.

Definition no_space (s : str) : bool := forallb (fun c => negb (is_space c)) s.

Lemma drop_spaces_keep (s : str) :
  match s with c :: _ => is_space c = false | [] => True end -> drop_spaces s = s.
Proof. destruct s as [|c r]; [reflexivity|]. simpl. intros ->. reflexivity. Qed.

Lemma strip_no_space (s : str) : no_space s = true -> strip s = s.
Proof.
  intro H. rewrite strip_eq.
  rewrite (drop_spaces_keep s).
  2:{ destruct s as [|c r]; [exact I|]. simpl in H. apply andb_prop in H as [Hc _].
      apply negb_true_iff, Hc. }
  rewrite (drop_spaces_keep (rev s)), rev_involutive; [reflexivity|].
  destruct (rev s) as [|c r] eqn:E; [exact I|].
  unfold no_space in H. rewrite forallb_forall in H.
  assert (Hin : In c s) by (apply in_rev; rewrite E; left; reflexivity).
  apply negb_true_iff, H, Hin.
Qed.

Lemma no_space_digits (ds : str) : forallb is_digit ds = true -> no_space ds = true.
Proof.
  induction ds as [|c r IH]; [reflexivity|]. simpl. intro H.
  apply andb_prop in H as [Hc Hr]. rewrite IH by exact Hr.
  rewrite is_space_code by (apply IDFacts.is_digit_bounds, Hc). reflexivity.
Qed.

Lemma pad2_digits (n : Z) : 0 <= n -> pad2 n <> [] /\ forallb is_digit (pad2 n) = true.
Proof.
  intro Hn. destruct (dec_digits_ok n Hn) as (Hne & Hdig & _).
  unfold pad2. destruct (List.length (dec_digits n) <? 2)%nat; split; try discriminate;
    [simpl; exact Hdig | exact Hne | exact Hdig].
Qed.

(** [int(format(n, '02d')) == n] for every integer. *)
Lemma py_int_fmt_02d (n : Z) : py_int (fmt_02d n) = Some n.
Proof.
  unfold fmt_02d. destruct (Z.ltb_spec n 0) as [Hn|Hn].
  - destruct (dec_digits_ok (- n)) as (Hne & Hdig & _); [lia|].
    unfold py_int. rewrite strip_no_space.
    2:{ simpl. apply no_space_digits in Hdig. rewrite Hdig. reflexivity. }
    simpl Ascii.eqb. cbv iota. rewrite parse_dec_digits by lia. simpl. f_equal. lia.
  - destruct (pad2_digits n Hn) as [Hne Hdig].
    unfold py_int. rewrite strip_no_space by (apply no_space_digits, Hdig).
    destruct (pad2 n) as [|c r] eqn:E; [contradiction|].
    simpl in Hdig. apply andb_prop in Hdig as [Hc _].
    apply IDFacts.is_digit_bounds in Hc.
    rewrite (eqb_code_neq c "-"%char) by (change (code "-"%char) with 45; lia).
    rewrite (eqb_code_neq c "+"%char) by (change (code "+"%char) with 43; lia).
    rewrite <- E. apply parse_pad2, Hn.
Qed.

Lemma fmt_02d_inj (a b : Z) : fmt_02d a = fmt_02d b -> a = b.
Proof.
  intro H. assert (Hp : py_int (fmt_02d a) = py_int (fmt_02d b)) by (rewrite H; reflexivity).
  rewrite !py_int_fmt_02d in Hp. injection Hp as ->. reflexivity.
Qed.

Lemma fmt_02d_no_us (n : Z) : ~ In underscore (fmt_02d n).
Proof.
  unfold fmt_02d. intro H.
  assert (Hd : forall ds, forallb is_digit ds = true -> ~ In underscore ds).
  { intros ds Hds Hin. rewrite forallb_forall in Hds. apply Hds, IDFacts.is_digit_bounds in Hin.
    rewrite code_underscore in Hin. lia. }
  destruct (Z.ltb_spec n 0).
  - destruct (dec_digits_ok (- n)) as (_ & Hdig & _); [lia|].
    destruct H as [H|H]; [discriminate H|]. exact (Hd _ Hdig H).
  - destruct (pad2_digits n) as [_ Hdig]; [lia|]. exact (Hd _ Hdig H).
Qed.

(** [str.split('_')]: the last piece after a final separator. *)
Lemma split_on_no_sep (sep : ascii) (y : str) : ~ In sep y -> split_on sep y = [y].
Proof.
  induction y as [|c r IH]; intro H; [reflexivity|]. simpl.
  rewrite (eqb_code_neq c sep).
  2:{ intro Hc. apply H. left. apply (f_equal chr) in Hc. unfold code, chr in Hc.
      rewrite !Nat2Z.id, !ascii_nat_embedding in Hc. exact Hc. }
  rewrite IH by (intro Hr; apply H; right; exact Hr). reflexivity.
Qed.

Lemma split_on_app (sep : ascii) (x y : str) :
  exists pre, split_on sep (x ++ sep :: y) = pre ++ split_on sep y.
Proof.
  assert (G : exists pre, pre <> [] /\ split_on sep (x ++ sep :: y) = pre ++ split_on sep y).
  { induction x as [|c x IH].
    - exists [[]]. split; [discriminate|]. simpl. rewrite Ascii.eqb_refl. reflexivity.
    - destruct IH as (pre & Hne & Heq). simpl. rewrite Heq.
      destruct (Ascii.eqb c sep).
      + exists ([] :: pre). split; [discriminate|reflexivity].
      + destruct pre as [|p0 pre']; [contradiction|].
        exists ((c :: p0) :: pre'). split; [discriminate|reflexivity]. }
  destruct G as (pre & _ & H). exists pre. exact H.
Qed.

Lemma last_split_on (x y : str) :
  ~ In underscore y -> last (split_on underscore (x ++ underscore :: y)) [] = y.
Proof.
  intro H. destruct (split_on_app underscore x y) as [pre ->].
  rewrite split_on_no_sep by exact H. apply last_last.
Qed.

Lemma is_prefix_app (p s : str) : is_prefix p s = true -> exists t, s = p ++ t.
Proof.
  revert s. induction p as [|a p IH]; intros s H; [exists s; reflexivity|].
  destruct s as [|b s]; [discriminate|]. simpl in H. apply andb_prop in H as [Hab Hp].
  apply Ascii.eqb_eq in Hab. subst b. destruct (IH s Hp) as [t ->]. exists t. reflexivity.
Qed.

(** [s.replace(old, new)] leaves [s] alone when [old] has a character
    [s] does not. *)
Lemma replace_fuel_absent (c : ascii) (old new : str) (f : nat) (s : str) :
  In c old -> ~ In c s -> replace_fuel f old new s = s.
Proof.
  intros Hold. revert s. induction f as [|f IH]; intros s Hs; [reflexivity|].
  destruct s as [|d r]; [reflexivity|]. simpl.
  destruct (is_prefix old (d :: r)) eqn:Ep.
  - exfalso. apply is_prefix_app in Ep as [t Et]. apply Hs. rewrite Et. apply in_or_app. left. exact Hold.
  - rewrite IH; [reflexivity|]. intro Hr. apply Hs. right. exact Hr.
Qed.

Lemma str_replace_absent (c : ascii) (old new s : str) :
  In c old -> ~ In c s -> str_replace old new s = s.
Proof. intros. unfold str_replace. eapply replace_fuel_absent; eassumption. Qed.

End DigitFacts.

(** ** The ID generators *)
Module IDExtras.
Import PodcastIDM IDGen PyFacts DigitFacts Dataclass Examples CacheKeys MoreExamples.

Lemma cache_get_set_other (c : dict Z) (k key : str) (v : Z) :
  cache_get (dict_set c k v) key = if str_eqb key k then v else cache_get c key.
Proof. unfold cache_get. rewrite dict_get_set. destruct (str_eqb key k); reflexivity. Qed.

(** The IDs [generate_ids] returns, one per counter. *)
Lemma generate_ids_pids (g : IDGenerator) (date : datetime) (pn iname plat : str) (k : nat) :
  snd (generate_ids g date pn iname plat k) =
  map (fun j => new_PodcastID date pn iname plat
                  (cache_get (id_cache g) (pn ++ [underscore] ++ iname) + Z.of_nat j)) (seq 1 k).
Proof.
  revert g. induction k as [|k IH]; intro g; [reflexivity|].
  cbn [generate_ids generate_id].
  set (key := pn ++ [underscore] ++ iname).
  set (g1 := mk_gen (dict_set (id_cache g) key (cache_get (id_cache g) key + 1))).
  specialize (IH g1).
  destruct (generate_ids g1 date pn iname plat k) as [g2 ps] eqn:E.
  simpl in IH |- *. f_equal.
  rewrite IH. replace (pn ++ underscore :: iname) with key by reflexivity.
  rewrite IDClaims.cache_get_set.
  rewrite <- (seq_shift k 1), map_map. apply map_ext. intro j. f_equal. lia.
Qed.

(** The last [_]-separated piece of a base ID is its counter. *)
Lemma base_id_last (p : PodcastID) :
  last (split_on underscore (base_id p)) [] = fmt_02d (pid_count p).
Proof.
  unfold base_id.
  replace (strftime_yymmdd (pid_date p) ++ [underscore] ++ pid_podcast_name p ++ [underscore]
           ++ pid_interviewee_name p ++ [underscore] ++ pid_platform p ++ [underscore]
           ++ fmt_02d (pid_count p))
    with ((strftime_yymmdd (pid_date p) ++ [underscore] ++ pid_podcast_name p ++ [underscore]
           ++ pid_interviewee_name p ++ [underscore] ++ pid_platform p)
          ++ underscore :: fmt_02d (pid_count p))
    by (rewrite <- !app_assoc; reflexivity).
  apply last_split_on, fmt_02d_no_us.
Qed.

Lemma base_id_count (p q : PodcastID) : base_id p = base_id q -> pid_count p = pid_count q.
Proof.
  intro H. apply fmt_02d_inj. rewrite <- !base_id_last. rewrite H. reflexivity.
Qed.

Lemma in_youtube_ : In underscore (s_ "youtube_").
Proof. simpl. tauto. Qed.
Lemma in_vimeo_ : In underscore (s_ "vimeo_").
Proof. simpl. tauto. Qed.

(** The counter [_load_cache] reads back from a base ID. *)
Lemma count_of_base_id (p : PodcastID) :
  py_int (str_replace (s_ "youtube_") [] (str_replace (s_ "vimeo_") []
            (last (split_on underscore (base_id p)) []))) = Some (pid_count p).
Proof.
  rewrite base_id_last.
  rewrite (str_replace_absent underscore (s_ "vimeo_")) by (apply in_vimeo_ || apply fmt_02d_no_us).
  rewrite (str_replace_absent underscore (s_ "youtube_")) by (apply in_youtube_ || apply fmt_02d_no_us).
  apply py_int_fmt_02d.
Qed.

Lemma NoDup_map_inj {A B} (f : A -> B) (l : list A) :
  (forall x y, In x l -> In y l -> f x = f y -> x = y) -> NoDup l -> NoDup (map f l).
Proof.
  induction l as [|a r IH]; intros Hi Hn; simpl; [constructor|].
  inversion Hn as [|? ? Ha Hr]; subst. constructor.
  - intro Hin. apply in_map_iff in Hin as (x & Hx & Hxr).
    assert (x = a) by (apply Hi; [right|left|]; auto). subst. contradiction.
  - apply IH; [intros x y Hx Hy; apply Hi; right; assumption | exact Hr].
Qed.

Lemma load_cache_step_eq (cache : dict Z) (entry : pyval) :
  load_cache_step cache entry =
  (kc <- entry_count entry ;; Ok (dict_set cache (fst kc) (Z.max (cache_get cache (fst kc)) (snd kc)))).
Proof.
  unfold load_cache_step, entry_count.
  destruct (getitem entry (s_ "podcast_name")) as [pn|]; [|reflexivity]. cbn [bind].
  destruct (getitem entry (s_ "interviewee")) as [iv|]; [|reflexivity]. cbn [bind].
  destruct (getitem iv (s_ "name")) as [nm|]; [|reflexivity]. cbn [bind].
  destruct (getitem entry (s_ "episode_id")) as [eid|]; [|reflexivity]. cbn [bind].
  destruct eid; try reflexivity. destruct (py_int _); reflexivity.
Qed.

Lemma load_cache_fold (items : list pyval) (c c' : dict Z) :
  fold_result load_cache_step items c = Ok c' ->
  exists kcs, map_result entry_count items = Ok kcs /\
    forall key, cache_get c' key = fold_left Z.max (counts_for key kcs) (cache_get c key).
Proof.
  revert c. induction items as [|x r IH]; intros c H.
  - injection H as <-. exists []. split; reflexivity.
  - simpl in H. rewrite load_cache_step_eq in H.
    destruct (entry_count x) as [[k0 n0]|err] eqn:Ex; [|discriminate H]. simpl in H.
    destruct (IH _ H) as (kcs & Hm & Hc).
    exists ((k0, n0) :: kcs). split; [simpl; rewrite Ex, Hm; reflexivity|].
    intro key. rewrite Hc, cache_get_set_other. unfold counts_for. simpl.
    rewrite (str_eqb_sym k0 key). destruct (str_eqb key k0) eqn:E; [|reflexivity].
    apply str_eqb_eq in E. subst. reflexivity.
Qed.

Lemma fold_max_ge_init (l : list Z) (a : Z) : a <= fold_left Z.max l a.
Proof.
  revert a. induction l as [|x r IH]; intro a; simpl; [lia|].
  specialize (IH (Z.max a x)). lia.
Qed.

Lemma fold_max_ge (l : list Z) (a n : Z) : In n l -> n <= fold_left Z.max l a.
Proof.
  revert a. induction l as [|x r IH]; intros a H; [destruct H|].
  destruct H as [->|H]; simpl.
  - pose proof (fold_max_ge_init r (Z.max a n)). lia.
  - apply IH, H.
Qed.

Lemma map_result_in {A B} (f : A -> result B) (l : list A) (ys : list B) (x : A) (y : B) :
  map_result f l = Ok ys -> In x l -> f x = Ok y -> In y ys.
Proof.
  revert ys. induction l as [|a r IH]; intros ys Hm Hin Hf; [destruct Hin|].
  simpl in Hm. destruct (f a) as [ya|] eqn:Ea; [|discriminate Hm]. simpl in Hm.
  destruct (map_result f r) as [ys'|] eqn:Er; [|discriminate Hm]. injection Hm as <-.
  destruct Hin as [<-|Hin].
  - left. congruence.
  - right. apply (IH ys' eq_refl Hin Hf).
Qed.

Lemma init_cache (text : str) (items : list pyval) (g : IDGenerator) :
  json_loads text = JOk (PList items) -> IDGenerator_init (Some text) = Ok g ->
  fold_result load_cache_step items [] = Ok (id_cache g).
Proof.
  intros Hj Hg. unfold IDGenerator_init, _load_cache in Hg. rewrite Hj in Hg. simpl in Hg.
  destruct (fold_result load_cache_step items []) as [c|]; [|discriminate Hg].
  simpl in Hg. injection Hg as <-. reflexivity.
Qed.

(** A generator loaded from [podcasts.json] numbers the next episode of a
    podcast and interviewee one past the largest counter of the stored
    entries with those names (counting from 0). *)
Theorem generate_id_after_stored (text : str) (items : list pyval) (g : IDGenerator)
    (date : datetime) (pn iname platform : str) :
  json_loads text = JOk (PList items) -> IDGenerator_init (Some text) = Ok g ->
  exists kcs, map_result entry_count items = Ok kcs /\
    pid_count (snd (generate_id g date pn iname platform))
    = fold_left Z.max (counts_for (pn ++ [underscore] ++ iname) kcs) 0 + 1.
Proof.
  intros Hj Hg. destruct (load_cache_fold items [] (id_cache g) (init_cache text items g Hj Hg))
    as (kcs & Hm & Hc).
  exists kcs. split; [exact Hm|]. simpl. rewrite Hc. reflexivity.
Qed.

Lemma generate_id_after_stored_witness :
  pid_count (snd (generate_id one_entry_gen danny_date (s_ "Danny Jones") (s_ "Jack Kruse")
                    (s_ "youtube"))) = 2.
Proof.
  assert (Hj : json_loads one_entry_text = JOk (PList one_entry_items)) by (vm_compute; reflexivity).
  assert (Hg : IDGenerator_init (Some one_entry_text) = Ok one_entry_gen) by (vm_compute; reflexivity).
  destruct (generate_id_after_stored one_entry_text one_entry_items one_entry_gen danny_date
              (s_ "Danny Jones") (s_ "Jack Kruse") (s_ "youtube") Hj Hg) as (kcs & Hm & ->).
  vm_compute in Hm. injection Hm as <-. vm_compute. reflexivity.
Defined.

(** Successive [generate_id] calls of one generator, with the same
    arguments, never return the same ID twice. *)
Theorem generate_ids_distinct (g : IDGenerator) (date : datetime) (pn iname platform : str) (k : nat) :
  NoDup (map base_id (snd (generate_ids g date pn iname platform k))).
Proof.
  rewrite generate_ids_pids, map_map. apply NoDup_map_inj; [|apply seq_NoDup].
  intros x y _ _ H. apply base_id_count in H. simpl in H. lia.
Qed.

(** Every ID a run of [generate_id] calls hands out is numbered past what
    the generator's cache held, at the start, for that call's key. *)
Lemma generate_id_calls_above (g : IDGenerator) (calls : list (datetime * str * str * str))
    (d : datetime) (pn iname plat : str) (p : PodcastID) :
  In ((d, pn, iname, plat), p) (combine calls (snd (generate_id_calls g calls))) ->
  cache_get (id_cache g) (pn ++ [underscore] ++ iname) < pid_count p.
Proof.
  revert g. induction calls as [|[[[d0 pn0] iname0] plat0] r IH]; intros g Hin; [destruct Hin|].
  cbn [generate_id_calls generate_id] in Hin.
  set (key0 := pn0 ++ [underscore] ++ iname0) in *.
  set (g1 := mk_gen (dict_set (id_cache g) key0 (cache_get (id_cache g) key0 + 1))) in *.
  destruct (generate_id_calls g1 r) as [g2 ps] eqn:E.
  simpl in Hin. destruct Hin as [Hh|Hin].
  - injection Hh; intros Hp' Hpl Hi' Hpn' Hd; subst. unfold key0. simpl. lia.
  - specialize (IH g1). rewrite E in IH. specialize (IH Hin).
    unfold g1 in IH. cbn [id_cache] in IH. rewrite cache_get_set_other in IH.
    destruct (str_eqb _ key0) eqn:Ek; [|exact IH].
    apply str_eqb_eq in Ek. rewrite Ek. lia.
Qed.

(** The IDs a generator loaded from [podcasts.json] hands out, over any run
    of [generate_id] calls (their names, dates and platforms free), are
    never the [episode_id] of a stored entry with the call's podcast and
    interviewee names. *)
Theorem generate_ids_fresh (text : str) (items : list pyval) (g : IDGenerator)
    (calls : list (datetime * str * str * str)) (date : datetime) (pn iname platform : str)
    (item : pyval) (p : PodcastID) :
  json_loads text = JOk (PList items) -> IDGenerator_init (Some text) = Ok g ->
  In item items ->
  getitem item (s_ "podcast_name") = Ok (PStr pn) ->
  (iv <- getitem item (s_ "interviewee") ;; getitem iv (s_ "name")) = Ok (PStr iname) ->
  In ((date, pn, iname, platform), p) (combine calls (snd (generate_id_calls g calls))) ->
  getitem item (s_ "episode_id") <> Ok (PStr (base_id p)).
Proof.
  intros Hj Hg Hin Hpn Hnm Hp Heid.
  destruct (load_cache_fold items [] (id_cache g) (init_cache text items g Hj Hg)) as (kcs & Hm & Hc).
  apply generate_id_calls_above in Hp.
  set (key := pn ++ [underscore] ++ iname) in *.
  assert (He : entry_count item = Ok (key, pid_count p)).
  { unfold entry_count. rewrite Hpn. cbn [bind].
    destruct (getitem item (s_ "interviewee")) as [iv|]; [|discriminate Hnm]. cbn [bind] in Hnm |- *.
    rewrite Hnm, Heid. cbn [bind]. rewrite count_of_base_id. reflexivity. }
  pose proof (map_result_in _ _ _ _ _ Hm Hin He) as Hk.
  assert (Hle : pid_count p <= cache_get (id_cache g) key).
  { rewrite Hc. apply fold_max_ge. unfold counts_for.
    apply in_map_iff. exists (key, pid_count p). split; [reflexivity|].
    apply filter_In. split; [exact Hk | apply str_eqb_refl]. }
  lia.
Qed.

Lemma generate_ids_fresh_witness :
  getitem (hd PNone one_entry_items) (s_ "episode_id")
  <> Ok (PStr (base_id (nth 2 (snd (generate_id_calls one_entry_gen
       [(danny_date, s_ "Danny Jones", s_ "Jack Kruse", s_ "youtube");
        (mk_datetime 2024 10 2 0 0 0 0, s_ "Other Show", s_ "Jack Kruse", s_ "vimeo");
        (mk_datetime 2025 1 5 0 0 0 0, s_ "Danny Jones", s_ "Jack Kruse", s_ "vimeo")]))
       (new_PodcastID danny_date [] [] [] 0)))).
Proof.
  apply (generate_ids_fresh one_entry_text one_entry_items one_entry_gen
           [(danny_date, s_ "Danny Jones", s_ "Jack Kruse", s_ "youtube");
            (mk_datetime 2024 10 2 0 0 0 0, s_ "Other Show", s_ "Jack Kruse", s_ "vimeo");
            (mk_datetime 2025 1 5 0 0 0 0, s_ "Danny Jones", s_ "Jack Kruse", s_ "vimeo")]
           (mk_datetime 2025 1 5 0 0 0 0) (s_ "Danny Jones") (s_ "Jack Kruse") (s_ "vimeo")).
  - vm_compute. reflexivity.
  - vm_compute. reflexivity.
  - vm_compute. left. reflexivity.
  - vm_compute. reflexivity.
  - vm_compute. reflexivity.
  - vm_compute. right. right. left. reflexivity.
Defined.
End IDExtras.

Module OldIDExtras.
Import PodcastIDM IDGen PyFacts Dataclass World Examples CacheKeys MoreExamples IDExtras.

Lemma load_id_cache_step_eq (cache : dict Z) (ep : pyval) :
  OldStore.load_id_cache_step cache ep =
  (ko <- old_episode_key ep ;;
   Ok (match ko with Some k => dict_set cache k (cache_get cache k + 1) | None => cache end)).
Proof.
  unfold OldStore.load_id_cache_step, old_episode_key.
  destruct (OldStore.py_in (s_ "podcast_name") ep) as [a|]; [|reflexivity]. cbn [bind].
  destruct (if a then _ else _) as [b|]; [|reflexivity]. cbn [bind].
  destruct b; [|reflexivity].
  destruct (getitem ep (s_ "podcast_name")) as [pn|]; [|reflexivity]. cbn [bind].
  destruct (getitem ep (s_ "interviewee")) as [iv|]; [|reflexivity]. cbn [bind].
  destruct (getitem iv (s_ "name")) as [nm|]; reflexivity.
Qed.

Lemma load_id_cache_fold (items : list pyval) (c c' : dict Z) :
  fold_result OldStore.load_id_cache_step items c = Ok c' ->
  exists keys, map_result old_episode_key items = Ok keys /\
    forall key, cache_get c' key = cache_get c key + key_count key keys.
Proof.
  revert c. induction items as [|x r IH]; intros c H.
  - injection H as <-. exists []. split; [reflexivity|]. intro key. unfold key_count. simpl. lia.
  - simpl in H. rewrite load_id_cache_step_eq in H.
    destruct (old_episode_key x) as [ko|err] eqn:Ex; [|discriminate H]. simpl in H.
    destruct (IH _ H) as (keys & Hm & Hc).
    exists (ko :: keys). split; [simpl; rewrite Ex, Hm; reflexivity|].
    intro key. rewrite Hc. unfold key_count. simpl.
    destruct ko as [k0|]; [|reflexivity].
    rewrite cache_get_set_other, (str_eqb_sym k0 key).
    destruct (str_eqb key k0) eqn:E; simpl; [|reflexivity].
    apply str_eqb_eq in E. subst. lia.
Qed.

(** The older generator, loaded from [Config.DATABASE], numbers the next
    episode of a podcast and interviewee one past the number of stored
    records that have both a [podcast_name] and an [interviewee] and carry
    those names, whatever their own counters are. *)
Theorem old_generate_id_counts (text : str) (items : list pyval) (g : IDGenerator)
    (date : datetime) (pn iname platform : str) :
  json_loads text = JOk (PList items) -> OldStore.IDGenerator_init (Some text) = Ok g ->
  exists keys, map_result old_episode_key items = Ok keys /\
    pid_count (snd (generate_id g date pn iname platform))
    = key_count (pn ++ [underscore] ++ iname) keys + 1.
Proof.
  intros Hj Hg. unfold OldStore.IDGenerator_init, decode_file in Hg. rewrite Hj in Hg. simpl in Hg.
  destruct (fold_result OldStore.load_id_cache_step items []) as [c|] eqn:Ef; [|discriminate Hg].
  simpl in Hg. injection Hg as <-.
  destruct (load_id_cache_fold items [] c Ef) as (keys & Hm & Hc).
  exists keys. split; [exact Hm|]. simpl. rewrite Hc. reflexivity.
Qed.

Lemma old_generate_id_counts_witness :
  pid_count (snd (generate_id danny_database_gen danny_date (s_ "Danny Jones") (s_ "Jack Kruse")
                    (s_ "youtube"))) = 2.
Proof.
  assert (Hj : json_loads danny_database = JOk (PList [danny_record])) by (vm_compute; reflexivity).
  assert (Hg : OldStore.IDGenerator_init (Some danny_database) = Ok danny_database_gen)
    by (vm_compute; reflexivity).
  destruct (old_generate_id_counts danny_database [danny_record] danny_database_gen danny_date
              (s_ "Danny Jones") (s_ "Jack Kruse") (s_ "youtube") Hj Hg) as (keys & Hm & ->).
  vm_compute in Hm. injection Hm as <-. vm_compute. reflexivity.
Defined.

Lemma old_construct_entry (url platform : str) (t pn iv : pyval) (eid dt : str) :
  construct (s_ "PodcastEntry") OldStore.PodcastEntry_fields
    [(s_ "url", PStr url); (s_ "platform", PStr platform); (s_ "title", t);
     (s_ "podcast_name", pn); (s_ "interviewee", iv);
     (s_ "episode_id", PStr eid); (s_ "date", PStr dt)]
  = Ok (PObj (s_ "PodcastEntry")
          [(s_ "url", PStr url); (s_ "platform", PStr platform); (s_ "title", t);
           (s_ "podcast_name", pn); (s_ "interviewee", iv);
           (s_ "episode_id", PStr eid); (s_ "date", PStr dt);
           (s_ "status", PStr (s_ "pending")); (s_ "episodes_file", PStr []);
           (s_ "claims_file", PStr []); (s_ "transcripts_file", PStr [])]).
Proof. reflexivity. Qed.

Lemma old_new_entry_id (sp : str -> option datetime) (db : option str) (url1 url2 platform : str)
    (md : dict pyval) (e1 e2 : pyval) :
  OldStore.new_entry sp db url1 platform md = Ok e1 ->
  OldStore.new_entry sp db url2 platform md = Ok e2 ->
  getattr e1 (s_ "episode_id") = getattr e2 (s_ "episode_id").
Proof.
  unfold OldStore.new_entry. intros H1 H2. revert H2.
  repeat (unfold bind in H1 |- *; match type of H1 with
  | context [match ?x with _ => _ end] => destruct x eqn:?; try discriminate H1
  end).
  rewrite old_construct_entry in H1 |- *. injection H1 as <-.
  intro H2. injection H2 as <-. reflexivity.
Qed.

Lemma old_add_entry_ok (sp : str -> option datetime) (st st' : State) (url platform : str)
    (md : dict pyval) (e : pyval) :
  OldStore.add_entry sp url platform md st = (st', Ok e) ->
  OldStore.new_entry sp (database_file st) url platform md = Ok e /\ database_file st' = database_file st.
Proof.
  unfold OldStore.add_entry. destruct (existsb _ _); [discriminate|].
  destruct (OldStore.new_entry _ _ _ _ _) as [e0|err] eqn:E; [|discriminate].
  destruct (OldStore._save _) as [st1 r] eqn:Es. destruct r as [u|err]; [|discriminate].
  intro H. injection H as <- <-. split; [reflexivity|].
  pose proof (StoreClaims.save_entries_state OldStore.classes (set_entries (entries st ++ [e0]) st))
    as [f Hf].
  unfold OldStore._save in Es. rewrite Es in Hf. simpl in Hf. rewrite Hf. reflexivity.
Qed.

(** The older store never writes [Config.DATABASE], from which its
    generator counts: two successful [add_entry] calls in a row with the
    same metadata and platform (the URLs must differ) give both entries
    the same [episode_id]. *)
Theorem old_add_entry_same_id (sp : str -> option datetime) (st st1 st2 : State)
    (url1 url2 platform : str) (md : dict pyval) (e1 e2 : pyval) :
  OldStore.add_entry sp url1 platform md st = (st1, Ok e1) ->
  OldStore.add_entry sp url2 platform md st1 = (st2, Ok e2) ->
  database_file st2 = database_file st /\
  getattr e1 (s_ "episode_id") = getattr e2 (s_ "episode_id").
Proof.
  intros H1 H2. apply old_add_entry_ok in H1 as [N1 D1]. apply old_add_entry_ok in H2 as [N2 D2].
  rewrite D1 in N2. split; [congruence|]. eapply old_new_entry_id; eassumption.
Qed.

Lemma old_add_entry_same_id_witness :
  getattr (result_value (snd old_second_run)) (s_ "episode_id") = Some (PStr danny_id).
Proof.
  assert (H1 : OldStore.add_entry parse_ymd danny_url (s_ "youtube") danny_metadata_old empty_store
               = (fst old_first_run, Ok (result_value (snd old_first_run)))) by (vm_compute; reflexivity).
  assert (H2 : OldStore.add_entry parse_ymd other_url (s_ "youtube") danny_metadata_old (fst old_first_run)
               = (fst old_second_run, Ok (result_value (snd old_second_run)))) by (vm_compute; reflexivity).
  destruct (old_add_entry_same_id parse_ymd empty_store _ _ danny_url other_url (s_ "youtube")
              danny_metadata_old _ _ H1 H2) as [_ <-].
  vm_compute. reflexivity.
Defined.

End OldIDExtras.

Module StoreExtras.
Import PodcastIDM PyFacts Dataclass World StoreFacts StoreClaims Examples.

Lemma find_index_first {A} (p : A -> bool) (l : list A) (x : A) :
  (exists i, find_index p l = Some i /\ nth_error l i = Some x) <->
  exists pre post, l = pre ++ x :: post /\ p x = true /\ forallb (fun y => negb (p y)) pre = true.
Proof.
  induction l as [|a r IH].
  - split; [intros (i & H & _); discriminate H|].
    intros (pre & post & H & _). destruct pre; discriminate H.
  - simpl. split.
    + intros (i & Hi & Hn). destruct (p a) eqn:Ea.
      * injection Hi as <-. injection Hn as <-. exists [], r. auto.
      * destruct (find_index p r) as [i'|] eqn:Er; [|discriminate Hi]. injection Hi as <-.
        destruct (proj1 IH (ex_intro _ i' (conj eq_refl Hn))) as (pre & post & -> & Hx & Hpre).
        exists (a :: pre), post. simpl. rewrite Ea, Hpre. auto.
    + intros (pre & post & Hl & Hx & Hpre). destruct pre as [|b pre].
      * injection Hl as -> ->. rewrite Hx. exists O. auto.
      * injection Hl as -> Hr. simpl in Hpre. apply andb_prop in Hpre as [Hb Hpre].
        apply negb_true_iff in Hb. rewrite Hb.
        destruct (proj2 IH (ex_intro _ pre (ex_intro _ post (conj Hr (conj Hx Hpre))))) as (i & Hi & Hn).
        exists (S i). rewrite Hi. auto.
Qed.

Lemma find_index_none {A} (p : A -> bool) (l : list A) :
  find_index p l = None <-> forall x, In x l -> p x = false.
Proof.
  induction l as [|a r IH]; simpl; [split; [intros _ x []|reflexivity]|].
  destruct (p a) eqn:Ea; split.
  - discriminate.
  - intro H. rewrite (H a (or_introl eq_refl)) in Ea. discriminate.
  - intros H x [<-|Hx]; [exact Ea|]. destruct (find_index p r); [discriminate H|].
    apply IH; [reflexivity|exact Hx].
  - intro H. destruct (find_index p r) eqn:Er; [|reflexivity].
    exfalso. assert (Hn : Some n = None) by (apply IH; intros x Hx; apply H; right; exact Hx).
    discriminate Hn.
Qed.

(** [get_entry] returns the first entry whose [episode_id] is the one
    asked for, and [None] exactly when no entry has it. *)
Theorem get_entry_first (st : State) (episode_id : str) :
  (forall e, Store.get_entry episode_id st = Some e <->
     exists pre post, entries st = pre ++ e :: post /\ has_episode_id episode_id e = true /\
       forallb (fun x => negb (has_episode_id episode_id x)) pre = true)
  /\ (Store.get_entry episode_id st = None <->
      forall e, In e (entries st) -> has_episode_id episode_id e = false).
Proof.
  split.
  - intro e. rewrite <- find_index_first. unfold Store.get_entry.
    destruct (find_index _ _) as [i|]; split.
    + intro H. exists i. auto.
    + intros (j & Hj & Hn). injection Hj as <-. exact Hn.
    + discriminate.
    + intros (j & Hj & _). discriminate Hj.
  - rewrite <- find_index_none. unfold Store.get_entry.
    destruct (find_index _ _) as [i|] eqn:Ei; split; try reflexivity.
    + intro H. apply find_index_lt in Ei. apply nth_error_None in H. lia.
    + discriminate.
Qed.

(** Updating an [episode_id] no entry has: the current store raises
    [ValueError("No entry found with episode_id: ...")] and the older one
    returns [None]; neither changes the entries or writes a file. *)
Theorem update_entry_absent (st : State) (episode_id : str) (kwargs : dict pyval) :
  has_key kwargs (s_ "self") = false -> has_key kwargs (s_ "episode_id") = false ->
  (forall e, In e (entries st) -> has_episode_id episode_id e = false) ->
  Store.update_entry episode_id kwargs st
    = (st, Err (ValueError (s_ "No entry found with episode_id: " ++ episode_id)))
  /\ OldStore.update_entry episode_id kwargs st = (st, Ok PNone).
Proof.
  intros Hs He Hn. apply find_index_none in Hn.
  unfold Store.update_entry, OldStore.update_entry. rewrite Hs, He, Hn. split; reflexivity.
Qed.

Lemma update_entry_absent_witness :
  Store.update_entry (s_ "nope") update_kwargs later_store
    = (later_store, Err (ValueError (s_ "No entry found with episode_id: nope"))).
Proof.
  apply (update_entry_absent later_store (s_ "nope") update_kwargs).
  - vm_compute. reflexivity.
  - vm_compute. reflexivity.
  - intros e He. vm_compute in He. destruct He as [<-|[]]. vm_compute. reflexivity.
Defined.

(** A successful [update_entry] of the current store stamps the updated
    entry's [updated_at] with the time of the call, keeps every other
    entry, and leaves the file holding the JSON of the whole new list. *)
Theorem update_entry_ok_saves (st st' : State) (episode_id : str) (kwargs : dict pyval) :
  Store.update_entry episode_id kwargs st = (st', Ok tt) ->
  exists i, find_index (has_episode_id episode_id) (entries st) = Some i
  /\ getattr (nth i (entries st') PNone) (s_ "updated_at") = Some (PStr (clock st))
  /\ List.length (entries st') = List.length (entries st)
  /\ (forall j, j <> i -> nth_error (entries st') j = nth_error (entries st) j)
  /\ exists docs, map_result (to_dict Store.classes) (entries st') = Ok docs
     /\ podcast_list_file st' = json_dumps (PList docs).
Proof.
  unfold Store.update_entry.
  destruct (has_key kwargs (s_ "self") || has_key kwargs (s_ "episode_id")); [discriminate|].
  destruct (find_index _ _) as [i|] eqn:Ei; [|discriminate].
  destruct (Store.apply_updates _ _ _) as [[| | | | | |cls attrs]|err]; try discriminate.
  destruct (has_key attrs (s_ "update_timestamp")); [discriminate|].
  intro H. unfold Store._save in H. apply save_entries_ok in H as (docs & Hm & ->).
  exists i. split; [reflexivity|]. simpl.
  assert (Hlt : (i < List.length (entries st))%nat) by (eapply find_index_lt; exact Ei).
  split; [|split; [|split]].
  - rewrite replace_nth_same by exact Hlt. simpl. rewrite dict_get_set, str_eqb_refl. reflexivity.
  - apply replace_nth_length.
  - intros j Hj. apply replace_nth_other, Hj.
  - exists docs. split; [exact Hm|reflexivity].
Qed.

Lemma update_entry_ok_saves_witness :
  getattr (nth 0 (entries (fst (Store.update_entry danny_id update_kwargs later_store))) PNone)
    (s_ "updated_at") = Some (PStr (s_ "2024-10-02T08:00:00")).
Proof.
  assert (H : Store.update_entry danny_id update_kwargs later_store
              = (fst (Store.update_entry danny_id update_kwargs later_store), Ok tt))
    by (vm_compute; reflexivity).
  destruct (update_entry_ok_saves _ _ _ _ H) as (i & Hi & Hu & _).
  vm_compute in Hi. injection Hi as <-. exact Hu.
Defined.

End StoreExtras.

Module CommandExtras.
Import PodcastIDM PyFacts Dataclass World StoreFacts StoreClaims StoreExtras Examples MoreExamples
  Commands CommandExamples.

Definition construct_value (kw : dict pyval) (f : str * option pyval) : str * pyval :=
  (fst f, match dict_get kw (fst f), snd f with
          | Some v, _ => v
          | None, Some v => v
          | None, None => PNone
          end).

Lemma construct_fold (kw : dict pyval) (fs : fields) (acc r : list (str * pyval)) :
  fold_result (fun acc f =>
     match dict_get kw (fst f), snd f with
     | Some v, _ => Ok (acc ++ [(fst f, v)])
     | None, Some v => Ok (acc ++ [(fst f, v)])
     | None, None => Err (TypeError (s_ "missing required argument"))
     end) fs acc = Ok r ->
  r = acc ++ map (construct_value kw) fs.
Proof.
  revert acc. induction fs as [|f fs IH]; intros acc H.
  - simpl in H. injection H as <-. rewrite app_nil_r. reflexivity.
  - simpl in H. simpl map. unfold construct_value at 1.
    destruct (dict_get kw (fst f)) as [v|] eqn:Ev, (snd f) as [d|] eqn:Ed; try discriminate H;
      simpl in H; apply IH in H; rewrite H, <- app_assoc; reflexivity.
Qed.

Lemma construct_ok (cls : str) (fs : fields) (kw : dict pyval) (v : pyval) :
  construct cls fs kw = Ok v -> v = PObj cls (map (construct_value kw) fs).
Proof.
  unfold construct. destruct (existsb _ kw); [discriminate|].
  destruct (fold_result _ fs []) as [attrs|] eqn:E; [|discriminate].
  simpl. intro H. injection H as <-. apply construct_fold in E. rewrite E. reflexivity.
Qed.

Lemma load_entry_shown (item e : pyval) :
  load_entry Store.PodcastEntry_fields Store.Interviewee_fields item = Ok e ->
  show_existing e = Ok tt /\ truthy e = true /\
  exists eid, getattr e (s_ "episode_id") = Some eid.
Proof.
  unfold load_entry. intro H.
  destruct (as_mapping item) as [kw|]; unfold bind in H; [|discriminate].
  destruct (getitem item (s_ "interviewee")) as [iv|]; unfold bind in H; [|discriminate].
  destruct (as_mapping iv) as [ikw|]; unfold bind in H; [|discriminate].
  destruct (construct (s_ "Interviewee") _ ikw) as [io|] eqn:Ei; unfold bind in H; [|discriminate].
  apply construct_ok in H, Ei. subst e io.
  remember (dict_set kw (s_ "interviewee") _) as kw' eqn:Ek.
  assert (Hk : dict_get kw' (s_ "interviewee") =
                 Some (PObj (s_ "Interviewee") (map (construct_value ikw) Store.Interviewee_fields)))
    by (subst kw'; rewrite dict_get_set, str_eqb_refl; reflexivity).
  clear Ek. split; [|split].
  - unfold show_existing, attr. simpl in Hk |- *. rewrite Hk. reflexivity.
  - reflexivity.
  - eexists. reflexivity.
Qed.

Lemma map_result_out {A B} (f : A -> result B) (l : list A) (ys : list B) (y : B) :
  map_result f l = Ok ys -> In y ys -> exists x, In x l /\ f x = Ok y.
Proof.
  revert ys. induction l as [|a r IH]; intros ys Hm Hin; simpl in Hm.
  - injection Hm as <-. destruct Hin.
  - destruct (f a) as [ya|] eqn:Ea; unfold bind in Hm; [|discriminate].
    destruct (map_result f r) as [ys'|] eqn:Er; [|discriminate].
    injection Hm as <-. destruct Hin as [<-|Hin].
    + exists a. split; [left|]; auto.
    + destruct (IH ys' eq_refl Hin) as [x [Hx Hf]]. exists x. split; [right|]; auto.
Qed.

Lemma init_state (st : State) :
  exists es, fst (Store.PodcastList_init st) = set_entries es st.
Proof.
  unfold Store.PodcastList_init, init_entries. simpl.
  destruct (podcast_list_file st); [destruct (bind _ _)|]; eexists; reflexivity.
Qed.

Lemma init_entries_shown (st st1 : State) (u : unit) (e : pyval) :
  Store.PodcastList_init st = (st1, Ok u) -> In e (entries st1) ->
  show_existing e = Ok tt /\ truthy e = true /\
  exists eid, getattr e (s_ "episode_id") = Some eid.
Proof.
  unfold Store.PodcastList_init, init_entries. simpl.
  destruct (podcast_list_file st) as [text|].
  - destruct (bind _ _) as [es|err] eqn:E; intros H Hin; [|discriminate H].
    injection H as <- _. simpl in Hin. destruct (decode_file text) as [data|]; unfold bind in E; [|discriminate].
    destruct (IDGen.iter_items data) as [items|]; [|discriminate].
    destruct (map_result_out _ _ _ _ E Hin) as [item [_ Hl]].
    exact (load_entry_shown item e Hl).
  - intros H Hin. injection H as <- _. destruct Hin.
Qed.

Ltac split_matches :=
  repeat match goal with
  | |- context [match ?x with _ => _ end] => destruct x eqn:?
  end.

(** With a platform other than [youtube] and [vimeo], [cmd_add_podcast]
    never changes the podcast list file; when the URL is new, or the user
    confirms the overwrite, it raises [ValueError] naming the platform. *)
Theorem cmd_add_podcast_unsupported (fi : str -> option datetime) (answer : str)
    (yt vm : str -> result (dict pyval)) (url platform : str) (st : State) :
  str_eqb platform (s_ "youtube") = false -> str_eqb platform (s_ "vimeo") = false ->
  podcast_list_file (fst (cmd_add_podcast fi answer yt vm url platform st)) = podcast_list_file st /\
  (forall st1 u, Store.PodcastList_init st = (st1, Ok u) ->
     (forall e, In e (entries st1) -> OldStore.has_url url e = false) \/
     str_eqb (lower answer) (s_ "y") = true ->
     snd (cmd_add_podcast fi answer yt vm url platform st) =
       Err (ValueError (s_ "Unsupported platform: " ++ platform))).
Proof.
  intros Hy Hv. destruct (init_state st) as [es Hes].
  unfold cmd_add_podcast, fetch_and_add. rewrite Hy, Hv.
  destruct (Store.PodcastList_init st) as [st1 r1] eqn:Ei. simpl in Hes. subst st1.
  split.
  - destruct r1; [|reflexivity]. split_matches; reflexivity.
  - intros st1 u Hi Hcase. injection Hi as Hs1 Hr1. subst st1 r1.
    change (entries (set_entries es st)) with es in *.
    destruct (find_index (OldStore.has_url url) es) as [i|] eqn:Ef.
    + assert (Hlt := find_index_lt _ _ _ Ef). assert (Hn := find_index_nth _ _ _ PNone Ef).
      destruct (init_entries_shown st _ u (nth i es PNone) Ei (nth_In _ _ Hlt))
        as [Hs [Ht [eid He]]].
      rewrite Ht, Hs. destruct Hcase as [Hno|Hans].
      * rewrite (Hno _ (nth_In _ _ Hlt)) in Hn. discriminate.
      * rewrite Hans. cbn [negb]. unfold attr. rewrite He. reflexivity.
    + reflexivity.
Qed.


Lemma new_entry_existing_id (fi : str -> option datetime) (pj : option str) (ct url platform : str)
    (md : dict pyval) (eid0 e : pyval) :
  truthy eid0 = true -> Store.new_entry fi pj ct url platform md eid0 = Ok e ->
  getattr e (s_ "episode_id") = Some eid0.
Proof.
  intros Ht. unfold Store.new_entry. rewrite Ht. intro H.
  repeat (unfold bind in H; match type of H with
  | context [match ?x with _ => _ end] => destruct x eqn:?; try discriminate H
  end).
  all: rewrite construct_entry in H; injection H as <-; reflexivity.
Qed.

Lemma new_entry_url (fi : str -> option datetime) (pj : option str) (ct url platform : str)
    (md : dict pyval) (eid0 e : pyval) :
  Store.new_entry fi pj ct url platform md eid0 = Ok e ->
  OldStore.has_url url e = true /\ getattr e (s_ "platform") = Some (PStr platform).
Proof.
  intro H. destruct (new_entry_ok _ _ _ _ _ _ _ _ H) as (t & pn & iv & eid & dt & w & pc & ->).
  unfold OldStore.has_url. simpl. rewrite str_eqb_refl. split; reflexivity.
Qed.

(** The result of [fetch_and_add] when it succeeds. *)
Lemma fetch_and_add_ok (fi : str -> option datetime) (yt vm : str -> result (dict pyval))
    (url platform : str) (eid0 : pyval) (st st' : State) :
  fetch_and_add fi yt vm url platform eid0 st = (st', Ok tt) ->
  exists md e docs,
    Store.new_entry fi (podcast_list_file st) (clock st) url platform md eid0 = Ok e /\
    entries st' = entries st ++ [e] /\
    map_result (to_dict Store.classes) (entries st') = Ok docs /\
    podcast_list_file st' = json_dumps (PList docs).
Proof.
  unfold fetch_and_add.
  destruct (if str_eqb platform (s_ "youtube") then _ else _) as [md|err]; [|discriminate].
  destruct (Store.add_entry fi url platform md eid0 st) as [st2 [e|err]] eqn:Ea; [|discriminate].
  intro H. injection H as <- _.
  destruct (add_entry_ok _ _ _ _ _ _ _ _ Ea) as [Hn [docs [Hd ->]]].
  exists md, e, docs. repeat split; assumption.
Qed.

(** When the user declines to overwrite an entry whose URL is already in
    the list, [cmd_add_podcast] returns without error and leaves the state
    as [PodcastList()] loaded it; the podcast list file is not touched. *)
Theorem cmd_add_podcast_declined (fi : str -> option datetime) (answer : str)
    (yt vm : str -> result (dict pyval)) (url platform : str) (st st1 : State) (u : unit) :
  Store.PodcastList_init st = (st1, Ok u) ->
  (exists e, In e (entries st1) /\ OldStore.has_url url e = true) ->
  str_eqb (lower answer) (s_ "y") = false ->
  cmd_add_podcast fi answer yt vm url platform st = (st1, Ok tt) /\
  podcast_list_file st1 = podcast_list_file st.
Proof.
  intros Hi [e0 [Hin Hu]] Hans.
  destruct (init_state st) as [es Hes]. rewrite Hi in Hes. simpl in Hes. subst st1.
  split; [|reflexivity].
  unfold cmd_add_podcast. rewrite Hi.
  change (entries (set_entries es st)) with es in *.
  destruct (find_index (OldStore.has_url url) es) as [i|] eqn:Ef.
  - assert (Hlt := find_index_lt _ _ _ Ef).
    destruct (init_entries_shown st _ u (nth i es PNone) Hi (nth_In _ _ Hlt))
      as [Hs [Ht _]].
    rewrite Ht, Hs, Hans. reflexivity.
  - rewrite (proj1 (find_index_none _ _) Ef e0 Hin) in Hu. discriminate.
Qed.

(** When the user confirms the overwrite of the first entry with the URL,
    and that entry has a non-empty [episode_id], a successful
    [cmd_add_podcast] removes that entry, appends the new one at the end,
    gives it the old [episode_id], and saves the whole list. *)
Theorem cmd_add_podcast_overwrite (fi : str -> option datetime) (answer : str)
    (yt vm : str -> result (dict pyval)) (url platform : str) (st st1 st' : State)
    (u : unit) (i : nat) (eid : str) :
  Store.PodcastList_init st = (st1, Ok u) ->
  find_index (OldStore.has_url url) (entries st1) = Some i ->
  getattr (nth i (entries st1) PNone) (s_ "episode_id") = Some (PStr eid) -> eid <> [] ->
  str_eqb (lower answer) (s_ "y") = true ->
  cmd_add_podcast fi answer yt vm url platform st = (st', Ok tt) ->
  exists e docs,
    entries st' = remove_nth i (entries st1) ++ [e] /\
    OldStore.has_url url e = true /\
    getattr e (s_ "episode_id") = Some (PStr eid) /\
    map_result (to_dict Store.classes) (entries st') = Ok docs /\
    podcast_list_file st' = json_dumps (PList docs).
Proof.
  intros Hi Hf Hid Hne Hans H.
  assert (Hlt := find_index_lt _ _ _ Hf).
  destruct (init_entries_shown st _ u (nth i (entries st1) PNone) Hi (nth_In _ _ Hlt))
    as [Hs [Ht _]].
  unfold cmd_add_podcast in H. rewrite Hi, Hf, Ht, Hs, Hans in H. cbn [negb] in H.
  unfold attr in H. rewrite Hid in H.
  destruct (fetch_and_add_ok _ _ _ _ _ _ _ _ H) as (md & e & docs & Hn & He & Hd & Hfile).
  exists e, docs. cbn [entries set_entries] in He.
  destruct (new_entry_url _ _ _ _ _ _ _ _ Hn) as [Hu _].
  repeat split; try assumption.
  apply (new_entry_existing_id _ _ _ _ _ _ _ _ (* truthy *)) in Hn; [exact Hn|].
  destruct eid; [contradiction|reflexivity].
Qed.

(** For a URL that no loaded entry has, [cmd_add_podcast] does not ask
    the user: its outcome, whatever it is, is the same for every answer.
    When it succeeds, the new entry, with that URL and platform, is
    appended after the loaded entries and the whole list is saved. *)
Theorem cmd_add_podcast_new_url (fi : str -> option datetime) (answer : str)
    (yt vm : str -> result (dict pyval)) (url platform : str) (st st1 : State) (u : unit) :
  Store.PodcastList_init st = (st1, Ok u) ->
  (forall e, In e (entries st1) -> OldStore.has_url url e = false) ->
  (forall answer', cmd_add_podcast fi answer' yt vm url platform st
                   = cmd_add_podcast fi answer yt vm url platform st) /\
  (forall st', cmd_add_podcast fi answer yt vm url platform st = (st', Ok tt) ->
   exists e docs,
    entries st' = entries st1 ++ [e] /\
    OldStore.has_url url e = true /\
    getattr e (s_ "platform") = Some (PStr platform) /\
    map_result (to_dict Store.classes) (entries st') = Ok docs /\
    podcast_list_file st' = json_dumps (PList docs)).
Proof.
  intros Hi Hno.
  assert (Hf : find_index (OldStore.has_url url) (entries st1) = None)
    by (apply find_index_none; exact Hno).
  split.
  - intro answer'. unfold cmd_add_podcast. rewrite Hi, Hf. reflexivity.
  - intros st' H. unfold cmd_add_podcast in H. rewrite Hi, Hf in H. cbn [truthy] in H.
    destruct (fetch_and_add_ok _ _ _ _ _ _ _ _ H) as (md & e & docs & Hn & He & Hd & Hfile).
    cbn [entries set_entries] in He.
    destruct (new_entry_url _ _ _ _ _ _ _ _ Hn) as [Hu Hp].
    exists e, docs. repeat split; assumption.
Qed.


Lemma cmd_add_podcast_unsupported_witness :
  podcast_list_file (fst (cmd_add_podcast parse_ymd (s_ "y") youtube_danny vimeo_down
                            danny_url (s_ "spotify") later_store)) = podcast_list_file later_store /\
  snd (cmd_add_podcast parse_ymd (s_ "y") youtube_danny vimeo_down danny_url (s_ "spotify") later_store)
    = Err (ValueError (s_ "Unsupported platform: " ++ s_ "spotify")).
Proof.
  assert (Hi : Store.PodcastList_init later_store = (loaded_later, Ok tt)) by (vm_compute; reflexivity).
  destruct (cmd_add_podcast_unsupported parse_ymd (s_ "y") youtube_danny vimeo_down danny_url
              (s_ "spotify") later_store) as [H1 H2]; [vm_compute; reflexivity | vm_compute; reflexivity |].
  split; [exact H1|]. apply (H2 loaded_later tt Hi). right. vm_compute. reflexivity.
Defined.

Lemma cmd_add_podcast_declined_witness :
  cmd_add_podcast parse_ymd (s_ "n") youtube_danny vimeo_down danny_url (s_ "youtube") later_store
    = (loaded_later, Ok tt) /\ podcast_list_file loaded_later = podcast_list_file later_store.
Proof.
  assert (Hi : Store.PodcastList_init later_store = (loaded_later, Ok tt)) by (vm_compute; reflexivity).
  apply (cmd_add_podcast_declined _ _ _ _ _ _ _ _ _ Hi).
  - exists (nth 0 (entries loaded_later) PNone). split; [vm_compute; left; reflexivity | vm_compute; reflexivity].
  - vm_compute. reflexivity.
Defined.

Lemma cmd_add_podcast_overwrite_witness :
  exists e docs,
    entries (fst overwrite_run) = remove_nth 0 (entries loaded_later) ++ [e] /\
    OldStore.has_url danny_url e = true /\
    getattr e (s_ "episode_id") = Some (PStr danny_id) /\
    map_result (to_dict Store.classes) (entries (fst overwrite_run)) = Ok docs /\
    podcast_list_file (fst overwrite_run) = json_dumps (PList docs).
Proof.
  assert (Hi : Store.PodcastList_init later_store = (loaded_later, Ok tt)) by (vm_compute; reflexivity).
  apply (cmd_add_podcast_overwrite parse_ymd (s_ "Y") youtube_danny vimeo_down danny_url (s_ "youtube")
           later_store loaded_later (fst overwrite_run) tt 0 danny_id Hi).
  - vm_compute. reflexivity.
  - vm_compute. reflexivity.
  - vm_compute. discriminate.
  - vm_compute. reflexivity.
  - vm_compute. reflexivity.
Defined.

Lemma cmd_add_podcast_new_url_witness :
  cmd_add_podcast parse_ymd (s_ "y") youtube_danny vimeo_down other_url (s_ "youtube") later_store
  = cmd_add_podcast parse_ymd (s_ "n") youtube_danny vimeo_down other_url (s_ "youtube") later_store /\
  exists e docs,
    entries (fst new_url_run) = entries loaded_later ++ [e] /\
    OldStore.has_url other_url e = true /\
    getattr e (s_ "platform") = Some (PStr (s_ "youtube")) /\
    map_result (to_dict Store.classes) (entries (fst new_url_run)) = Ok docs /\
    podcast_list_file (fst new_url_run) = json_dumps (PList docs).
Proof.
  assert (Hi : Store.PodcastList_init later_store = (loaded_later, Ok tt)) by (vm_compute; reflexivity).
  destruct (cmd_add_podcast_new_url parse_ymd (s_ "n") youtube_danny vimeo_down other_url (s_ "youtube")
              later_store loaded_later tt Hi) as [Ha Hs].
  - intros e Hin. vm_compute in Hin. destruct Hin as [<-|[]]. vm_compute. reflexivity.
  - split; [apply Ha|]. apply Hs. vm_compute. reflexivity.
Defined.

End CommandExtras.

Module MainExtras.
Import PyFacts Dataclass World IDGen StoreFacts MainPy MainExamples.

Lemma Config_youtube_state (base_dir project_root obsidian_vault : str) :
  Config_attr base_dir project_root obsidian_vault (s_ "YOUTUBE_STATE") =
    Err (AttributeError (config_missing (s_ "YOUTUBE_STATE"))).
Proof. reflexivity. Qed.

Lemma Config_vimeo_state (base_dir project_root obsidian_vault : str) :
  Config_attr base_dir project_root obsidian_vault (s_ "VIMEO_STATE") =
    Err (AttributeError (config_missing (s_ "VIMEO_STATE"))).
Proof. reflexivity. Qed.

Lemma get_state_file_raises (base_dir project_root obsidian_vault : str) (platform_type : pyval) (fs : FS) :
  get_state_file base_dir project_root obsidian_vault platform_type fs =
    Err (AttributeError (config_missing
      (if eq_str platform_type (s_ "vimeo") then s_ "VIMEO_STATE" else s_ "YOUTUBE_STATE"))).
Proof.
  unfold get_state_file. rewrite Config_youtube_state, Config_vimeo_state.
  destruct (eq_str platform_type (s_ "youtube")) eqn:Ey.
  - destruct platform_type; try discriminate Ey. simpl in Ey |- *.
    apply str_eqb_eq in Ey. subst. reflexivity.
  - destruct (eq_str platform_type (s_ "vimeo")); reflexivity.
Qed.

(** [get_state_file], [save_state] and [get_state] of [main.py] read
    [Config.YOUTUBE_STATE] or [Config.VIMEO_STATE], which [config.py] does
    not define: each call raises [AttributeError], and [save_state]
    writes no file. *)
Theorem main_state_functions_raise (base_dir project_root obsidian_vault : str)
    (platform_type episode_id transcript_file metadata : pyval) (fs : FS) :
  let msg := config_missing
               (if eq_str platform_type (s_ "vimeo") then s_ "VIMEO_STATE" else s_ "YOUTUBE_STATE") in
  get_state_file base_dir project_root obsidian_vault platform_type fs = Err (AttributeError msg) /\
  save_state base_dir project_root obsidian_vault platform_type episode_id transcript_file metadata fs
    = (fs, Err (AttributeError msg)) /\
  get_state base_dir project_root obsidian_vault platform_type fs = Err (AttributeError msg).
Proof.
  intro msg. unfold save_state, get_state. rewrite get_state_file_raises.
  repeat split; reflexivity.
Qed.

Lemma save_state_fails (base_dir project_root obsidian_vault : str)
    (platform_type episode_id transcript_file metadata : pyval) (fs : FS) :
  exists e, save_state base_dir project_root obsidian_vault platform_type episode_id transcript_file metadata fs
    = (fs, Err (AttributeError e)).
Proof.
  unfold save_state. rewrite get_state_file_raises. eexists. reflexivity.
Qed.

Lemma in_model_bind {A B} (m : result A) (f : A -> result B) :
  in_model m = true -> (forall a, in_model (f a) = true) -> in_model (bind m f) = true.
Proof. destruct m as [a|e]; simpl; auto. Qed.

Lemma in_model_getitem (v : pyval) (k : str) : in_model (getitem v k) = true.
Proof. destruct v; simpl; try reflexivity. destruct (dict_get _ _); reflexivity. Qed.

Lemma in_model_py_get (v : pyval) (k : str) (d : pyval) : in_model (py_get v k d) = true.
Proof. destruct v; reflexivity. Qed.

Lemma in_model_iter_items (v : pyval) : in_model (iter_items v) = true.
Proof. destruct v; reflexivity. Qed.

Lemma in_model_index0 (v : pyval) : in_model (index0 v) = true.
Proof. destruct v as [| | | [|] | [|] | |]; reflexivity. Qed.

Lemma in_model_py_in (k : str) (v : pyval) : in_model (OldStore.py_in k v) = true.
Proof. destruct v; reflexivity. Qed.

Lemma in_model_as_str (v : pyval) : in_model (as_str v) = true.
Proof. destruct v; reflexivity. Qed.

Lemma in_model_setitem (v : pyval) (k : str) (x : pyval) : in_model (setitem v k x) = true.
Proof. destruct v; reflexivity. Qed.

Lemma in_model_first_video_object (xs : list pyval) : in_model (first_video_object xs) = true.
Proof.
  induction xs as [|x r IH]; [reflexivity|]. simpl.
  apply in_model_bind; [apply in_model_py_get|]. intro t. destruct (eq_str t _); auto.
Qed.

Create HintDb in_model.
#[local] Hint Resolve in_model_getitem in_model_py_get in_model_iter_items in_model_index0
  in_model_py_in in_model_as_str in_model_setitem in_model_first_video_object : in_model.

Ltac in_model_steps :=
  repeat first
    [ reflexivity
    | solve [auto with in_model]
    | apply in_model_bind; [solve [auto with in_model | in_model_steps] | intro]
    | match goal with |- context [if ?b then _ else _] => destruct b end ].

Lemma in_model_create_episode_metadata (video_id vimeo_data : pyval) :
  in_model (create_episode_metadata video_id vimeo_data) = true.
Proof. unfold create_episode_metadata. in_model_steps. Qed.

#[local] Hint Resolve in_model_create_episode_metadata : in_model.

(** [cmd_parse_episode] of [main.py] never writes a file: its call of
    [save_state] raises before [save_to_database] runs, and the
    [except] prints the error.  It returns normally whatever the page
    fetch gives. *)
Theorem cmd_parse_episode_writes_nothing (base_dir project_root obsidian_vault : str)
    (get_vimeo_data_headless : str -> result pyval) (vimeo_url : str) (fs : FS) :
  cmd_parse_episode base_dir project_root obsidian_vault get_vimeo_data_headless vimeo_url fs =
    (fs, match get_vimeo_data_headless vimeo_url with
         | Err OutsideModel => Err OutsideModel
         | _ => Ok tt
         end).
Proof.
  unfold cmd_parse_episode.
  destruct (get_vimeo_data_headless vimeo_url) as [data|e]; [|destruct e; reflexivity].
  cbn [bind].
  destruct (bind (getitem data (s_ "playerConfig")) _) as [[video_id metadata]|e] eqn:E.
  - destruct (save_state_fails base_dir project_root obsidian_vault (PStr (s_ "vimeo"))
                (PStr video_id) PNone metadata fs) as [m Hs].
    rewrite Hs. reflexivity.
  - (* every exception raised before [save_state] is a Python one *)
    assert (H : in_model (Err (A := str * pyval) e) = true).
    { rewrite <- E. in_model_steps. }
    destruct e; try reflexivity; discriminate H.
Qed.


(** [cmd_parse_youtube] of [main.py] writes only what the YouTube fetcher
    writes: its [save_state] raises before [save_to_database] runs, and
    the [except] prints the error, so the command returns normally. *)
Theorem cmd_parse_youtube_writes_nothing (base_dir project_root obsidian_vault : str)
    (youtube_get_video_data : str -> MM pyval) (url : str) (fs : FS) :
  cmd_parse_youtube base_dir project_root obsidian_vault youtube_get_video_data url fs =
    (fst (youtube_get_video_data url fs),
     match snd (youtube_get_video_data url fs) with
     | Err OutsideModel => Err OutsideModel
     | _ => Ok tt
     end).
Proof.
  unfold cmd_parse_youtube.
  destruct (youtube_get_video_data url fs) as [fs0 [metadata|e]]; [|destruct e; reflexivity].
  cbn [fst snd]. destruct (negb (truthy metadata)); [reflexivity|].
  destruct (getitem metadata (s_ "episode_id")) as [eid|e] eqn:E.
  - destruct (save_state_fails base_dir project_root obsidian_vault (PStr (s_ "youtube"))
                eid PNone metadata fs0) as [m Hs].
    rewrite Hs. reflexivity.
  - assert (H := in_model_getitem metadata (s_ "episode_id")). rewrite E in H.
    destruct e; try reflexivity; discriminate H.
Qed.

(** [cmd_get_transcript] and [cmd_generate_prompt] of [main.py] call
    [get_state()] outside their [try]: both raise [AttributeError] for
    [Config.YOUTUBE_STATE] and change no file. *)
Theorem main_state_commands_raise (base_dir project_root obsidian_vault : str)
    (download_vtt_file : str -> str -> MM unit) (generate_prompt : pyval -> str -> str -> FS -> result str)
    (episode_id transcript_file json_file : pyval) (fs : FS) :
  cmd_get_transcript base_dir project_root obsidian_vault download_vtt_file episode_id fs =
    (fs, Err (AttributeError (config_missing (s_ "YOUTUBE_STATE")))) /\
  cmd_generate_prompt base_dir project_root obsidian_vault generate_prompt
    episode_id transcript_file json_file fs =
    (fs, Err (AttributeError (config_missing (s_ "YOUTUBE_STATE")))).
Proof.
  unfold cmd_get_transcript, cmd_generate_prompt, get_state.
  rewrite get_state_file_raises. split; reflexivity.
Qed.


Lemma find_episode_index (eid : str) (eps : list pyval) (n : nat) :
  (forall ep, In ep eps -> exists kv x, ep = PDict kv /\ dict_get kv (s_ "episode_id") = Some x) ->
  find_episode eid eps n = Ok (option_map (Nat.add n) (find_index (has_id eid) eps)).
Proof.
  revert n. induction eps as [|ep r IH]; intros n Hall; [reflexivity|].
  destruct (Hall ep (or_introl eq_refl)) as [kv [x [-> Hx]]].
  cbn [find_episode find_index getitem bind]. unfold has_id at 1. rewrite Hx. cbn [bind].
  destruct (eq_str x eid).
  - simpl. rewrite Nat.add_0_r. reflexivity.
  - rewrite IH by (intros; apply Hall; right; assumption).
    destruct (find_index (has_id eid) r); simpl; [|reflexivity].
    rewrite Nat.add_succ_r. reflexivity.
Qed.

(** [save_to_database(metadata, db_file)] with a string [episode_id]: when
    the database file holds a JSON list of episodes that all have an
    [episode_id] (or does not exist), the file is rewritten with that list
    in which the first episode with the same [episode_id] is updated with
    [metadata], or with [metadata] appended when there is none. *)
Theorem save_to_database_upsert (md : dict pyval) (eid : str) (eps : list pyval)
    (db_file : str) (fs : FS) :
  dict_get md (s_ "episode_id") = Some (PStr eid) ->
  (path_exists db_file fs = true /\ read_json db_file fs = Ok (PList eps)) \/
  (path_exists db_file fs = false /\ eps = []) ->
  (forall ep, In ep eps -> exists kv x, ep = PDict kv /\ dict_get kv (s_ "episode_id") = Some x) ->
  save_to_database (PDict md) db_file fs = write_json db_file (PList (upsert eid md eps)) fs.
Proof.
  intros Hid Hdb Hall. unfold save_to_database.
  assert (Hload : (if path_exists db_file fs then read_json db_file fs else Ok (PList [])) = Ok (PList eps))
    by (destruct Hdb as [[-> ->]|[-> ->]]; reflexivity).
  rewrite Hload. cbn [bind getitem]. rewrite Hid. cbn [bind iter_items].
  rewrite (find_episode_index eid eps 0 Hall). cbn [bind].
  unfold upsert.
  destruct (find_index (has_id eid) eps) as [i|] eqn:Ef; [|reflexivity].
  simpl option_map.
  destruct (Hall (nth i eps PNone) (nth_In _ _ (find_index_lt _ _ _ Ef))) as [kv [x [Hkv _]]].
  rewrite Hkv. reflexivity.
Qed.

Lemma save_to_database_upsert_witness :
  save_to_database (PDict new_metadata) db_path db_fs =
    write_json db_path (PList (upsert (s_ "123") new_metadata [stored_episode])) db_fs /\
  upsert (s_ "123") new_metadata [stored_episode] =
    [PDict [(s_ "episode_id", PStr (s_ "123")); (s_ "title", PStr (s_ "New title"));
            (s_ "platform_type", PStr (s_ "vimeo"))]].
Proof.
  split.
  - apply save_to_database_upsert.
    + reflexivity.
    + left. split; vm_compute; reflexivity.
    + intros ep [<-|[]]. eexists _, _. split; reflexivity.
  - vm_compute. reflexivity.
Defined.

(** [create_episode_metadata] keeps the keys of [EPISODE_SCHEMA] in their
    order, adding only [transcript_info]; it sets [episode_id] to
    [str(video_id)] and leaves [interviewee], [summary], [claims],
    [related_topics], [tags] and [transcript_file] at their template
    values. *)
Theorem create_episode_metadata_schema (video_id vimeo_data md : pyval) :
  create_episode_metadata video_id vimeo_data = Ok md ->
  exists kv, md = PDict kv /\
    (map fst kv = map fst EPISODE_SCHEMA \/
     map fst kv = map fst EPISODE_SCHEMA ++ [s_ "transcript_info"]) /\
    dict_get kv (s_ "episode_id") = Some (PStr (py_str video_id)) /\
    Forall (fun k => dict_get kv k = dict_get EPISODE_SCHEMA k)
      [s_ "interviewee"; s_ "summary"; s_ "claims"; s_ "related_topics"; s_ "tags";
       s_ "transcript_file"].
Proof.
  unfold create_episode_metadata. intro H.
  repeat (unfold bind in H; match type of H with
  | context [match ?x with _ => _ end] => destruct x eqn:?; try discriminate H
  end).
  all: injection H as <-; eexists; split; [reflexivity|].
  all: split; [first [left; reflexivity | right; reflexivity] |].
  all: split; [reflexivity|].
  all: repeat constructor.
Qed.

Lemma create_episode_metadata_schema_witness :
  exists kv, vimeo_page_metadata = PDict kv /\
    map fst kv = map fst EPISODE_SCHEMA ++ [s_ "transcript_info"] /\
    dict_get kv (s_ "webvtt_link") = Some (PStr (s_ "https://player.vimeo.com/texttrack/555.vtt?token=abc")).
Proof.
  destruct (create_episode_metadata_schema (PStr (s_ "1001")) vimeo_page vimeo_page_metadata)
    as [kv [Hkv _]]; [vm_compute; reflexivity|].
  exists kv. rewrite Hkv in *. split; [reflexivity|].
  unfold vimeo_page_metadata in Hkv. vm_compute in Hkv. injection Hkv as <-.
  split; vm_compute; reflexivity.
Defined.

End MainExtras.

(** ** [json.loads] inverts [json.dumps] *)
Module JsonFacts.
Import Py PyText Dataclass World CharFacts PyFacts DigitFacts StoreFacts JsonText.

Lemma json_w_list_cons (lvl : nat) (x : pyval) (r : list pyval) :
  json_w lvl (PList (x :: r)) =
  let (t, ok) := json_list_items lvl true (x :: r) in
  if ok then (s_ "[" ++ nl_indent (S lvl) ++ t ++ nl_indent lvl ++ s_ "]", true)
  else (s_ "[" ++ nl_indent (S lvl) ++ t, false).
Proof. reflexivity. Qed.

Lemma json_w_dict_cons (lvl : nat) (kx : str * pyval) (r : list (str * pyval)) :
  json_w lvl (PDict (kx :: r)) =
  let (t, ok) := json_dict_items lvl true (kx :: r) in
  if ok then (s_ "{" ++ nl_indent (S lvl) ++ t ++ nl_indent lvl ++ s_ "}", true)
  else (s_ "{" ++ nl_indent (S lvl) ++ t, false).
Proof. reflexivity. Qed.

Lemma json_list_items_cons (lvl : nat) (b : bool) (x : pyval) (r : list pyval) :
  json_list_items lvl b (x :: r) =
  let (t, ok) := json_w (S lvl) x in
  if ok then let (t', ok') := json_list_items lvl false r in
             ((if b then [] else s_ "," ++ nl_indent (S lvl)) ++ t ++ t', ok')
  else ((if b then [] else s_ "," ++ nl_indent (S lvl)) ++ t, false).
Proof. reflexivity. Qed.

Lemma json_dict_items_cons (lvl : nat) (b : bool) (k : str) (x : pyval) (r : list (str * pyval)) :
  json_dict_items lvl b ((k, x) :: r) =
  let (t, ok) := json_w (S lvl) x in
  if ok then let (t', ok') := json_dict_items lvl false r in
             (((if b then [] else s_ "," ++ nl_indent (S lvl)) ++ json_str k ++ s_ ": ") ++ t ++ t', ok')
  else (((if b then [] else s_ "," ++ nl_indent (S lvl)) ++ json_str k ++ s_ ": ") ++ t, false).
Proof. reflexivity. Qed.

Lemma json_list_items_false (lvl : nat) (l : list pyval) :
  l <> [] ->
  json_list_items lvl false l =
  (s_ "," ++ nl_indent (S lvl) ++ fst (json_list_items lvl true l), snd (json_list_items lvl true l)).
Proof.
  destruct l as [|x r]; [contradiction|]. intros _.
  rewrite !json_list_items_cons. destruct (json_w (S lvl) x) as [t []]; [|reflexivity].
  destruct (json_list_items lvl false r). reflexivity.
Qed.

Lemma json_dict_items_false (lvl : nat) (kv : list (str * pyval)) :
  kv <> [] ->
  json_dict_items lvl false kv =
  (s_ "," ++ nl_indent (S lvl) ++ fst (json_dict_items lvl true kv), snd (json_dict_items lvl true kv)).
Proof.
  destruct kv as [|[k x] r]; [contradiction|]. intros _.
  rewrite !json_dict_items_cons.
  destruct (json_w (S lvl) x) as [t []]; [destruct (json_dict_items lvl false r)|];
    simpl; repeat (rewrite <- app_assoc || rewrite <- app_comm_cons); reflexivity.
Qed.

(** Decoding one escaped character. *)
Lemma str_body_escape (c : ascii) (r acc : str) :
  str_body (json_escape_char c ++ r) acc = str_body r (c :: acc).
Proof. destruct c as [[] [] [] [] [] [] [] []]; reflexivity. Qed.

Lemma str_body_json (s rest acc : str) :
  str_body (flat_map json_escape_char s ++ dq :: rest) acc = JOk (rev acc ++ s, rest).
Proof.
  revert acc. induction s as [|c s IH]; intro acc.
  - rewrite app_nil_r. reflexivity.
  - simpl flat_map. rewrite <- app_assoc, str_body_escape, IH. simpl. rewrite <- app_assoc. reflexivity.
Qed.

Lemma skip_ws_cons_ws (c : ascii) (s : str) : is_json_ws c = true -> skip_ws (c :: s) = skip_ws s.
Proof. intro H. simpl. rewrite H. reflexivity. Qed.

Lemma skip_ws_nl (k : nat) (s : str) : skip_ws (nl_indent k ++ s) = skip_ws s.
Proof.
  unfold nl_indent. generalize (2 * k)%nat. intro n.
  change ((newline :: repeat " "%char n) ++ s) with (newline :: (repeat " "%char n ++ s)).
  rewrite (skip_ws_cons_ws newline) by reflexivity.
  induction n as [|n IH]; [reflexivity|].
  simpl repeat. rewrite <- app_comm_cons, (skip_ws_cons_ws " "%char) by reflexivity. exact IH.
Qed.

Lemma skip_ws_head (c : ascii) (s : str) : is_json_ws c = false -> skip_ws (c :: s) = c :: s.
Proof. intro H. simpl. rewrite H. reflexivity. Qed.

Lemma follow_char (c : ascii) (s : str) :
  json_follow (c :: s) = true ->
  is_digit c = false /\ Ascii.eqb c "."%char = false /\ Ascii.eqb c "e"%char = false
  /\ Ascii.eqb c "E"%char = false.
Proof. destruct c as [[] [] [] [] [] [] [] []]; simpl; intro H; try discriminate H; auto. Qed.

Lemma digit_not_minus (c : ascii) : is_digit c = true -> Ascii.eqb c "-"%char = false.
Proof. destruct c as [[] [] [] [] [] [] [] []]; simpl; intro H; try discriminate H; auto. Qed.

Lemma value_number (f d : nat) (c : ascii) (s : str) :
  is_digit c = true \/ c = "-"%char -> json_value (S f) d (c :: s) = json_int (c :: s).
Proof.
  intros [H|H]; [|subst; reflexivity].
  destruct c as [[] [] [] [] [] [] [] []]; simpl in H; try discriminate H; reflexivity.
Qed.

Lemma digits_run_app (ds rest : str) :
  forallb is_digit ds = true -> json_follow rest = true -> digits_run (ds ++ rest) = (ds, rest).
Proof.
  intros Hd Hf. induction ds as [|c ds IH].
  - destruct rest as [|c r]; [reflexivity|]. simpl. destruct (follow_char c r Hf) as [-> _]. reflexivity.
  - simpl in Hd |- *. apply andb_prop in Hd as [Hc Hds]. rewrite Hc, (IH Hds). reflexivity.
Qed.

Lemma json_int_digits (neg : bool) (n : Z) (rest : str) :
  0 <= n -> json_follow rest = true ->
  json_int ((if neg then ["-"%char] else []) ++ dec_digits n ++ rest)
  = JOk (PInt (if neg then - n else n), rest).
Proof.
  intros Hn Hf. destruct (dec_digits_ok n Hn) as (Hne & Hdig & Hval & Hhd).
  assert (Hds : json_int (dec_digits n ++ rest) = JOk (PInt n, rest)
                /\ json_int ("-"%char :: dec_digits n ++ rest) = JOk (PInt (- n), rest)).
  2:{ destruct neg; apply Hds. }
  unfold json_int.
  destruct (dec_digits n) as [|c0 more] eqn:Eds; [contradiction|].
  simpl in Hdig. apply andb_prop in Hdig as [Hc0 Hmore].
  assert (Hrun : digits_run (c0 :: more ++ rest) = (c0 :: more, rest)).
  { apply (digits_run_app (c0 :: more)); [simpl; rewrite Hc0, Hmore; reflexivity | exact Hf]. }
  assert (Hz : (Ascii.eqb c0 "0"%char && negb (List.length more =? 0)%nat) = false).
  { destruct (Ascii.eqb_spec c0 "0"%char) as [E|E]; [|reflexivity].
    specialize (Hhd E). injection Hhd as _ ->. reflexivity. }
  assert (Hp : parse_digits (c0 :: more) = Some n).
  { rewrite <- Eds. apply parse_dec_digits, Hn. }
  split.
  - simpl app. cbn beta iota. rewrite (digit_not_minus c0 Hc0). cbn beta iota. rewrite Hrun. rewrite Hz.
    rewrite Hp. destruct rest as [|c r]; [reflexivity|].
    destruct (follow_char c r Hf) as (_ & -> & -> & ->). reflexivity.
  - simpl app. cbn iota beta. rewrite Ascii.eqb_refl. cbn beta iota. rewrite Hrun. rewrite Hz.
    rewrite Hp. destruct rest as [|c r]; [reflexivity|].
    destruct (follow_char c r Hf) as (_ & -> & -> & ->). reflexivity.
Qed.

Lemma digit_head (c : ascii) :
  is_digit c = true -> is_json_ws c = false /\ Ascii.eqb c "]"%char = false /\ Ascii.eqb c "}"%char = false.
Proof. destruct c as [[] [] [] [] [] [] [] []]; simpl; intro H; try discriminate H; auto. Qed.

(** The text of a value starts with a character that is neither
    whitespace nor a closing bracket. *)
Lemma json_w_head (d lvl : nat) (v : pyval) :
  jsonable d v = true ->
  exists c t, fst (json_w lvl v) = c :: t /\ is_json_ws c = false
              /\ Ascii.eqb c "]"%char = false /\ Ascii.eqb c "}"%char = false.
Proof.
  intro Hj. destruct v as [| b | z | s | [|x r] | [|[k x] r] | cls attrs].
  - do 2 eexists. split; [reflexivity|]. repeat split; reflexivity.
  - destruct b; do 2 eexists; (split; [reflexivity|]); repeat split; reflexivity.
  - simpl. unfold int_str. destruct (Z.ltb_spec z 0).
    + do 2 eexists. split; [reflexivity|]. repeat split; reflexivity.
    + destruct (dec_digits_ok z ltac:(lia)) as (Hne & Hdig & _).
      destruct (dec_digits z) as [|c t]; [contradiction|].
      simpl in Hdig. apply andb_prop in Hdig as [Hc _].
      exists c, t. split; [reflexivity|]. apply digit_head, Hc.
  - do 2 eexists. split; [reflexivity|]. repeat split; reflexivity.
  - do 2 eexists. split; [reflexivity|]. repeat split; reflexivity.
  - rewrite json_w_list_cons. destruct (json_list_items lvl true (x :: r)) as [t []];
      do 2 eexists; (split; [reflexivity|]); repeat split; reflexivity.
  - do 2 eexists. split; [reflexivity|]. repeat split; reflexivity.
  - rewrite json_w_dict_cons. destruct (json_dict_items lvl true ((k, x) :: r)) as [t []];
      do 2 eexists; (split; [reflexivity|]); repeat split; reflexivity.
  - discriminate Hj.
Qed.

Lemma json_list_items_head (lvl : nat) (x : pyval) (r : list pyval) :
  exists t', fst (json_list_items lvl true (x :: r)) = fst (json_w (S lvl) x) ++ t'.
Proof.
  rewrite json_list_items_cons. destruct (json_w (S lvl) x) as [tx []].
  - destruct (json_list_items lvl false r) as [t' ok']. exists t'. reflexivity.
  - exists []. simpl. rewrite app_nil_r. reflexivity.
Qed.

Lemma json_dict_items_head (lvl : nat) (k : str) (x : pyval) (r : list (str * pyval)) :
  exists t', fst (json_dict_items lvl true ((k, x) :: r)) = json_str k ++ t'.
Proof.
  rewrite json_dict_items_cons. destruct (json_w (S lvl) x) as [tx []].
  - destruct (json_dict_items lvl false r) as [t' ok']. eexists. simpl. rewrite <- app_assoc. reflexivity.
  - eexists. simpl. rewrite <- app_assoc. reflexivity.
Qed.

Lemma nl_indent_length (k : nat) : List.length (nl_indent k) = S (2 * k).
Proof. unfold nl_indent. simpl. rewrite repeat_length. reflexivity. Qed.

Lemma value_int (f d : nat) (z : Z) (rest : str) :
  json_follow rest = true -> json_value (S f) d (int_str z ++ rest) = JOk (PInt z, rest).
Proof.
  intro Hf. unfold int_str. destruct (Z.ltb_spec z 0).
  - simpl app. rewrite value_number by (right; reflexivity).
    pose proof (json_int_digits true (- z) rest ltac:(lia) Hf) as E.
    rewrite Z.opp_involutive in E. exact E.
  - destruct (dec_digits_ok z ltac:(lia)) as (Hne & Hdig & _).
    pose proof (json_int_digits false z rest ltac:(lia) Hf) as E. simpl app in E.
    destruct (dec_digits z) as [|c t]; [contradiction|].
    simpl in Hdig. apply andb_prop in Hdig as [Hc _].
    simpl app. rewrite value_number by (left; exact Hc). exact E.
Qed.

Lemma value_str (f d : nat) (s rest : str) :
  json_value (S f) d (json_str s ++ rest) = JOk (PStr s, rest).
Proof.
  unfold json_str. rewrite <- app_comm_cons, <- app_assoc. cbn [json_value app].
  rewrite Ascii.eqb_refl, str_body_json. reflexivity.
Qed.

Lemma value_list_open (f d : nat) (s : str) :
  (d < 100)%nat ->
  json_value (S f) d ("["%char :: s) =
  match skip_ws s with
  | c' :: r' => if Ascii.eqb c' "]"%char then JOk (PList [], r') else json_items f (S d) (c' :: r') []
  | [] => JBad
  end.
Proof.
  intro H. assert (E : (100 <=? d)%nat = false) by (apply Nat.leb_gt; exact H).
  cbn [json_value]. rewrite E. reflexivity.
Qed.

Lemma value_dict_open (f d : nat) (s : str) :
  (d < 100)%nat ->
  json_value (S f) d ("{"%char :: s) =
  match skip_ws s with
  | c' :: r' => if Ascii.eqb c' "}"%char then JOk (PDict [], r') else json_members f (S d) (c' :: r') []
  | [] => JBad
  end.
Proof.
  intro H. assert (E : (100 <=? d)%nat = false) by (apply Nat.leb_gt; exact H).
  cbn [json_value]. rewrite E. reflexivity.
Qed.

Lemma keys_unique_app_absent {A} (acc r : dict A) (k : str) (x : A) :
  keys_unique (acc ++ (k, x) :: r) = true -> has_key acc k = false.
Proof.
  induction acc as [|[k' x'] acc IH]; [reflexivity|].
  simpl. intro H. apply andb_prop in H as [Hn Hu].
  rewrite has_key_cons. destruct (str_eqb k k') eqn:Ek.
  - apply str_eqb_eq in Ek. subst k'.
    assert (Hin : has_key (acc ++ (k, x) :: r) k = true).
    { apply has_key_in. rewrite map_app. apply in_or_app. right. left. reflexivity. }
    rewrite Hin in Hn. discriminate Hn.
  - apply IH, Hu.
Qed.

Lemma dict_set_absent {A} (d : dict A) (k : str) (v : A) :
  has_key d k = false -> dict_set d k v = d ++ [(k, v)].
Proof.
  induction d as [|[k' v'] r IH]; [reflexivity|].
  rewrite has_key_cons. simpl. destruct (str_eqb k k'); [discriminate|].
  intro H. rewrite (IH H). reflexivity.
Qed.

Ltac text_eq :=
  cbn [fst snd]; unfold nl_indent, json_str; simpl;
  repeat (rewrite <- app_assoc || rewrite <- app_comm_cons); reflexivity.

Lemma json_roundtrip_fuel (f : nat) :
  (forall v lvl d rest, jsonable d v = true -> json_follow rest = true ->
     (List.length (fst (json_w lvl v)) <= f)%nat ->
     snd (json_w lvl v) = true /\ json_value f d (fst (json_w lvl v) ++ rest) = JOk (v, rest))
  /\ (forall l lvl d rest acc, l <> [] -> forallb (jsonable d) l = true ->
     (S (List.length (fst (json_list_items lvl true l))) <= f)%nat ->
     snd (json_list_items lvl true l) = true
     /\ json_items f d (fst (json_list_items lvl true l) ++ nl_indent lvl ++ s_ "]" ++ rest) acc
        = JOk (PList (rev acc ++ l), rest))
  /\ (forall kv lvl d rest acc, kv <> [] -> forallb (fun '(_, x) => jsonable d x) kv = true ->
     keys_unique (acc ++ kv) = true ->
     (S (List.length (fst (json_dict_items lvl true kv))) <= f)%nat ->
     snd (json_dict_items lvl true kv) = true
     /\ json_members f d (fst (json_dict_items lvl true kv) ++ nl_indent lvl ++ s_ "}" ++ rest) acc
        = JOk (PDict (acc ++ kv), rest)).
Proof.
  induction f as [|f IH].
  - split; [|split].
    + intros v lvl d rest Hj _ Hl. destruct (json_w_head d lvl v Hj) as (c & t & Ht & _).
      rewrite Ht in Hl. simpl in Hl. lia.
    + intros. lia.
    + intros. lia.
  - destruct IH as (IHv & IHl & IHd). split; [|split].
    + intros v lvl d rest Hj Hf Hl.
      destruct v as [| b | z | s | [|x r] | [|[k x] r] | cls attrs].
      * split; reflexivity.
      * destruct b; split; reflexivity.
      * split; [reflexivity|]. apply value_int, Hf.
      * split; [reflexivity|]. apply value_str.
      * simpl in Hj. split; [reflexivity|]. apply andb_prop in Hj as [Hd _].
        apply Nat.ltb_lt in Hd. cbn [json_w fst s_ list_ascii_of_string app].
        rewrite value_list_open by exact Hd. reflexivity.
      * simpl in Hj. apply andb_prop in Hj as [Hd Hall]. apply Nat.ltb_lt in Hd.
        destruct (json_w_head (S d) (S lvl) x) as (c & u & Hc & Hcws & Hcb & _).
        { simpl in Hall. apply andb_prop in Hall as [Hx _]. exact Hx. }
        destruct (json_list_items_head lvl x r) as [t' Ht'].
        rewrite json_w_list_cons in Hl |- *.
        destruct (json_list_items lvl true (x :: r)) as [t ok] eqn:Et.
        assert (Hb : (S (List.length t) <= f)%nat).
        { destruct ok; simpl in Hl; rewrite ?length_app, ?nl_indent_length in Hl; simpl in Hl; lia. }
        destruct (IHl (x :: r) lvl (S d) rest [] ltac:(discriminate) Hall ltac:(rewrite Et; exact Hb))
          as [Hok Hitems]. rewrite Et in Hok, Hitems.
        simpl in Hok. subst ok. split; [reflexivity|].
        cbn [fst] in Ht' |- *. rewrite Hc in Ht'. subst t.
        cbn [s_ list_ascii_of_string app]. rewrite <- !app_assoc.
        rewrite value_list_open by exact Hd. rewrite skip_ws_nl. simpl app.
        rewrite skip_ws_head by exact Hcws. rewrite Hcb.
        etransitivity; [|exact Hitems]. f_equal. text_eq.
      * simpl in Hj. split; [reflexivity|]. apply andb_prop in Hj as [Hd _].
        apply andb_prop in Hd as [Hd _].
        apply Nat.ltb_lt in Hd. cbn [json_w fst s_ list_ascii_of_string app].
        rewrite value_dict_open by exact Hd. reflexivity.
      * simpl in Hj. apply andb_prop in Hj as [Hd Hall]. apply andb_prop in Hd as [Hd Hu].
        apply Nat.ltb_lt in Hd.
        destruct (json_dict_items_head lvl k x r) as [t' Ht'].
        rewrite json_w_dict_cons in Hl |- *.
        destruct (json_dict_items lvl true ((k, x) :: r)) as [t ok] eqn:Et.
        assert (Hb : (S (List.length t) <= f)%nat).
        { destruct ok; simpl in Hl; rewrite ?length_app, ?nl_indent_length in Hl; simpl in Hl; lia. }
        destruct (IHd ((k, x) :: r) lvl (S d) rest [] ltac:(discriminate) Hall Hu ltac:(rewrite Et; exact Hb))
          as [Hok Hitems]. rewrite Et in Hok, Hitems.
        simpl in Hok. subst ok. split; [reflexivity|].
        cbn [fst] in Ht' |- *. subst t.
        cbn [s_ list_ascii_of_string app]. rewrite <- !app_assoc.
        rewrite value_dict_open by exact Hd. rewrite skip_ws_nl. unfold json_str. simpl app.
        rewrite skip_ws_head by reflexivity.
        change (Ascii.eqb dq "}"%char) with false. cbv iota.
        etransitivity; [|exact Hitems]. f_equal. text_eq.
      * discriminate Hj.
    + intros l lvl d rest acc Hne Hall Hl. destruct l as [|x r]; [contradiction|].
      simpl in Hall. apply andb_prop in Hall as [Hx Hr].
      rewrite json_list_items_cons in Hl |- *.
      destruct (json_w (S lvl) x) as [tx okx] eqn:Ex.
      assert (Hbx : (List.length tx <= f)%nat).
      { destruct okx; [destruct (json_list_items lvl false r)|]; cbn [fst] in Hl;
          rewrite ?length_app in Hl; simpl in Hl; lia. }
      destruct r as [|y r'].
      * destruct (IHv x (S lvl) d (nl_indent lvl ++ s_ "]" ++ rest) Hx eq_refl ltac:(rewrite Ex; exact Hbx))
          as [Hokx Hvx].
        rewrite Ex in Hokx, Hvx. cbn [snd fst] in Hokx, Hvx. subst okx.
        split; [reflexivity|].
        change (json_list_items lvl false []) with (@nil ascii, true). cbn [fst].
        rewrite app_nil_r. cbn [app]. cbn [json_items]. rewrite Hvx.
        rewrite skip_ws_nl. reflexivity.
      * rewrite (json_list_items_false lvl (y :: r')) in Hl |- * by discriminate.
        destruct (json_list_items lvl true (y :: r')) as [tr okr] eqn:Er.
        destruct (json_w_head d (S lvl) y) as (c & u & Hc & Hcws & _).
        { simpl in Hr. apply andb_prop in Hr as [Hy _]. exact Hy. }
        destruct (json_list_items_head lvl y r') as [t' Ht']. rewrite Er, Hc in Ht'. cbn [fst] in Ht'.
        destruct (IHv x (S lvl) d ((s_ "," ++ nl_indent (S lvl) ++ tr) ++ nl_indent lvl ++ s_ "]" ++ rest)
                   Hx eq_refl ltac:(rewrite Ex; exact Hbx)) as [Hokx Hvx].
        rewrite Ex in Hokx, Hvx. cbn [snd fst] in Hokx, Hvx. subst okx.
        assert (Hbr : (S (List.length (fst (json_list_items lvl true (y :: r')))) <= f)%nat).
        { rewrite Er. cbn [fst] in Hl |- *. rewrite ?length_app, ?nl_indent_length in Hl. simpl in Hl. lia. }
        destruct (IHl (y :: r') lvl d rest (x :: acc) ltac:(discriminate) Hr Hbr) as [Hokr Hitems].
        rewrite Er in Hokr, Hitems. cbn [fst snd] in Hokr, Hitems |- *. subst okr.
        split; [reflexivity|].
        cbn [app]. rewrite <- app_assoc. cbn [json_items]. rewrite Hvx.
        cbn [s_ list_ascii_of_string app]. rewrite skip_ws_head by reflexivity.
        change (Ascii.eqb ","%char ","%char) with true. cbv iota.
        rewrite <- !app_assoc, skip_ws_nl. rewrite Ht'. simpl app.
        rewrite skip_ws_head by exact Hcws.
        etransitivity; [|etransitivity; [exact Hitems|]].
        -- f_equal. rewrite Ht'. text_eq.
        -- simpl rev. rewrite <- app_assoc. reflexivity.
    + intros kv lvl d rest acc Hne Hall Hu Hl. destruct kv as [|[k x] r]; [contradiction|].
      simpl in Hall. apply andb_prop in Hall as [Hx Hr].
      assert (Hk : has_key acc k = false) by (eapply keys_unique_app_absent; exact Hu).
      rewrite json_dict_items_cons in Hl |- *.
      destruct (json_w (S lvl) x) as [tx okx] eqn:Ex.
      assert (Hbx : (List.length tx <= f)%nat).
      { destruct okx; [destruct (json_dict_items lvl false r)|]; cbn [fst] in Hl;
          rewrite ?length_app in Hl; simpl in Hl; lia. }
      destruct (json_w_head d (S lvl) x Hx) as (cx & ux & Hcx & Hcxws & _).
      rewrite Ex in Hcx. cbn [fst] in Hcx. subst tx.
      destruct r as [|[k2 y] r'].
      * destruct (IHv x (S lvl) d (nl_indent lvl ++ s_ "}" ++ rest) Hx eq_refl ltac:(rewrite Ex; exact Hbx))
          as [Hokx Hvx].
        rewrite Ex in Hokx, Hvx. cbn [snd fst] in Hokx, Hvx. subst okx.
        cbn [app s_ list_ascii_of_string] in Hvx. rewrite <- ?app_assoc in Hvx.
        split; [reflexivity|].
        change (json_dict_items lvl false []) with (@nil ascii, true). cbn [fst].
        rewrite app_nil_r. unfold json_str. cbn [app s_ list_ascii_of_string].
        repeat (rewrite <- app_assoc || rewrite <- app_comm_cons). cbn [app].
        cbn [json_members]. rewrite Ascii.eqb_refl. rewrite str_body_json. cbn [rev app].
        rewrite skip_ws_head by reflexivity.
        change (Ascii.eqb ":"%char ":"%char) with true. cbv iota.
        rewrite skip_ws_cons_ws by reflexivity. rewrite skip_ws_head by exact Hcxws.
        rewrite Hvx. rewrite (dict_set_absent acc k x Hk).
        rewrite skip_ws_nl. reflexivity.
      * rewrite (json_dict_items_false lvl ((k2, y) :: r')) in Hl |- * by discriminate.
        destruct (json_dict_items lvl true ((k2, y) :: r')) as [tr okr] eqn:Er.
        destruct (json_dict_items_head lvl k2 y r') as [t' Ht']. rewrite Er in Ht'. cbn [fst] in Ht'.
        destruct (IHv x (S lvl) d ((s_ "," ++ nl_indent (S lvl) ++ tr) ++ nl_indent lvl ++ s_ "}" ++ rest)
                   Hx eq_refl ltac:(rewrite Ex; exact Hbx)) as [Hokx Hvx].
        rewrite Ex in Hokx, Hvx. cbn [snd fst] in Hokx, Hvx. subst okx.
        cbn [app s_ list_ascii_of_string] in Hvx. rewrite <- ?app_assoc in Hvx.
        assert (Hbr : (S (List.length (fst (json_dict_items lvl true ((k2, y) :: r')))) <= f)%nat).
        { rewrite Er. cbn [fst] in Hl |- *. rewrite ?length_app, ?nl_indent_length in Hl. simpl in Hl. lia. }
        assert (Hu' : keys_unique ((acc ++ [(k, x)]) ++ (k2, y) :: r') = true)
          by (rewrite <- app_assoc; exact Hu).
        destruct (IHd ((k2, y) :: r') lvl d rest (acc ++ [(k, x)]) ltac:(discriminate) Hr Hu' Hbr)
          as [Hokr Hitems].
        rewrite Er in Hokr, Hitems. cbn [fst snd] in Hokr, Hitems |- *. subst okr.
        split; [reflexivity|].
        rewrite Ht' in Hitems, Hvx |- *. unfold json_str in Hitems, Hvx |- *.
        cbn [app s_ list_ascii_of_string] in Hvx |- *.
        repeat (rewrite <- app_assoc in Hvx || rewrite <- app_comm_cons in Hvx). cbn [app] in Hvx.
        repeat (rewrite <- app_assoc || rewrite <- app_comm_cons). cbn [app].
        cbn [json_members]. rewrite Ascii.eqb_refl. rewrite str_body_json. cbn [rev app].
        rewrite skip_ws_head by reflexivity.
        change (Ascii.eqb ":"%char ":"%char) with true. cbv iota.
        rewrite skip_ws_cons_ws by reflexivity. rewrite skip_ws_head by exact Hcxws.
        rewrite Hvx. rewrite (dict_set_absent acc k x Hk).
        rewrite skip_ws_head by reflexivity.
        change (Ascii.eqb ","%char ","%char) with true. cbv iota.
        rewrite skip_ws_nl. rewrite skip_ws_head by reflexivity.
        etransitivity; [|etransitivity; [exact Hitems|]].
        -- f_equal. text_eq.
        -- rewrite <- app_assoc. reflexivity.
Qed.

Lemma json_w_complete (d lvl : nat) (v : pyval) :
  jsonable d v = true -> snd (json_w lvl v) = true.
Proof.
  intro Hj. destruct (json_roundtrip_fuel (List.length (fst (json_w lvl v)))) as [Hv _].
  apply (Hv v lvl d [] Hj eq_refl (le_n _)).
Qed.

(** [json.loads(json.dumps(v))] gives [v] back. *)
Lemma json_loads_w (v : pyval) :
  jsonable 0 v = true -> json_loads (fst (json_w 0 v)) = JOk v.
Proof.
  intro Hj. unfold json_loads.
  destruct (json_w_head 0 0 v Hj) as (c & t & Ht & Hws & _).
  destruct (json_roundtrip_fuel (2 * List.length (fst (json_w 0 v)) + 2)) as [Hv _].
  destruct (Hv v 0%nat 0%nat [] Hj eq_refl ltac:(lia)) as [_ Hd].
  rewrite app_nil_r in Hd. rewrite Ht in Hd |- *. rewrite skip_ws_head by exact Hws.
  rewrite Hd. reflexivity.
Qed.

(** [json.dump] into a file, then [json.load] of it. *)
Lemma dump_decode (fault : option nat) (v : pyval) (text : str) (u : unit) :
  jsonable 0 v = true -> dump_to_file fault v = (text, Ok u) -> decode_file text = Ok v.
Proof.
  intros Hj Hd. pose proof (json_w_complete 0 0 v Hj) as Hc.
  unfold dump_to_file in Hd. destruct (json_w 0 v) as [t ok] eqn:Ew. cbn [snd] in Hc. subst ok.
  assert (Ht : text = t).
  { destruct fault as [n|]; [destruct (n <? List.length t)%nat|]; cbv zeta in Hd;
      injection Hd as Ht Hu; [discriminate Hu|congruence|congruence]. }
  subst text. unfold decode_file. pose proof (json_loads_w v Hj) as E. rewrite Ew in E.
  cbn [fst] in E. rewrite E. reflexivity.
Qed.

End JsonFacts.

(** ** Reloading a saved [PodcastList] *)
Module ReloadFacts.
Import Py PyText Dataclass World PyFacts StoreFacts JsonText JsonFacts.

Lemma asdict_jsonable (cf : str -> option fields) :
  forall (d : nat) (v : pyval), jsonable d v = true -> asdict_inner cf v = Ok v.
Proof.
  fix IH 2. intros d v Hj. destruct v as [| b | z | s | l | kv | c a]; try reflexivity.
  - simpl in Hj. apply andb_prop in Hj as [_ Hl]. cbn [asdict_inner].
    assert (E : (fix go (l0 : list pyval) : result (list pyval) :=
                   match l0 with
                   | [] => Ok []
                   | x :: r => y <- asdict_inner cf x ;; ys <- go r ;; Ok (y :: ys)
                   end) l = Ok l).
    { revert l Hl. fix IHl 1. intros [|x r] Hl; [reflexivity|].
      simpl in Hl. apply andb_prop in Hl as [Hx Hr]. cbn beta iota.
      rewrite (IH (S d) x Hx). cbn [bind]. rewrite (IHl r Hr). reflexivity. }
    rewrite E. reflexivity.
  - simpl in Hj. apply andb_prop in Hj as [_ Hl]. cbn [asdict_inner].
    assert (E : (fix go (l0 : list (str * pyval)) : result (list (str * pyval)) :=
                   match l0 with
                   | [] => Ok []
                   | (k, x) :: r => y <- asdict_inner cf x ;; ys <- go r ;; Ok ((k, y) :: ys)
                   end) kv = Ok kv).
    { revert kv Hl. fix IHl 1. intros [|[k x] r] Hl; [reflexivity|].
      simpl in Hl. apply andb_prop in Hl as [Hx Hr]. cbn beta iota.
      rewrite (IH (S d) x Hx). cbn [bind]. rewrite (IHl r Hr). reflexivity. }
    rewrite E. reflexivity.
  - discriminate Hj.
Qed.

Lemma keys_unique_nodup {A} (d : dict A) : keys_unique d = true <-> NoDup (map fst d).
Proof.
  induction d as [|[k x] r IH]; simpl.
  - split; [constructor|reflexivity].
  - split.
    + intro H. apply andb_prop in H as [Hn Hu]. constructor.
      * intro Hin. apply has_key_in in Hin. rewrite Hin in Hn. discriminate Hn.
      * apply IH, Hu.
    + intro H. inversion H as [|? ? Hnin Hnd]; subst.
      apply andb_true_intro. split; [|apply IH, Hnd].
      destruct (has_key r k) eqn:E; [|reflexivity].
      apply has_key_in in E. contradiction.
Qed.

Lemma dict_get_in {A} (d : dict A) (k : str) (v : A) :
  NoDup (map fst d) -> In (k, v) d -> dict_get d k = Some v.
Proof.
  induction d as [|[k' v'] r IH]; simpl; intros Hn Hin; [contradiction|].
  inversion Hn as [|? ? Hnin Hnd]; subst.
  destruct Hin as [E|Hin].
  - injection E as -> ->. rewrite str_eqb_refl. reflexivity.
  - destruct (str_eqb k k') eqn:Ek.
    + apply str_eqb_eq in Ek. subst k'. exfalso. apply Hnin.
      apply in_map_iff. exists (k, v). split; [reflexivity|exact Hin].
    + apply IH; assumption.
Qed.

Lemma same_keys_eq {A B} (d : dict A) (fs : list (str * B)) :
  same_keys d fs = true -> map fst d = map fst fs.
Proof. unfold same_keys. destruct (list_eq_dec _ _ _); [auto|discriminate]. Qed.

Lemma dict_get_map {A B} (f : A -> B) (d : dict A) (k : str) :
  dict_get (map (fun kx => (fst kx, f (snd kx))) d) k = option_map f (dict_get d k).
Proof.
  induction d as [|[k' x] r IH]; simpl; [reflexivity|].
  destruct (str_eqb k k'); [reflexivity|exact IH].
Qed.

Lemma asdict_go (cf : str -> option fields) (attrs : list (str * pyval)) :
  (fix go (l : list (str * pyval)) : list (str * result pyval) :=
     match l with
     | [] => []
     | (k, x) :: r => (k, asdict_inner cf x) :: go r
     end) attrs
  = map (fun kx => (fst kx, asdict_inner cf (snd kx))) attrs.
Proof. induction attrs as [|[k x] r IH]; simpl; [reflexivity|]. rewrite IH. reflexivity. Qed.

Lemma fold_asdict (D : dict (result pyval)) :
  forall (fs : fields) (kv acc : dict pyval),
  map fst kv = map fst fs ->
  (forall k x, In (k, x) kv -> dict_get D k = Some (Ok x)) ->
  fold_result (fun acc f =>
                 match dict_get D (fst f) with
                 | Some (Ok x) => Ok (acc ++ [(fst f, x)])
                 | Some (Err e) => Err e
                 | None => Err (AttributeError (fst f))
                 end) fs acc = Ok (acc ++ kv).
Proof.
  induction fs as [|f fs IH]; intros kv acc Hk Hd; destruct kv as [|[k x] kv]; try discriminate Hk.
  - rewrite app_nil_r. reflexivity.
  - simpl in Hk. injection Hk as Hk1 Hk2. cbn [fold_result]. rewrite <- Hk1.
    rewrite (Hd k x (or_introl eq_refl)). cbn [bind].
    rewrite (IH kv); [rewrite <- app_assoc; reflexivity|exact Hk2|].
    intros k' x' Hin. apply Hd. right. exact Hin.
Qed.

Lemma fold_construct (kw : dict pyval) :
  forall (fs : fields) (kv acc : dict pyval),
  map fst kv = map fst fs ->
  (forall k x, In (k, x) kv -> dict_get kw k = Some x) ->
  fold_result (fun acc f =>
                 match dict_get kw (fst f), snd f with
                 | Some v, _ => Ok (acc ++ [(fst f, v)])
                 | None, Some v => Ok (acc ++ [(fst f, v)])
                 | None, None => Err (TypeError (s_ "missing required argument"))
                 end) fs acc = Ok (acc ++ kv).
Proof.
  induction fs as [|f fs IH]; intros kv acc Hk Hd; destruct kv as [|[k x] kv]; try discriminate Hk.
  - rewrite app_nil_r. reflexivity.
  - simpl in Hk. injection Hk as Hk1 Hk2. cbn [fold_result]. rewrite <- Hk1.
    rewrite (Hd k x (or_introl eq_refl)). cbn [bind].
    rewrite (IH kv); [rewrite <- app_assoc; reflexivity|exact Hk2|].
    intros k' x' Hin. apply Hd. right. exact Hin.
Qed.

(** [cls( **kw)] with exactly the fields as keywords keeps [kw] as the
    instance dict. *)
Lemma construct_same (cls : str) (fs : fields) (kw : dict pyval) :
  map fst kw = map fst fs -> NoDup (map fst fs) -> construct cls fs kw = Ok (PObj cls kw).
Proof.
  intros Hk Hn. unfold construct.
  destruct (existsb _ kw) eqn:E.
  - apply existsb_exists in E as [[k x] [Hin Hf]]. cbn [fst] in Hf.
    assert (Hh : has_key fs k = true).
    { apply has_key_in. rewrite <- Hk. apply in_map_iff. exists (k, x). auto. }
    rewrite Hh in Hf. discriminate Hf.
  - rewrite (fold_construct kw fs kw [] Hk). { reflexivity. }
    intros k x Hin. apply dict_get_in; [rewrite Hk; exact Hn|exact Hin].
Qed.

Lemma asdict_obj (cf : str -> option fields) (cls : str) (fs : fields) (attrs : list (str * pyval))
    (g : str -> pyval -> pyval) :
  cf cls = Some fs -> map fst attrs = map fst fs -> NoDup (map fst fs) ->
  (forall k x, In (k, x) attrs -> asdict_inner cf x = Ok (g k x)) ->
  asdict_inner cf (PObj cls attrs) = Ok (PDict (map (fun kx => (fst kx, g (fst kx) (snd kx))) attrs)).
Proof.
  intros Hc Hk Hn Hx. cbn [asdict_inner]. rewrite Hc. rewrite asdict_go.
  rewrite fold_asdict with (kv := map (fun kx => (fst kx, g (fst kx) (snd kx))) attrs); [reflexivity| |].
  - rewrite map_map. cbn [fst]. rewrite <- Hk. reflexivity.
  - intros k y Hin. apply in_map_iff in Hin as [[k0 x0] [E Hin]]. cbn [fst snd] in E.
    injection E as <- <-.
    rewrite (dict_get_map (asdict_inner cf)).
    rewrite (dict_get_in attrs k0 x0); [|rewrite Hk; exact Hn|exact Hin].
    cbn [option_map]. rewrite (Hx k0 x0 Hin). reflexivity.
Qed.

Lemma map_pair_id (l : list (str * pyval)) : map (fun kx => (fst kx, snd kx)) l = l.
Proof. induction l as [|[k x] r IH]; simpl; [reflexivity|]. rewrite IH. reflexivity. Qed.

(** The dict [to_dict] makes of a stored entry: the interviewee becomes
    the dict of its fields. *)
Lemma dict_set_back (attrs : list (str * pyval)) (key : str) (xi : pyval) (g : str -> pyval -> pyval) :
  NoDup (map fst attrs) -> In (key, xi) attrs ->
  (forall k x, In (k, x) attrs -> k <> key -> g k x = x) ->
  dict_set (map (fun kx => (fst kx, g (fst kx) (snd kx))) attrs) key xi = attrs.
Proof.
  induction attrs as [|[k x] r IH]; intros Hn Hin Hg; [contradiction|].
  inversion Hn as [|? ? Hnin Hnd]; subst. cbn [map fst snd dict_set].
  destruct Hin as [E|Hin].
  - injection E as -> ->. rewrite str_eqb_refl. f_equal.
    transitivity (map (fun kx => (fst kx, snd kx)) r); [|apply map_pair_id].
    apply map_ext_in. intros [k' x'] Hin'. cbn [fst snd]. rewrite Hg; [reflexivity|right; exact Hin'|].
    intro E. subst k'. apply Hnin. apply in_map_iff. exists (key, x'). auto.
  - destruct (str_eqb key k) eqn:Ek.
    + apply str_eqb_eq in Ek. subst k. exfalso. apply Hnin.
      apply in_map_iff. exists (key, xi). auto.
    + rewrite Hg; [|left; reflexivity|].
      * rewrite IH; [reflexivity|exact Hnd|exact Hin|]. intros k' x' Hin' Hne. apply Hg; [right; exact Hin'|exact Hne].
      * intro E. subst k. rewrite str_eqb_refl in Ek. discriminate Ek.
Qed.

Section Reload.

Variable cf : str -> option fields.
Variables ef ifs : fields.
Hypothesis cf_entry : cf (s_ "PodcastEntry") = Some ef.
Hypothesis cf_interviewee : cf (s_ "Interviewee") = Some ifs.
Hypothesis ef_nodup : NoDup (map fst ef).
Hypothesis ifs_nodup : NoDup (map fst ifs).
Hypothesis ef_interviewee : In (s_ "interviewee") (map fst ef).
Hypothesis ef_no_to_dict : ~ In (s_ "to_dict") (map fst ef).

Lemma entry_roundtrip (e : pyval) :
  storable_entry ef ifs e = true ->
  exists doc, to_dict cf e = Ok doc /\ jsonable 1 doc = true /\ load_entry ef ifs doc = Ok e.
Proof.
  intro Hs. destruct e as [| | | | | |c attrs]; try discriminate Hs.
  cbn [storable_entry] in Hs. apply andb_prop in Hs as [Hs Hall]. apply andb_prop in Hs as [Hc Hk].
  apply str_eqb_eq in Hc. subst c. apply same_keys_eq in Hk.
  assert (Hnd : NoDup (map fst attrs)) by (rewrite Hk; exact ef_nodup).
  rewrite forallb_forall in Hall.
  set (g := fun (k : str) (x : pyval) =>
              if str_eqb k (s_ "interviewee")
              then match x with PObj _ ia => PDict ia | _ => x end else x).
  assert (Hx : forall k x, In (k, x) attrs -> asdict_inner cf x = Ok (g k x)
                                            /\ jsonable 2 (g k x) = true).
  { intros k x Hin. specialize (Hall (k, x) Hin). cbn beta iota in Hall. unfold g.
    destruct (str_eqb k (s_ "interviewee")).
    - destruct x as [| | | | | |c ia]; try discriminate Hall.
      cbn [plain_instance] in Hall. apply andb_prop in Hall as [Hs Hv]. apply andb_prop in Hs as [Hc Hik].
      apply str_eqb_eq in Hc. subst c. apply same_keys_eq in Hik.
      rewrite forallb_forall in Hv. split.
      + rewrite (asdict_obj cf (s_ "Interviewee") ifs ia (fun _ x => x)); [|exact cf_interviewee|exact Hik|exact ifs_nodup|].
        * rewrite map_pair_id. reflexivity.
        * intros k' x' Hin'. apply (asdict_jsonable cf 3). exact (Hv (k', x') Hin').
      + simpl. apply andb_true_intro. split.
        * apply keys_unique_nodup. rewrite Hik. exact ifs_nodup.
        * apply forallb_forall. exact Hv.
    - split; [apply (asdict_jsonable cf 2)|]; exact Hall. }
  exists (PDict (map (fun kx => (fst kx, g (fst kx) (snd kx))) attrs)). split; [|split].
  - unfold to_dict.
    assert (Hh : has_key attrs (s_ "to_dict") = false).
    { destruct (has_key attrs (s_ "to_dict")) eqn:E; [|reflexivity].
      apply has_key_in in E. rewrite Hk in E. contradiction. }
    rewrite Hh, cf_entry. apply (asdict_obj cf _ ef); [exact cf_entry|exact Hk|exact ef_nodup|].
    intros k x Hin. apply (Hx k x Hin).
  - simpl. apply andb_true_intro. split.
    + apply keys_unique_nodup. rewrite map_map. cbn [fst]. exact Hnd.
    + apply forallb_forall. intros [k y] Hin. apply in_map_iff in Hin as [[k0 x0] [E Hin]].
      cbn [fst snd] in E. injection E as <- <-. apply (Hx k0 x0 Hin).
  - rewrite <- Hk in ef_interviewee. apply in_map_iff in ef_interviewee as [[ki xi] [Eki Hini]].
    cbn [fst] in Eki. subst ki.
    pose proof (Hall _ Hini) as Hi. cbn beta iota in Hi. rewrite str_eqb_refl in Hi.
    destruct xi as [| | | | | |ci ia]; try discriminate Hi.
    cbn [plain_instance] in Hi. apply andb_prop in Hi as [Hi _]. apply andb_prop in Hi as [Hci Hik].
    apply str_eqb_eq in Hci. subst ci. apply same_keys_eq in Hik.
    unfold load_entry. cbn [as_mapping bind getitem].
    rewrite (dict_get_in _ (s_ "interviewee") (PDict ia)).
    + cbn [bind as_mapping]. rewrite (construct_same (s_ "Interviewee") ifs ia Hik ifs_nodup). cbn [bind].
      rewrite (dict_set_back attrs (s_ "interviewee") (PObj (s_ "Interviewee") ia) g Hnd Hini).
      * apply construct_same; [exact Hk|exact ef_nodup].
      * intros k x _ Hne. unfold g. rewrite (str_eqb_neq k (s_ "interviewee") Hne). reflexivity.
    + rewrite map_map. cbn [fst]. exact Hnd.
    + apply in_map_iff. exists (s_ "interviewee", PObj (s_ "Interviewee") ia). split; [|exact Hini].
      cbn [fst snd]. unfold g. rewrite str_eqb_refl. reflexivity.
Qed.

Lemma entries_roundtrip (es : list pyval) :
  forallb (storable_entry ef ifs) es = true ->
  exists docs, map_result (to_dict cf) es = Ok docs /\ forallb (jsonable 1) docs = true
               /\ map_result (load_entry ef ifs) docs = Ok es.
Proof.
  induction es as [|e es IH]; intro H; [exists []; auto|].
  simpl in H. apply andb_prop in H as [He Hes].
  destruct (entry_roundtrip e He) as (doc & Hd & Hj & Hl).
  destruct (IH Hes) as (docs & Hds & Hjs & Hls).
  exists (doc :: docs). cbn [map_result forallb]. rewrite Hd, Hds, Hj, Hjs, Hl, Hls.
  split; [reflexivity|split; reflexivity].
Qed.

(** [_save] then [PodcastList()]: the entries come back. *)
Lemma reload_after_save (st st' : State) :
  forallb (storable_entry ef ifs) (entries st) = true ->
  save_entries cf st = (st', Ok tt) -> init_entries ef ifs st' = (st', Ok tt).
Proof.
  intros Hs Hsave. destruct (entries_roundtrip (entries st) Hs) as (docs & Hd & Hj & Hl).
  unfold save_entries in Hsave. rewrite Hd in Hsave.
  destruct (dump_to_file (write_fault st) (PList docs)) as [written r] eqn:Ed.
  injection Hsave as <- ->.
  assert (Hdec : decode_file written = Ok (PList docs)).
  { apply (dump_decode (write_fault st) (PList docs) written tt); [|exact Ed].
    simpl. exact Hj. }
  unfold init_entries. cbn [podcast_list_file set_entries set_podcast_list_file].
  rewrite Hdec. cbn [bind IDGen.iter_items]. rewrite Hl.
  destruct st. reflexivity.
Qed.

End Reload.


End ReloadFacts.

(** ** Saved state and saved lists read back *)
Module PersistExtras.
Import Py PyText Dataclass World PyFacts StoreFacts JsonText JsonFacts ReloadFacts Examples CommandExamples.

Lemma dict_update_fresh {A} (d e : dict A) :
  keys_unique (d ++ e) = true -> dict_update d e = d ++ e.
Proof.
  revert d. induction e as [|[k v] e IH]; intros d H; [rewrite app_nil_r; reflexivity|].
  unfold dict_update. cbn [fold_left fst snd].
  rewrite (dict_set_absent d k v (keys_unique_app_absent d e k v H)).
  pose proof (IH (d ++ [(k, v)]) ltac:(rewrite <- app_assoc; exact H)) as E.
  unfold dict_update in E. rewrite E, <- app_assoc. reflexivity.
Qed.

(** X: [save_state] then [get_state] returns the state dict written. *)
Theorem get_state_after_save_state (st st' : State) (episode_id status : str) (kwargs : dict pyval) :
  jsonable 0 (PDict kwargs) = true ->
  Store.save_state episode_id status kwargs st = (st', Ok tt) ->
  Store.get_state st'
  = Ok (PDict ((s_ "episode_id", PStr episode_id) :: (s_ "status", PStr status) :: kwargs)).
Proof.
  intros Hj H. unfold Store.save_state in H.
  destruct (has_key kwargs (s_ "episode_id")) eqn:E1; [discriminate H|].
  destruct (has_key kwargs (s_ "status")) eqn:E2; [discriminate H|].
  cbn [orb] in H.
  simpl in Hj. apply andb_prop in Hj as [Hu Hv].
  assert (Hu2 : keys_unique ([(s_ "episode_id", PStr episode_id); (s_ "status", PStr status)] ++ kwargs) = true).
  { cbn [app keys_unique]. rewrite has_key_cons, E1, E2, Hu. reflexivity. }
  rewrite (dict_update_fresh _ _ Hu2) in H.
  destruct (dump_to_file (write_fault st) _) as [written r] eqn:Ed.
  injection H as <- ->. unfold Store.get_state. cbn [current_state_file set_current_state_file].
  apply (dump_decode (write_fault st) _ written tt); [|exact Ed].
  cbn [jsonable]. cbn [app] in Hu2. rewrite Hu2. cbn [forallb]. rewrite Hv. reflexivity.
Qed.

Lemma get_state_after_save_state_witness :
  Store.get_state (fst (Store.save_state (s_ "x") (s_ "complete")
                          [(s_ "transcript_file", PStr (s_ "x.vtt"))] errored_state_store))
  = Ok (PDict [(s_ "episode_id", PStr (s_ "x")); (s_ "status", PStr (s_ "complete"));
               (s_ "transcript_file", PStr (s_ "x.vtt"))]).
Proof.
  apply (get_state_after_save_state errored_state_store _ (s_ "x") (s_ "complete")
           [(s_ "transcript_file", PStr (s_ "x.vtt"))]).
  - vm_compute. reflexivity.
  - vm_compute. reflexivity.
Defined.

(** X: [PodcastList._save] then [PodcastList()] of [lib/models/podcast.py]. *)
Theorem podcast_list_reload (st st' : State) :
  forallb (storable_entry Store.PodcastEntry_fields Store.Interviewee_fields) (entries st) = true ->
  Store._save st = (st', Ok tt) -> Store.PodcastList_init st' = (st', Ok tt).
Proof.
  apply reload_after_save.
  - reflexivity.
  - reflexivity.
  - apply keys_unique_nodup. reflexivity.
  - apply keys_unique_nodup. reflexivity.
  - apply has_key_in. reflexivity.
  - intro H. apply has_key_in in H. discriminate H.
Qed.

Lemma podcast_list_reload_witness :
  Store.PodcastList_init (fst (Store._save loaded_later)) = (fst (Store._save loaded_later), Ok tt).
Proof.
  apply (podcast_list_reload loaded_later).
  - vm_compute. reflexivity.
  - vm_compute. reflexivity.
Defined.

(** X: [PodcastList._save] then [PodcastList()] of [podcast_list.py]. *)
Theorem old_podcast_list_reload (st st' : State) :
  forallb (storable_entry OldStore.PodcastEntry_fields OldStore.Interviewee_fields) (entries st) = true ->
  OldStore._save st = (st', Ok tt) -> OldStore.PodcastList_init st' = (st', Ok tt).
Proof.
  apply reload_after_save.
  - reflexivity.
  - reflexivity.
  - apply keys_unique_nodup. reflexivity.
  - apply keys_unique_nodup. reflexivity.
  - apply has_key_in. reflexivity.
  - intro H. apply has_key_in in H. discriminate H.
Qed.

Lemma old_podcast_list_reload_witness :
  OldStore.PodcastList_init (fst (OldStore._save old_one_entry_store))
  = (fst (OldStore._save old_one_entry_store), Ok tt).
Proof.
  apply (old_podcast_list_reload old_one_entry_store).
  - vm_compute. reflexivity.
  - vm_compute. reflexivity.
Defined.

End PersistExtras.

(** ** Running [save_to_database] twice *)
Module DatabaseExtras.
Import PyFacts Dataclass World IDGen StoreFacts MainPy MainExamples JsonText JsonFacts ReloadFacts.

Lemma scalar_jsonable (d : nat) (v : pyval) : scalar v = true -> jsonable d v = true.
Proof. destruct v; try discriminate; reflexivity. Qed.

Lemma json_int_scalar (s : str) v r : json_int s = JOk (v, r) -> scalar v = true.
Proof.
  unfold json_int. intro H.
  repeat (match type of H with context [match ?x with _ => _ end] => destruct x; try discriminate H end).
  all: try (injection H as <- _; reflexivity).
Qed.

Lemma literal_scalar (s : str) v r :
  match s with
  | "n"%char :: "u"%char :: "l"%char :: "l"%char :: r' => JOk (PNone, r')
  | "t"%char :: "r"%char :: "u"%char :: "e"%char :: r' => JOk (PBool true, r')
  | "f"%char :: "a"%char :: "l"%char :: "s"%char :: "e"%char :: r' => JOk (PBool false, r')
  | "N"%char :: "a"%char :: "N"%char :: _ => JOutside
  | _ => json_int s
  end = JOk (v, r) -> scalar v = true.
Proof.
  intro H.
  repeat (match type of H with context [match ?x with _ => _ end] =>
    lazymatch x with json_int _ => fail | _ => destruct x; try discriminate H end end).
  all: first [injection H as <- _; reflexivity | eapply json_int_scalar; exact H].
Qed.

Lemma keys_unique_dict_set {A} (d : dict A) (k : str) (v : A) :
  keys_unique d = true -> keys_unique (dict_set d k v) = true.
Proof.
  induction d as [|[k' v'] r IH]; intros H; [reflexivity|].
  cbn [keys_unique] in H. apply andb_prop in H as [Hn Hr].
  cbn [dict_set]. destruct (str_eqb k k') eqn:E; cbn [keys_unique].
  - rewrite Hn, Hr. reflexivity.
  - rewrite IH by exact Hr. unfold has_key. rewrite dict_get_set, str_eqb_sym, E.
    unfold has_key in Hn. rewrite Hn. reflexivity.
Qed.

Lemma forallb_dict_set {A} (p : A -> bool) (d : dict A) (k : str) (v : A) :
  forallb (fun '(_, x) => p x) d = true -> p v = true ->
  forallb (fun '(_, x) => p x) (dict_set d k v) = true.
Proof.
  induction d as [|[k' v'] r IH]; intros H Hv; cbn [dict_set forallb].
  - rewrite Hv. reflexivity.
  - cbn [forallb] in H. apply andb_prop in H as [H1 H2].
    destruct (str_eqb k k'); cbn [forallb]; rewrite ?Hv, ?H1, ?H2, ?IH by assumption; reflexivity.
Qed.

Lemma forallb_rev' {A} (p : A -> bool) (l : list A) : forallb p (rev l) = forallb p l.
Proof.
  induction l as [|x r IH]; [reflexivity|]. cbn [rev forallb].
  rewrite forallb_app, IH. cbn [forallb]. rewrite andb_true_r, andb_comm. reflexivity.
Qed.

(** What [json.loads] returns can be written back by [json.dump]. *)
Lemma decoded_jsonable (f : nat) :
  (forall d s v r, json_value f d s = JOk (v, r) -> jsonable d v = true) /\
  (forall d s acc v r, json_items f (S d) s acc = JOk (v, r) -> (d < 100)%nat ->
     forallb (jsonable (S d)) acc = true -> jsonable d v = true) /\
  (forall d s acc v r, json_members f (S d) s acc = JOk (v, r) -> (d < 100)%nat ->
     keys_unique acc = true -> forallb (fun '(_, x) => jsonable (S d) x) acc = true ->
     jsonable d v = true).
Proof.
  induction f as [|f [IHv [IHi IHm]]].
  { repeat split; intros; discriminate. }
  split; [|split].
  - intros d [|c r] v r0 H; cbn [json_value] in H; [discriminate|].
    destruct (Ascii.eqb c dq).
    { destruct (str_body r []) as [[t r']| |]; try discriminate.
      injection H as <- _. reflexivity. }
    destruct ((Ascii.eqb c "["%char || Ascii.eqb c "{"%char) && (100 <=? d)%nat) eqn:Ed;
      [discriminate|].
    destruct (Ascii.eqb c "["%char) eqn:Eb.
    { cbn [orb andb] in Ed. apply Nat.leb_gt in Ed.
      destruct (skip_ws r) as [|c' r']; [discriminate|].
      destruct (Ascii.eqb c' "]"%char).
      - injection H as <- _. cbn [jsonable forallb]. apply Nat.ltb_lt in Ed. rewrite Ed. reflexivity.
      - eapply IHi; [exact H | exact Ed | reflexivity]. }
    destruct (Ascii.eqb c "{"%char) eqn:Ec.
    { rewrite orb_true_r in Ed. cbn [andb] in Ed. apply Nat.leb_gt in Ed.
      destruct (skip_ws r) as [|c' r']; [discriminate|].
      destruct (Ascii.eqb c' "}"%char).
      - injection H as <- _. cbn [jsonable forallb keys_unique]. apply Nat.ltb_lt in Ed.
        rewrite Ed. reflexivity.
      - eapply IHm; [exact H | exact Ed | reflexivity | reflexivity]. }
    apply scalar_jsonable. eapply (literal_scalar (c :: r)). exact H.
  - intros d s acc v r H Hd Hacc. cbn [json_items] in H.
    destruct (json_value f (S d) s) as [[v0 r0]| |] eqn:Ev; try discriminate.
    pose proof (IHv _ _ _ _ Ev) as Hv0.
    destruct (skip_ws r0) as [|c r']; [discriminate|].
    destruct (Ascii.eqb c ","%char).
    { eapply IHi; [exact H | exact Hd |]. cbn [forallb]. rewrite Hv0, Hacc. reflexivity. }
    destruct (Ascii.eqb c "]"%char); [|discriminate].
    injection H as <- _. cbn [jsonable]. apply Nat.ltb_lt in Hd. rewrite Hd. cbn [andb].
    rewrite forallb_app, forallb_rev'. cbn [forallb]. rewrite Hacc, Hv0. reflexivity.
  - intros d [|c r] acc v r0 H Hd Hu Hacc; cbn [json_members] in H; [discriminate|].
    destruct (Ascii.eqb c dq); [|discriminate].
    destruct (str_body r []) as [[k r1]| |]; try discriminate.
    destruct (skip_ws r1) as [|c1 r2]; [discriminate|].
    destruct (Ascii.eqb c1 ":"%char); [|discriminate].
    destruct (json_value f (S d) (skip_ws r2)) as [[v0 r3]| |] eqn:Ev; try discriminate.
    pose proof (IHv _ _ _ _ Ev) as Hv0.
    pose proof (keys_unique_dict_set acc k v0 Hu) as Hu'.
    pose proof (forallb_dict_set (jsonable (S d)) acc k v0 Hacc Hv0) as Hacc'.
    destruct (skip_ws r3) as [|c2 r4]; [discriminate|].
    destruct (Ascii.eqb c2 ","%char).
    { eapply IHm; [exact H | exact Hd | exact Hu' | exact Hacc']. }
    destruct (Ascii.eqb c2 "}"%char); [|discriminate].
    injection H as <- _. cbn [jsonable]. apply Nat.ltb_lt in Hd. rewrite Hd, Hu'. exact Hacc'.
Qed.

Lemma decode_file_jsonable (text : str) (v : pyval) : decode_file text = Ok v -> jsonable 0 v = true.
Proof.
  unfold decode_file, json_loads.
  destruct (json_value _ 0 (skip_ws text)) as [[v0 r]| |] eqn:E; try discriminate.
  destruct (List.length (skip_ws r) =? 0)%nat; [|discriminate].
  intro H. injection H as <-. eapply (proj1 (decoded_jsonable _)). exact E.
Qed.

Lemma dict_get_some_in {A} (d : dict A) (k : str) (v : A) : dict_get d k = Some v -> In (k, v) d.
Proof.
  induction d as [|[k' v'] r IH]; cbn [dict_get]; [discriminate|].
  destruct (str_eqb k k') eqn:E; intro H.
  - apply str_eqb_eq in E. subst k'. injection H as ->. left. reflexivity.
  - right. apply IH, H.
Qed.

Lemma dict_set_same {A} (d : dict A) (k : str) (v : A) : dict_get d k = Some v -> dict_set d k v = d.
Proof.
  induction d as [|[k' v'] r IH]; cbn [dict_get dict_set]; [discriminate|].
  destruct (str_eqb k k'); intro H; [injection H as ->; reflexivity|rewrite IH by exact H; reflexivity].
Qed.

Lemma dict_update_sub {A} (d e : dict A) :
  (forall k v, In (k, v) e -> dict_get d k = Some v) -> dict_update d e = d.
Proof.
  induction e as [|[k v] e IH]; intros H; [reflexivity|].
  unfold dict_update. cbn [fold_left fst snd].
  rewrite dict_set_same by (apply H; left; reflexivity).
  apply IH. intros k' v' Hin. apply H. right. exact Hin.
Qed.

Lemma dict_get_update_other {A} (d e : dict A) (k : str) :
  has_key e k = false -> dict_get (dict_update d e) k = dict_get d k.
Proof.
  revert d. induction e as [|[k0 v0] e IH]; intros d H; [reflexivity|].
  rewrite has_key_cons in H. apply orb_false_iff in H as [H1 H2].
  unfold dict_update. cbn [fold_left fst snd].
  pose proof (IH (dict_set d k0 v0) H2) as E. unfold dict_update in E. rewrite E.
  rewrite dict_get_set, H1. reflexivity.
Qed.

Lemma dict_get_update {A} (d e : dict A) (k : str) (v : A) :
  keys_unique e = true -> In (k, v) e -> dict_get (dict_update d e) k = Some v.
Proof.
  revert d. induction e as [|[k0 v0] e IH]; intros d Hu Hin; [destruct Hin|].
  cbn [keys_unique] in Hu. apply andb_prop in Hu as [Hn Hu]. apply negb_true_iff in Hn.
  unfold dict_update. cbn [fold_left fst snd].
  destruct Hin as [E|Hin].
  - injection E as -> ->.
    pose proof (dict_get_update_other (dict_set d k v) e k Hn) as E. unfold dict_update in E.
    rewrite E, dict_get_set, str_eqb_refl. reflexivity.
  - pose proof (IH (dict_set d k0 v0) Hu Hin) as E. unfold dict_update in E. exact E.
Qed.

Lemma dict_update_idem {A} (d e : dict A) :
  keys_unique e = true -> dict_update (dict_update d e) e = dict_update d e.
Proof. intro Hu. apply dict_update_sub. intros k v Hin. apply dict_get_update; assumption. Qed.

Lemma dict_update_self {A} (d : dict A) : keys_unique d = true -> dict_update d d = d.
Proof.
  intro Hu. apply dict_update_sub. intros k v Hin.
  apply dict_get_in; [apply keys_unique_nodup, Hu | exact Hin].
Qed.

Lemma keys_unique_update {A} (d e : dict A) :
  keys_unique d = true -> keys_unique (dict_update d e) = true.
Proof.
  revert d. induction e as [|[k v] e IH]; intros d Hu; [exact Hu|].
  unfold dict_update. cbn [fold_left fst snd].
  pose proof (IH (dict_set d k v) (keys_unique_dict_set d k v Hu)) as E.
  unfold dict_update in E. exact E.
Qed.

Lemma forallb_update {A} (p : A -> bool) (d e : dict A) :
  forallb (fun '(_, x) => p x) d = true -> forallb (fun '(_, x) => p x) e = true ->
  forallb (fun '(_, x) => p x) (dict_update d e) = true.
Proof.
  revert d. induction e as [|[k v] e IH]; intros d Hd He; [exact Hd|].
  cbn [forallb] in He. apply andb_prop in He as [Hv He].
  unfold dict_update. cbn [fold_left fst snd].
  pose proof (IH (dict_set d k v) (forallb_dict_set p d k v Hd Hv) He) as E.
  unfold dict_update in E. exact E.
Qed.

Lemma find_episode_some (eid : str) (eps : list pyval) (i k : nat) :
  find_episode eid eps i = Ok (Some k) ->
  exists pre x post y, eps = pre ++ x :: post /\ find_episode eid pre i = Ok None /\
    k = (i + List.length pre)%nat /\ getitem x (s_ "episode_id") = Ok y /\ eq_str y eid = true.
Proof.
  revert i. induction eps as [|ep r IH]; intros i H; cbn [find_episode] in H; [discriminate|].
  destruct (getitem ep (s_ "episode_id")) as [y|] eqn:Ey; cbn [bind] in H; [|discriminate].
  destruct (eq_str y eid) eqn:Eq.
  - injection H as <-. exists [], ep, r, y. repeat split; auto; simpl; lia.
  - destruct (IH (S i) H) as (pre & x & post & y' & -> & Hpre & -> & Hx & Hy).
    exists (ep :: pre), x, post, y'. split; [reflexivity|].
    split; [cbn [find_episode]; rewrite Ey; cbn [bind]; rewrite Eq; exact Hpre|].
    split; [simpl; lia|]. split; assumption.
Qed.

Lemma find_episode_app (eid : str) (pre l : list pyval) (i : nat) :
  find_episode eid pre i = Ok None -> find_episode eid (pre ++ l) i = find_episode eid l (i + List.length pre).
Proof.
  revert i. induction pre as [|ep r IH]; intros i H; [rewrite Nat.add_0_r; reflexivity|].
  cbn [find_episode app] in *.
  destruct (getitem ep (s_ "episode_id")) as [y|]; cbn [bind] in *; [|discriminate].
  destruct (eq_str y eid); [discriminate|]. rewrite (IH (S i) H). f_equal. simpl. lia.
Qed.

Lemma replace_nth_middle {A} (pre post : list A) (x v : A) :
  replace_nth (List.length pre) v (pre ++ x :: post) = pre ++ v :: post.
Proof. induction pre as [|y r IH]; [reflexivity|]. cbn [List.length app replace_nth]. rewrite IH. reflexivity. Qed.

(** Writing a serialisable value and reading the file back. *)
Lemma write_json_read (p : str) (v : pyval) (fs fs1 : FS) :
  jsonable 0 v = true -> write_json p v fs = (fs1, Ok tt) ->
  path_exists p fs1 = true /\ read_json p fs1 = Ok v /\ write_json p v fs1 = (fs1, Ok tt).
Proof.
  intros Hj H. unfold write_json in H.
  destruct (dump_to_file (fs_fault fs) v) as [text r] eqn:Ed. injection H as <- ->.
  split; [|split].
  - unfold path_exists. cbn [files]. rewrite has_key_set, str_eqb_refl. reflexivity.
  - unfold read_json. cbn [files]. rewrite dict_get_set, str_eqb_refl.
    eapply dump_decode; [exact Hj | exact Ed].
  - unfold write_json. cbn [fs_fault files]. rewrite Ed.
    rewrite (dict_set_same (dict_set (files fs) p text) p text); [reflexivity|].
    rewrite dict_get_set, str_eqb_refl. reflexivity.
Qed.

Lemma jsonable_list0 (l : list pyval) : jsonable 0 (PList l) = forallb (jsonable 1) l.
Proof. reflexivity. Qed.

Lemma jsonable_merge (kv md : dict pyval) :
  jsonable 1 (PDict kv) = true -> jsonable 1 (PDict md) = true ->
  jsonable 1 (PDict (dict_update kv md)) = true.
Proof.
  cbn [jsonable]. intros H1 H2.
  apply andb_prop in H1 as [Hu1 Hf1]. apply andb_prop in H2 as [Hu2 Hf2].
  rewrite keys_unique_update by exact Hu1.
  rewrite (forallb_update (jsonable 2) kv md Hf1 Hf2). reflexivity.
Qed.

(** [save_to_database] run a second time with the same metadata finds the
    episode it wrote and writes the same file again. *)
Theorem save_to_database_idempotent (metadata : pyval) (db_file : str) (fs fs1 : FS) :
  jsonable 1 metadata = true ->
  save_to_database metadata db_file fs = (fs1, Ok tt) ->
  save_to_database metadata db_file fs1 = (fs1, Ok tt).
Proof.
  intros Hmd H. unfold save_to_database in H.
  destruct (if path_exists db_file fs then read_json db_file fs else Ok (PList [])) as [eps|e] eqn:Eload;
    cbn [bind] in H; [|discriminate].
  assert (Hj : jsonable 0 eps = true).
  { destruct (path_exists db_file fs).
    - unfold read_json in Eload. destruct (dict_get (files fs) db_file); [|discriminate].
      eapply decode_file_jsonable. exact Eload.
    - injection Eload as <-. reflexivity. }
  destruct (getitem metadata (s_ "episode_id")) as [idv|] eqn:Eid; cbn [bind] in H; [|discriminate].
  destruct idv as [| | |eid| | |]; cbn [bind] in H; try discriminate.
  destruct metadata as [| | | | |md|]; try discriminate Eid.
  cbn [getitem] in Eid. destruct (dict_get md (s_ "episode_id")) as [x|] eqn:Emd; [|discriminate].
  injection Eid as ->.
  pose proof Hmd as Hmd'. cbn [jsonable] in Hmd'. apply andb_prop in Hmd' as [Hu _].
  destruct eps as [| | | |l| |]; cbn [iter_items bind] in H;
    try discriminate H;
    try (match type of H with context [find_episode eid ?its 0] =>
           destruct (find_episode eid its 0) as [[]|]; discriminate H end).
  rewrite jsonable_list0 in Hj. rename Hj into Hl.
  destruct (find_episode eid l 0) as [[i|]|] eqn:Ef; cbn [bind] in H; [| |discriminate].
  - destruct (find_episode_some eid l 0 i Ef) as (pre & x & post & y & -> & Hpre & -> & Hx & Hy).
    cbn [Nat.add] in H. rewrite nth_middle in H.
    destruct x as [| | | | |kv|]; try discriminate H.
    rewrite replace_nth_middle in H.
    assert (Hj1 : jsonable 0 (PList (pre ++ PDict (dict_update kv md) :: post)) = true).
    { rewrite jsonable_list0. rewrite forallb_app in Hl |- *. cbn [forallb] in Hl |- *.
      apply andb_prop in Hl as [Hpre' Hl2]. apply andb_prop in Hl2 as [Hkv Hpost].
      rewrite Hpre', Hpost, jsonable_merge by assumption. reflexivity. }
    destruct (write_json_read _ _ _ _ Hj1 H) as (Hex & Hrd & Hwr).
    unfold save_to_database. rewrite Hex, Hrd. cbn [bind getitem]. rewrite Emd. cbn [bind iter_items].
    rewrite find_episode_app by exact Hpre. cbn [find_episode getitem].
    rewrite (dict_get_update kv md (s_ "episode_id") (PStr eid) Hu (dict_get_some_in _ _ _ Emd)).
    cbn [bind eq_str]. rewrite str_eqb_refl. cbn [Nat.add]. cbn [bind]. rewrite nth_middle.
    rewrite dict_update_idem by exact Hu. rewrite replace_nth_middle. exact Hwr.
  - assert (Hj1 : jsonable 0 (PList (l ++ [PDict md])) = true).
    { rewrite jsonable_list0, forallb_app, Hl. cbn [forallb]. rewrite Hmd. reflexivity. }
    destruct (write_json_read _ _ _ _ Hj1 H) as (Hex & Hrd & Hwr).
    unfold save_to_database. rewrite Hex, Hrd. cbn [bind getitem]. rewrite Emd. cbn [bind iter_items].
    rewrite find_episode_app by exact Ef. cbn [find_episode getitem]. rewrite Emd.
    cbn [bind eq_str]. rewrite str_eqb_refl. cbn [Nat.add bind]. rewrite nth_middle.
    rewrite dict_update_self by exact Hu. rewrite replace_nth_middle. exact Hwr.
Qed.
Lemma save_to_database_idempotent_witness :
  let fs1 := fst (save_to_database (PDict new_metadata) db_path db_fs) in
  jsonable 1 (PDict new_metadata) = true /\
  save_to_database (PDict new_metadata) db_path db_fs = (fs1, Ok tt) /\
  save_to_database (PDict new_metadata) db_path fs1 = (fs1, Ok tt).
Proof.
  cbv zeta.
  assert (H1 : jsonable 1 (PDict new_metadata) = true) by (vm_compute; reflexivity).
  assert (H2 : save_to_database (PDict new_metadata) db_path db_fs =
               (fst (save_to_database (PDict new_metadata) db_path db_fs), Ok tt))
    by (vm_compute; reflexivity).
  split; [exact H1|]. split; [exact H2|].
  exact (save_to_database_idempotent (PDict new_metadata) db_path db_fs _ H1 H2).
Defined.
End DatabaseExtras.
